(** * ImageShareVault: the authentication and moderation core

    A shallow embedding of [server/auth.ts], [server/storage.ts],
    [server/routes.ts] and [server/routes-admin.ts].

    - The SQLite database is a record of four tables, each a list of rows in
      row order; [SELECT ... .get()] is the first matching row, [UPDATE] maps
      over the rows that satisfy the [WHERE] clause, [DELETE] filters.
    - A storage method is a function [DB -> Result A * DB]: a JavaScript
      [throw] does not roll back earlier statements, so the store is threaded
      through failures as well.
    - [new Date().toISOString()] and [randomBytes] are explicit arguments.
    - Platform functions (scrypt, [String.prototype.trim],
      [String.prototype.toLowerCase]) are section variables. *)

From Stdlib Require Import ZArith NArith List String Ascii Bool Lia Sorted.
From Stdlib.Strings Require Import Byte.
Import ListNotations.

Set Implicit Arguments.

(* ================================================================== *)
(** * Part I: definitions                                              *)
(* ================================================================== *)

(** ** Results of code that may throw *)

Inductive Result (A : Type) : Type :=
| Ok (a : A)
| Throw (e : string).

Arguments Ok {A} a.
Arguments Throw {A} e.

Definition try_catch {A} (body : Result A) (handler : string -> Result A) : Result A :=
  match body with
  | Ok a => Ok a
  | Throw e => handler e
  end.

Definition rbind {A B} (r : Result A) (k : A -> Result B) : Result B :=
  match r with
  | Ok a => k a
  | Throw e => Throw e
  end.

Declare Scope result_scope.
Delimit Scope result_scope with result.
Notation "'await' x <- r ; k" := (rbind r (fun x => k))
  (at level 10, x name, r at level 100, k at level 200) : result_scope.

(** ** JavaScript string primitives used by the server *)

Module JS.

(** Truthiness of a string: only the empty string is falsy. *)
Definition truthy (s : string) : bool :=
  match s with
  | EmptyString => false
  | String _ _ => true
  end.

(** [x || null] on an optional string argument. *)
Definition or_null (x : option string) : option string :=
  match x with
  | Some s => if truthy s then Some s else None
  | None => None
  end.

(** [s.includes(c)] for a one-character needle. *)
Fixpoint includes (c : ascii) (s : string) : bool :=
  match s with
  | EmptyString => false
  | String d rest => Ascii.eqb d c || includes c rest
  end.

(** [s.split(c)] for a one-character separator; the result always has at
    least one element. *)
Fixpoint split (c : ascii) (s : string) : list string :=
  match s with
  | EmptyString => [EmptyString]
  | String d rest =>
      if Ascii.eqb d c then EmptyString :: split c rest
      else match split c rest with
           | [] => [String d EmptyString]
           | h :: t => String d h :: t
           end
  end.

(** [Boolean(n)] on an integer column. *)
Definition Boolean (n : Z) : bool := negb (n =? 0)%Z.

(** Seven-bit strings, on which the case and whitespace functions below are
    exact models of the JavaScript built-ins. *)
Definition is_ascii_char (c : ascii) : bool := (N_of_ascii c <? 128)%N.

Fixpoint is_ascii (s : string) : bool :=
  match s with
  | EmptyString => true
  | String c rest => is_ascii_char c && is_ascii rest
  end.

(** ASCII white space as removed by [trim]: TAB, LF, VT, FF, CR, SPACE. *)
Definition is_ws (c : ascii) : bool :=
  let n := N_of_ascii c in
  ((9 <=? n) && (n <=? 13) || (n =? 32))%N.

Fixpoint trim_start (s : string) : string :=
  match s with
  | EmptyString => EmptyString
  | String c rest => if is_ws c then trim_start rest else s
  end.

Fixpoint trim_end (s : string) : string :=
  match s with
  | EmptyString => EmptyString
  | String c rest =>
      match trim_end rest with
      | EmptyString => if is_ws c then EmptyString else String c EmptyString
      | r => String c r
      end
  end.

Definition ascii_trim (s : string) : string := trim_end (trim_start s).

End JS.

(** ** SQLite scalar functions and comparisons *)

Module SQL.

(** [LOWER(x)]: SQLite folds the letters A-Z only. *)
Definition lower_char (c : ascii) : ascii :=
  let n := N_of_ascii c in
  if ((65 <=? n) && (n <=? 90))%N then ascii_of_N (n + 32) else c.

Fixpoint LOWER (s : string) : string :=
  match s with
  | EmptyString => EmptyString
  | String c rest => String (lower_char c) (LOWER rest)
  end.

(** [col = ?] on a nullable TEXT column: NULL equals nothing. *)
Definition text_eq (col : option string) (v : string) : bool :=
  match col with
  | Some s => String.eqb s v
  | None => false
  end.

(** Ordering of a nullable TEXT column under the BINARY collation: NULL
    sorts before every string, strings compare bytewise. *)
Definition text_le (a b : option string) : bool :=
  match a, b with
  | None, _ => true
  | Some _, None => false
  | Some x, Some y => String.leb x y
  end.

End SQL.

(** ** Node's Buffer hex codec and [crypto.timingSafeEqual] *)

Module Buffer.

Definition hex_digit (n : N) : ascii :=
  if (n <? 10)%N then ascii_of_N (48 + n) else ascii_of_N (87 + n).

(** [buf.toString("hex")]: two lower-case digits per byte. *)
Fixpoint toHex (buf : list byte) : string :=
  match buf with
  | [] => EmptyString
  | b :: rest =>
      let n := Byte.to_N b in
      String (hex_digit (n / 16)) (String (hex_digit (n mod 16)) (toHex rest))
  end.

Definition hex_value (c : ascii) : option N :=
  let n := N_of_ascii c in
  if ((48 <=? n) && (n <=? 57))%N then Some (n - 48)%N
  else if ((97 <=? n) && (n <=? 102))%N then Some (n - 87)%N
  else if ((65 <=? n) && (n <=? 70))%N then Some (n - 55)%N
  else None.

(** [Buffer.from(s, "hex")]: decodes digit pairs and stops, without
    throwing, at the first pair that is not hexadecimal; a trailing single
    character is dropped. *)
Fixpoint fromHex (s : string) : list byte :=
  match s with
  | String a (String b rest) =>
      match hex_value a, hex_value b with
      | Some h, Some l =>
          match Byte.of_N (16 * h + l) with
          | Some x => x :: fromHex rest
          | None => []
          end
      | _, _ => []
      end
  | _ => []
  end.

Fixpoint bytes_eqb (a b : list byte) : bool :=
  match a, b with
  | [], [] => true
  | x :: a', y :: b' => Byte.eqb x y && bytes_eqb a' b'
  | _, _ => false
  end.

(** [timingSafeEqual(a, b)] throws a RangeError when the byte lengths
    differ. *)
Definition timingSafeEqual (a b : list byte) : Result bool :=
  if Nat.eqb (List.length a) (List.length b) then Ok (bytes_eqb a b)
  else Throw "Input buffers must have the same byte length"%string.

End Buffer.

(** ** The password hasher of [auth.ts] *)

Section PasswordHasher.

(** [scryptAsync(password, salt, keylen)]. *)
Variable scrypt : string -> string -> nat -> Result (list byte).

Local Open Scope result_scope.
Local Open Scope string_scope.

(** [hashPassword]; [rnd] is the value of [randomBytes(16)]. *)
Definition hashPassword (rnd : list byte) (password : string) : Result string :=
  let salt := Buffer.toHex rnd in
  await buf <- scrypt password salt 64;
  Ok (Buffer.toHex buf ++ "." ++ salt).

(** The body of the [try] block of [comparePasswords]. *)
Definition comparePasswords_try (supplied stored : string) : Result bool :=
  if negb (JS.truthy stored) || negb (JS.includes "." stored) then Ok false
  else
    let parts := JS.split "." stored in
    match nth_error parts 0, nth_error parts 1 with
    | Some storedHash, Some salt =>
        if negb (JS.truthy storedHash) || negb (JS.truthy salt) then Ok false
        else
          await suppliedBuf <- scrypt supplied salt 64;
          let storedBuf := Buffer.fromHex storedHash in
          await result <- Buffer.timingSafeEqual suppliedBuf storedBuf;
          Ok result
    | _, _ => Ok false
    end.

(** [comparePasswords]: the [catch] clause turns every exception into
    [false]. *)
Definition comparePasswords (supplied stored : string) : Result bool :=
  try_catch (comparePasswords_try supplied stored) (fun _ => Ok false).

End PasswordHasher.

(** ** The relational schema ([shared/schema.ts], [initializeSchemaSync]) *)

(** Flags are 0/1 INTEGER columns, time stamps are TEXT columns, nullable
    columns are options. *)

Module UserRow.
Record t : Type := mk {
  id : Z;
  name : string;
  email : string;
  password : string;
  is_verified : Z;
  verification_token : option string;
  is_moderator : Z;
  is_admin : Z;
  is_banned : Z;
  ban_reason : option string;
  banned_by : option Z;
  banned_at : option string;
  bio : option string;
  profile_picture : option string;
  website : option string;
  social_links : option string;
  theme_preference : option string;
  created_at : option string
}.
End UserRow.

Module User.
Record t : Type := mk {
  id : Z;
  name : string;
  email : string;
  password : string;
  isVerified : bool;
  verificationToken : option string;
  isModerator : bool;
  isAdmin : bool;
  isBanned : bool;
  banReason : option string;
  bannedBy : option Z;
  bannedAt : option string;
  bio : option string;
  profilePicture : option string;
  website : option string;
  socialLinks : option string;
  themePreference : string;
  createdAt : option string
}.
End User.

(** [VALID_IMAGE_STATUSES]. *)
Inductive ImageStatus : Type := pending | approved | rejected.

(** The [status] argument of [updateImageStatus]: ["approved" | "rejected"]. *)
Inductive Decision : Type := approve | reject.

Definition status_of_decision (d : Decision) : ImageStatus :=
  match d with
  | approve => approved
  | reject => rejected
  end.

Definition ImageStatus_eqb (a b : ImageStatus) : bool :=
  match a, b with
  | pending, pending | approved, approved | rejected, rejected => true
  | _, _ => false
  end.

Module ImageRow.
Record t : Type := mk {
  id : Z;
  title : string;
  description : option string;
  filename : string;
  status : ImageStatus;
  user_id : Z;
  reviewed_by : option Z;
  rejection_reason : option string;
  is_public : Z;
  created_at : option string;
  updated_at : option string
}.
End ImageRow.

Module Image.
Record t : Type := mk {
  id : Z;
  title : string;
  description : option string;
  filename : string;
  status : ImageStatus;
  userId : Z;
  reviewedBy : option Z;
  rejectionReason : option string;
  isPublic : bool;
  createdAt : option string;
  updatedAt : option string
}.
End Image.

Module AlbumRow.
Record t : Type := mk {
  id : Z;
  title : string;
  description : option string;
  cover_image_id : option Z;
  user_id : Z;
  is_public : Z;
  created_at : option string;
  updated_at : option string
}.
End AlbumRow.

Module Album.
Record t : Type := mk {
  id : Z;
  title : string;
  description : option string;
  coverImageId : option Z;
  userId : Z;
  isPublic : bool;
  createdAt : option string;
  updatedAt : option string
}.
End Album.

Module AlbumImageRow.
Record t : Type := mk {
  id : Z;
  album_id : Z;
  image_id : Z;
  added_at : option string
}.
End AlbumImageRow.

(** The database: the four tables in row order and the AUTOINCREMENT
    counters of the two tables the modelled methods insert into. *)
Record DB : Type := mkDB {
  users : list UserRow.t;
  images : list ImageRow.t;
  albums : list AlbumRow.t;
  album_images : list AlbumImageRow.t;
  users_seq : Z;
  album_images_seq : Z
}.

(** ** Storage methods: state passing with exceptions *)

Definition M (A : Type) : Type := DB -> Result A * DB.

Definition ret {A} (a : A) : M A := fun db => (Ok a, db).

Definition throw {A} (e : string) : M A := fun db => (Throw e, db).

Definition bind {A B} (m : M A) (k : A -> M B) : M B :=
  fun db =>
    match m db with
    | (Ok a, db') => k a db'
    | (Throw e, db') => (Throw e, db')
    end.

(** A [SELECT]: reads, never writes. *)
Definition query {A} (f : DB -> A) : M A := fun db => (Ok (f db), db).

(** An [UPDATE], [INSERT] or [DELETE]. *)
Definition exec (f : DB -> DB) : M unit := fun db => (Ok tt, f db).

Declare Scope storage_scope.
Delimit Scope storage_scope with storage.
Notation "'await' x <- m ; k" := (bind m (fun x => k))
  (at level 10, x name, m at level 100, k at level 200) : storage_scope.
Notation "'run' m ; k" := (bind m (fun _ => k))
  (at level 10, m at level 100, k at level 200) : storage_scope.

(** [UPDATE t SET ... WHERE p]. *)
Definition update_where {R} (p : R -> bool) (f : R -> R) (rows : list R) : list R :=
  map (fun r => if p r then f r else r) rows.

(** [x ? Number(x) : null] on a nullable INTEGER column. *)
Definition number_or_null (x : option Z) : option Z :=
  match x with
  | Some n => if JS.Boolean n then Some n else None
  | None => None
  end.

Definition flag (b : bool) : Z := if b then 1%Z else 0%Z.

Definition transformUser (row : UserRow.t) : User.t :=
  {| User.id := UserRow.id row;
     User.name := UserRow.name row;
     User.email := UserRow.email row;
     User.password := UserRow.password row;
     User.isVerified := JS.Boolean (UserRow.is_verified row);
     User.verificationToken := UserRow.verification_token row;
     User.isModerator := JS.Boolean (UserRow.is_moderator row);
     User.isAdmin := JS.Boolean (UserRow.is_admin row);
     User.isBanned := JS.Boolean (UserRow.is_banned row);
     User.banReason := UserRow.ban_reason row;
     User.bannedBy := number_or_null (UserRow.banned_by row);
     User.bannedAt := UserRow.banned_at row;
     User.bio := UserRow.bio row;
     User.profilePicture := UserRow.profile_picture row;
     User.website := UserRow.website row;
     User.socialLinks := UserRow.social_links row;
     User.themePreference :=
       match JS.or_null (UserRow.theme_preference row) with
       | Some s => s
       | None => "default"%string
       end;
     User.createdAt := UserRow.created_at row |}.

Definition transformImage (row : ImageRow.t) : Image.t :=
  {| Image.id := ImageRow.id row;
     Image.title := ImageRow.title row;
     Image.description := ImageRow.description row;
     Image.filename := ImageRow.filename row;
     Image.status := ImageRow.status row;
     Image.userId := ImageRow.user_id row;
     Image.reviewedBy := number_or_null (ImageRow.reviewed_by row);
     Image.rejectionReason := ImageRow.rejection_reason row;
     Image.isPublic := JS.Boolean (ImageRow.is_public row);
     Image.createdAt := ImageRow.created_at row;
     Image.updatedAt := ImageRow.updated_at row |}.

Definition transformAlbum (row : AlbumRow.t) : Album.t :=
  {| Album.id := AlbumRow.id row;
     Album.title := AlbumRow.title row;
     Album.description := AlbumRow.description row;
     Album.coverImageId := number_or_null (AlbumRow.cover_image_id row);
     Album.userId := AlbumRow.user_id row;
     Album.isPublic := JS.Boolean (AlbumRow.is_public row);
     Album.createdAt := AlbumRow.created_at row;
     Album.updatedAt := AlbumRow.updated_at row |}.

(** *** Table writers *)

Definition with_users (f : list UserRow.t -> list UserRow.t) (db : DB) : DB :=
  {| users := f (users db); images := images db; albums := albums db;
     album_images := album_images db;
     users_seq := users_seq db; album_images_seq := album_images_seq db |}.

Definition with_images (f : list ImageRow.t -> list ImageRow.t) (db : DB) : DB :=
  {| users := users db; images := f (images db); albums := albums db;
     album_images := album_images db;
     users_seq := users_seq db; album_images_seq := album_images_seq db |}.

Definition with_albums (f : list AlbumRow.t -> list AlbumRow.t) (db : DB) : DB :=
  {| users := users db; images := images db; albums := f (albums db);
     album_images := album_images db;
     users_seq := users_seq db; album_images_seq := album_images_seq db |}.

Definition with_album_images (f : list AlbumImageRow.t -> list AlbumImageRow.t) (db : DB) : DB :=
  {| users := users db; images := images db; albums := albums db;
     album_images := f (album_images db);
     users_seq := users_seq db; album_images_seq := album_images_seq db |}.

(** *** The SET clauses of the UPDATE statements *)

(** [SET is_verified = 1, verification_token = NULL]. *)
Definition set_verified (r : UserRow.t) : UserRow.t :=
  {| UserRow.id := UserRow.id r; UserRow.name := UserRow.name r;
     UserRow.email := UserRow.email r; UserRow.password := UserRow.password r;
     UserRow.is_verified := 1;
     UserRow.verification_token := None;
     UserRow.is_moderator := UserRow.is_moderator r;
     UserRow.is_admin := UserRow.is_admin r;
     UserRow.is_banned := UserRow.is_banned r;
     UserRow.ban_reason := UserRow.ban_reason r;
     UserRow.banned_by := UserRow.banned_by r;
     UserRow.banned_at := UserRow.banned_at r;
     UserRow.bio := UserRow.bio r;
     UserRow.profile_picture := UserRow.profile_picture r;
     UserRow.website := UserRow.website r;
     UserRow.social_links := UserRow.social_links r;
     UserRow.theme_preference := UserRow.theme_preference r;
     UserRow.created_at := UserRow.created_at r |}.

(** [SET verification_token = ?]. *)
Definition set_verification_token (token : string) (r : UserRow.t) : UserRow.t :=
  {| UserRow.id := UserRow.id r; UserRow.name := UserRow.name r;
     UserRow.email := UserRow.email r; UserRow.password := UserRow.password r;
     UserRow.is_verified := UserRow.is_verified r;
     UserRow.verification_token := Some token;
     UserRow.is_moderator := UserRow.is_moderator r;
     UserRow.is_admin := UserRow.is_admin r;
     UserRow.is_banned := UserRow.is_banned r;
     UserRow.ban_reason := UserRow.ban_reason r;
     UserRow.banned_by := UserRow.banned_by r;
     UserRow.banned_at := UserRow.banned_at r;
     UserRow.bio := UserRow.bio r;
     UserRow.profile_picture := UserRow.profile_picture r;
     UserRow.website := UserRow.website r;
     UserRow.social_links := UserRow.social_links r;
     UserRow.theme_preference := UserRow.theme_preference r;
     UserRow.created_at := UserRow.created_at r |}.

(** [SET is_moderator = CASE WHEN ? IS NOT NULL THEN ? ELSE is_moderator END,
        is_admin = CASE WHEN ? IS NOT NULL THEN ? ELSE is_admin END]
    with the parameters [updateUserRole] binds. *)
Definition set_roles (isModerator isAdmin : option bool) (r : UserRow.t) : UserRow.t :=
  {| UserRow.id := UserRow.id r; UserRow.name := UserRow.name r;
     UserRow.email := UserRow.email r; UserRow.password := UserRow.password r;
     UserRow.is_verified := UserRow.is_verified r;
     UserRow.verification_token := UserRow.verification_token r;
     UserRow.is_moderator :=
       match isModerator with
       | Some b => flag b
       | None => UserRow.is_moderator r
       end;
     UserRow.is_admin :=
       match isAdmin with
       | Some b => flag b
       | None => UserRow.is_admin r
       end;
     UserRow.is_banned := UserRow.is_banned r;
     UserRow.ban_reason := UserRow.ban_reason r;
     UserRow.banned_by := UserRow.banned_by r;
     UserRow.banned_at := UserRow.banned_at r;
     UserRow.bio := UserRow.bio r;
     UserRow.profile_picture := UserRow.profile_picture r;
     UserRow.website := UserRow.website r;
     UserRow.social_links := UserRow.social_links r;
     UserRow.theme_preference := UserRow.theme_preference r;
     UserRow.created_at := UserRow.created_at r |}.

(** [SET is_banned = ?, ban_reason = ?, banned_by = ?, banned_at = ?]. *)
Definition set_ban (isBanned : Z) (banReason : option string) (bannedBy : option Z)
    (bannedAt : option string) (r : UserRow.t) : UserRow.t :=
  {| UserRow.id := UserRow.id r; UserRow.name := UserRow.name r;
     UserRow.email := UserRow.email r; UserRow.password := UserRow.password r;
     UserRow.is_verified := UserRow.is_verified r;
     UserRow.verification_token := UserRow.verification_token r;
     UserRow.is_moderator := UserRow.is_moderator r;
     UserRow.is_admin := UserRow.is_admin r;
     UserRow.is_banned := isBanned;
     UserRow.ban_reason := banReason;
     UserRow.banned_by := bannedBy;
     UserRow.banned_at := bannedAt;
     UserRow.bio := UserRow.bio r;
     UserRow.profile_picture := UserRow.profile_picture r;
     UserRow.website := UserRow.website r;
     UserRow.social_links := UserRow.social_links r;
     UserRow.theme_preference := UserRow.theme_preference r;
     UserRow.created_at := UserRow.created_at r |}.

(** [SET is_public = ?, updated_at = ?]. *)
Definition set_visibility (isPublic : Z) (updatedAt : string) (r : ImageRow.t) : ImageRow.t :=
  {| ImageRow.id := ImageRow.id r; ImageRow.title := ImageRow.title r;
     ImageRow.description := ImageRow.description r;
     ImageRow.filename := ImageRow.filename r;
     ImageRow.status := ImageRow.status r;
     ImageRow.user_id := ImageRow.user_id r;
     ImageRow.reviewed_by := ImageRow.reviewed_by r;
     ImageRow.rejection_reason := ImageRow.rejection_reason r;
     ImageRow.is_public := isPublic;
     ImageRow.created_at := ImageRow.created_at r;
     ImageRow.updated_at := Some updatedAt |}.

(** [SET status = ?, reviewed_by = ?, rejection_reason = ?, updated_at = ?]. *)
Definition set_status (status : ImageStatus) (reviewedBy : Z)
    (rejectionReason : option string) (updatedAt : string) (r : ImageRow.t) : ImageRow.t :=
  {| ImageRow.id := ImageRow.id r; ImageRow.title := ImageRow.title r;
     ImageRow.description := ImageRow.description r;
     ImageRow.filename := ImageRow.filename r;
     ImageRow.status := status;
     ImageRow.user_id := ImageRow.user_id r;
     ImageRow.reviewed_by := Some reviewedBy;
     ImageRow.rejection_reason := rejectionReason;
     ImageRow.is_public := ImageRow.is_public r;
     ImageRow.created_at := ImageRow.created_at r;
     ImageRow.updated_at := Some updatedAt |}.

(** [SET cover_image_id = ?, updated_at = ?]. *)
Definition set_cover (cover : option Z) (updatedAt : string) (r : AlbumRow.t) : AlbumRow.t :=
  {| AlbumRow.id := AlbumRow.id r; AlbumRow.title := AlbumRow.title r;
     AlbumRow.description := AlbumRow.description r;
     AlbumRow.cover_image_id := cover;
     AlbumRow.user_id := AlbumRow.user_id r;
     AlbumRow.is_public := AlbumRow.is_public r;
     AlbumRow.created_at := AlbumRow.created_at r;
     AlbumRow.updated_at := Some updatedAt |}.

(** *** SELECT helpers *)

Definition user_by_id (id : Z) (db : DB) : option UserRow.t :=
  find (fun r => (UserRow.id r =? id)%Z) (users db).

Definition image_by_id (id : Z) (db : DB) : option ImageRow.t :=
  find (fun r => (ImageRow.id r =? id)%Z) (images db).

Definition album_by_id (id : Z) (db : DB) : option AlbumRow.t :=
  find (fun r => (AlbumRow.id r =? id)%Z) (albums db).

(** [WHERE album_id = ? AND image_id = ?]. *)
Definition is_membership (albumId imageId : Z) (r : AlbumImageRow.t) : bool :=
  ((AlbumImageRow.album_id r =? albumId) && (AlbumImageRow.image_id r =? imageId))%Z.

(** [WHERE album_id = ?]. *)
Definition in_album (albumId : Z) (r : AlbumImageRow.t) : bool :=
  (AlbumImageRow.album_id r =? albumId)%Z.

(** [ORDER BY added_at DESC LIMIT 1]: a row whose [added_at] is greatest;
    among equal time stamps the one that comes first in the table. *)
Fixpoint latest_added (rows : list AlbumImageRow.t) : option AlbumImageRow.t :=
  match rows with
  | [] => None
  | r :: rest =>
      match latest_added rest with
      | None => Some r
      | Some best =>
          if SQL.text_le (AlbumImageRow.added_at best) (AlbumImageRow.added_at r)
          then Some r else Some best
      end
  end.

(** The next AUTOINCREMENT key: above every key in the table and above the
    largest key ever handed out. *)
Definition next_album_image_id (db : DB) : Z :=
  (1 + fold_right Z.max (album_images_seq db)
         (map AlbumImageRow.id (album_images db)))%Z.

Definition next_user_id (db : DB) : Z :=
  (1 + fold_right Z.max (users_seq db) (map UserRow.id (users db)))%Z.

(** [INSERT INTO users (name, email, password, is_verified) VALUES (?, ?, ?, ?)]
    returning [lastInsertRowid]. The other columns take their defaults
    ([sqlnow] is CURRENT_TIMESTAMP); the UNIQUE constraint on [email]
    compares bytewise. *)
Definition insert_user (sqlnow name email password : string) (is_verified : Z)
    : M Z :=
  fun db =>
    if existsb (fun r => String.eqb (UserRow.email r) email) (users db)
    then (Throw "UNIQUE constraint failed: users.email"%string, db)
    else
      let key := next_user_id db in
      (Ok key,
       {| users :=
            users db ++
            [ {| UserRow.id := key; UserRow.name := name; UserRow.email := email;
                 UserRow.password := password;
                 UserRow.is_verified := is_verified;
                 UserRow.verification_token := None;
                 UserRow.is_moderator := 0; UserRow.is_admin := 0;
                 UserRow.is_banned := 0; UserRow.ban_reason := None;
                 UserRow.banned_by := None; UserRow.banned_at := None;
                 UserRow.bio := None; UserRow.profile_picture := None;
                 UserRow.website := None; UserRow.social_links := None;
                 UserRow.theme_preference := Some "default"%string;
                 UserRow.created_at := Some sqlnow |} ];
          images := images db; albums := albums db;
          album_images := album_images db;
          users_seq := key; album_images_seq := album_images_seq db |}).

(** ** [DatabaseStorage] ([storage.ts]) *)

(** [UpdateUserRole] and [BanUser] of [shared/schema.ts]. *)
Record UpdateUserRole : Type := mkUpdateUserRole {
  isModerator : option bool;
  isAdmin : option bool
}.

Record BanUser : Type := mkBanUser {
  isBanned : bool;
  banReason : option string
}.

(** The fields of [InsertUser & { is_verified?: number }] that [createUser]
    reads. *)
Module InsertUser.
Record t : Type := mk {
  name : string;
  email : string;
  password : string;
  is_verified : option Z
}.
End InsertUser.

Section Storage.

(** [String.prototype.trim] and [String.prototype.toLowerCase]. *)
Variable trim : string -> string.
Variable toLowerCase : string -> string.

Local Open Scope storage_scope.
Local Open Scope string_scope.
Local Open Scope Z_scope.

Definition getUser (id : Z) : M (option User.t) :=
  await user <- query (user_by_id id);
  ret (option_map transformUser user).

Definition getUserByEmail (email : string) : M (option User.t) :=
  let normalizedEmail := toLowerCase (trim email) in
  await user <- query (fun db =>
    if String.eqb normalizedEmail ""
    then find (fun r => String.eqb (UserRow.email r) "") (users db)
    else find (fun r => String.eqb (SQL.LOWER (UserRow.email r)) normalizedEmail)
              (users db));
  match user with
  | Some row => ret (Some (transformUser row))
  | None => ret None
  end.

(** [sqlnow] is the value of CURRENT_TIMESTAMP at the INSERT. *)
Definition createUser (sqlnow : string) (userData : InsertUser.t) : M User.t :=
  if negb (JS.truthy (InsertUser.password userData))
  then throw "Password cannot be empty"
  else
    let name := InsertUser.name userData in
    let email := trim (InsertUser.email userData) in
    await userId <- insert_user sqlnow name email (InsertUser.password userData)
                      match InsertUser.is_verified userData with
                      | Some n => if JS.Boolean n then n else 0
                      | None => 0
                      end;
    await user <- query (user_by_id userId);
    match user with
    | None => throw "Failed to retrieve newly created user"
    | Some row => ret (transformUser row)
    end.

Definition verifyUserByToken (token : string) : M (option User.t) :=
  await user <- query (fun db =>
    find (fun r => SQL.text_eq (UserRow.verification_token r) token) (users db));
  match user with
  | None => ret None
  | Some user =>
      run exec (with_users
        (update_where (fun r => UserRow.id r =? UserRow.id user) set_verified));
      await updatedUser <- query (user_by_id (UserRow.id user));
      match updatedUser with
      | Some row => ret (Some (transformUser row))
      | None => throw "TypeError: Cannot read properties of undefined"
      end
  end.

(** [token] is the value of [randomBytes(32).toString('hex')]. *)
Definition generateVerificationToken (token : string) (userId : Z) : M string :=
  run exec (with_users
    (update_where (fun r => UserRow.id r =? userId) (set_verification_token token)));
  ret token.

Definition updateUserRole (userId adminId : Z) (data : UpdateUserRole) : M User.t :=
  await user <- getUser userId;
  match user with
  | None => throw "User not found"
  | Some _ =>
      run (match isModerator data, isAdmin data with
           | None, None => ret tt
           | _, _ =>
               exec (with_users
                 (update_where (fun r => UserRow.id r =? userId)
                    (set_roles (isModerator data) (isAdmin data))))
           end);
      await updatedUser <- getUser userId;
      match updatedUser with
      | None => throw "Failed to retrieve updated user"
      | Some u => ret u
      end
  end.

(** [banUser]. The UPDATE writes [banned_by], which references [users(id)]
    ([PRAGMA foreign_keys = ON]): a ban in the name of an id that no user has
    makes the statement fail and changes nothing; lifting a ban writes NULL
    and is not checked. *)
Definition banUser (now : string) (userId adminId : Z) (data : BanUser) : M User.t :=
  await user <- getUser userId;
  match user with
  | None => throw "User not found"
  | Some _ =>
      let currentDate := if isBanned data then Some now else None in
      await referenced <- query (fun db =>
        if isBanned data
        then match user_by_id adminId db with
             | Some _ => true
             | None => false
             end
        else true);
      if referenced then
        run exec (with_users
          (update_where (fun r => UserRow.id r =? userId)
             (set_ban (flag (isBanned data))
                      (JS.or_null (banReason data))
                      (if isBanned data then Some adminId else None)
                      currentDate)));
        await updatedUser <- getUser userId;
        match updatedUser with
        | None => throw "Failed to retrieve updated user"
        | Some u => ret u
        end
      else throw "FOREIGN KEY constraint failed"
  end.

Definition getImageById (id : Z) : M (option Image.t) :=
  await image <- query (image_by_id id);
  ret (option_map transformImage image).

Definition updateImageVisibility (now : string) (imageId userId : Z) (isPublic : bool)
    : M Image.t :=
  await image <- getImageById imageId;
  match image with
  | None => throw "Image not found"
  | Some image =>
      if negb (Image.userId image =? userId)
      then throw "You do not have permission to update this image"
      else
        let currentDate := now in
        run exec (with_images
          (update_where (fun r => ImageRow.id r =? imageId)
             (set_visibility (flag isPublic) currentDate)));
        await updatedImage <- getImageById imageId;
        match updatedImage with
        | None => throw "Failed to retrieve updated image"
        | Some i => ret i
        end
  end.

(** [updateImageStatus]. The UPDATE writes [reviewed_by], which references
    [users(id)] ([PRAGMA foreign_keys = ON]): when a row matches and no user
    has the moderator's id the statement fails and changes nothing; when no
    row matches nothing is written and nothing is checked. *)
Definition updateImageStatus (now : string) (imageId : Z) (status : Decision)
    (moderatorId : Z) (rejectionReason : option string) : M Image.t :=
  let currentDate := now in
  await referenced <- query (fun db =>
    match image_by_id imageId db, user_by_id moderatorId db with
    | Some _, None => false
    | _, _ => true
    end);
  if referenced then
    run exec (with_images
      (update_where (fun r => ImageRow.id r =? imageId)
         (set_status (status_of_decision status) moderatorId
                     (JS.or_null rejectionReason) currentDate)));
    await image <- query (image_by_id imageId);
    match image with
    | None => throw "Image not found after update"
    | Some row => ret (transformImage row)
    end
  else throw "FOREIGN KEY constraint failed".

(** [getAlbumById] without the [images] member of its result: that member is
    a read-only join which none of the mutating methods below consults. *)
Definition getAlbumById (id : Z) : M (option Album.t) :=
  await album <- query (album_by_id id);
  ret (option_map transformAlbum album).

Definition addImageToAlbum (now : string) (albumId userId imageId : Z) : M unit :=
  await album <- getAlbumById albumId;
  match album with
  | None => throw "Album not found"
  | Some album =>
      if negb (Album.userId album =? userId)
      then throw "You do not have permission to update this album"
      else
        await image <- getImageById imageId;
        match image with
        | None => throw "Image not found"
        | Some image =>
            if negb (ImageStatus_eqb (Image.status image) approved)
            then throw "Only approved images can be added to albums"
            else
              await existingEntry <- query (fun db =>
                find (is_membership albumId imageId) (album_images db));
              match existingEntry with
              | Some _ => ret tt
              | None =>
                  let currentDate := now in
                  run exec (fun db =>
                    let key := next_album_image_id db in
                    {| users := users db; images := images db; albums := albums db;
                       album_images :=
                         album_images db ++
                         [ {| AlbumImageRow.id := key;
                              AlbumImageRow.album_id := albumId;
                              AlbumImageRow.image_id := imageId;
                              AlbumImageRow.added_at := Some currentDate |} ];
                       users_seq := users_seq db;
                       album_images_seq := key |});
                  match Album.coverImageId album with
                  | Some _ => ret tt
                  | None =>
                      exec (with_albums
                        (update_where
                           (fun r => (AlbumRow.id r =? albumId) &&
                                     match AlbumRow.cover_image_id r with
                                     | None => true
                                     | Some _ => false
                                     end)
                           (set_cover (Some imageId) currentDate)))
                  end
              end
        end
  end.

Definition removeImageFromAlbum (now : string) (albumId userId imageId : Z) : M unit :=
  await album <- getAlbumById albumId;
  match album with
  | None => throw "Album not found"
  | Some album =>
      if negb (Album.userId album =? userId)
      then throw "You do not have permission to update this album"
      else
        run exec (with_album_images
          (filter (fun r => negb (is_membership albumId imageId r))));
        match Album.coverImageId album with
        | Some cover =>
            if cover =? imageId then
              await firstImage <- query (fun db =>
                latest_added (filter (in_album albumId) (album_images db)));
              let currentDate := now in
              exec (with_albums
                (update_where (fun r => AlbumRow.id r =? albumId)
                   (set_cover (option_map AlbumImageRow.image_id firstImage)
                              currentDate)))
            else ret tt
        | None => ret tt
        end
  end.

End Storage.

(** ** HTTP responses *)

Inductive Body : Type :=
| Message (message : string)
| InvalidData
| UserJson (u : User.t)
| SafeUserJson (u : User.t)
| ImageJson (i : Image.t).

Inductive Response : Type :=
| Json (status : Z) (body : Body)
| Next (err : string).

Definition status_of (r : Response) : option Z :=
  match r with
  | Json s _ => Some s
  | Next _ => None
  end.

(** ** The session authenticator ([auth.ts]) *)

(** The three ways the verify callback calls [done]. *)
Inductive Done : Type :=
| DoneUser (user : User.t)
| DoneFalse (message : string)
| DoneError (err : string).

Section Auth.

Variable scrypt : string -> string -> nat -> Result (list byte).
Variable trim : string -> string.
Variable toLowerCase : string -> string.

Local Open Scope string_scope.

(** The message of a rejected banned login:
    [`Your account has been banned. ${user.banReason ? `Reason: ${user.banReason}` : ''}`]. *)
Definition banned_message (user : User.t) : string :=
  "Your account has been banned. " ++
  match JS.or_null (User.banReason user) with
  | Some reason => "Reason: " ++ reason
  | None => ""
  end.

(** The verify callback handed to [LocalStrategy]. *)
Definition localStrategyVerify (email password : string) (db : DB) : Done * DB :=
  match getUserByEmail trim toLowerCase email db with
  | (Throw e, db') => (DoneError e, db')
  | (Ok None, db') => (DoneFalse "Incorrect email or password", db')
  | (Ok (Some user), db') =>
      if User.isBanned user then (DoneFalse (banned_message user), db')
      else
        match comparePasswords scrypt password (User.password user) with
        | Throw e => (DoneError e, db')
        | Ok false => (DoneFalse "Incorrect email or password", db')
        | Ok true => (DoneUser user, db')
        end
  end.

(** [POST /api/login]: the response and the user id bound to the session, if
    a session was established ([req.login] is taken to succeed). [email] and
    [password] are the two request fields as [passport-local] reads them, an
    absent field being the empty string: when either is empty the strategy
    fails with 'Missing credentials' and the verify callback is not called;
    the route's callback turns every failure into a 401 with the failure's
    message. *)
Definition postLogin (email password : string) (db : DB)
    : (Response * option Z) * DB :=
  if negb (JS.truthy email) || negb (JS.truthy password)
  then ((Json 401 (Message "Missing credentials"), None), db)
  else
    match localStrategyVerify email password db with
    | (DoneError err, db') => ((Next err, None), db')
    | (DoneFalse message, db') => ((Json 401 (Message message), None), db')
    | (DoneUser user, db') =>
        ((Json 200 (SafeUserJson user), Some (User.id user)), db')
    end.

(** [POST /api/register]. [body] is the result of
    [insertUserSchema.parse(req.body)] ([None] when it throws), [rnd] the
    salt bytes drawn by [hashPassword]. *)
Definition postRegister (rnd : list byte) (sqlnow : string)
    (body : option InsertUser.t) (db : DB) : (Response * option Z) * DB :=
  match body with
  | None => ((Json 400 (Message "Validation error"), None), db)
  | Some userData =>
      if negb (JS.truthy (InsertUser.password userData))
      then ((Json 400 (Message "Password is required"), None), db)
      else
        match
          (if JS.truthy (InsertUser.email userData) &&
              negb (String.eqb (trim (InsertUser.email userData)) "")
           then getUserByEmail trim toLowerCase (InsertUser.email userData) db
           else (Ok None, db))
        with
        | (Throw _, db1) => ((Json 500 (Message "Registration failed"), None), db1)
        | (Ok (Some _), db1) => ((Json 400 (Message "Email already in use"), None), db1)
        | (Ok None, db1) =>
            match hashPassword scrypt rnd (InsertUser.password userData) with
            | Throw _ => ((Json 500 (Message "Registration failed"), None), db1)
            | Ok hashedPassword =>
                match createUser trim sqlnow
                        {| InsertUser.name := InsertUser.name userData;
                           InsertUser.email := InsertUser.email userData;
                           InsertUser.password := hashedPassword;
                           InsertUser.is_verified := Some 1%Z |} db1 with
                | (Throw _, db2) =>
                    ((Json 500 (Message "Registration failed"), None), db2)
                | (Ok user, db2) =>
                    ((Json 201 (SafeUserJson user), Some (User.id user)), db2)
                end
            end
        end
  end.

End Auth.

(** ** Routes ([routes.ts], [routes-admin.ts]) *)

Section Routes.

Local Open Scope string_scope.
Local Open Scope Z_scope.

(** The [isAdmin] middleware: [None] is [next()]. *)
Definition isAdmin_middleware (req_user : option User.t) (db : DB)
    : option Response * DB :=
  match req_user with
  | None => (Some (Json 401 (Message "Authentication required")), db)
  | Some ru =>
      match getUser (User.id ru) db with
      | (Throw _, db') => (Some (Json 500 (Message "Server error")), db')
      | (Ok user, db') =>
          match user with
          | Some u =>
              if User.isAdmin u then (None, db')
              else (Some (Json 403 (Message "Admin privileges required")), db')
          | None => (Some (Json 403 (Message "Admin privileges required")), db')
          end
      end
  end.

(** [PATCH /api/admin/users/:userId/role]. [userId] is
    [Number(req.params.userId)] for a numeric path segment, [body] the result
    of [updateUserRoleSchema.safeParse(req.body)] ([None] when it fails). *)
Definition patchUserRole (req_user : option User.t) (userId : Z)
    (body : option UpdateUserRole) (db : DB) : Response * DB :=
  match isAdmin_middleware req_user db with
  | (Some denied, db') => (denied, db')
  | (None, db') =>
      match req_user with
      | None => (Json 500 (Message "Failed to update user role"), db')
      | Some ru =>
          let adminId := User.id ru in
          match body with
          | None => (Json 400 InvalidData, db')
          | Some data =>
              if userId =? adminId
              then (Json 400 (Message "Cannot modify your own role"), db')
              else
                match updateUserRole userId adminId data db' with
                | (Ok updatedUser, db'') => (Json 200 (UserJson updatedUser), db'')
                | (Throw _, db'') =>
                    (Json 500 (Message "Failed to update user role"), db'')
                end
          end
      end
  end.

(** [PATCH /api/admin/users/:userId/ban]. *)
Definition patchUserBan (now : string) (req_user : option User.t) (userId : Z)
    (body : option BanUser) (db : DB) : Response * DB :=
  match isAdmin_middleware req_user db with
  | (Some denied, db') => (denied, db')
  | (None, db') =>
      match req_user with
      | None => (Json 500 (Message "Failed to update user ban status"), db')
      | Some ru =>
          let adminId := User.id ru in
          match body with
          | None => (Json 400 InvalidData, db')
          | Some data =>
              if userId =? adminId
              then (Json 400 (Message "Cannot ban yourself"), db')
              else
                match banUser now userId adminId data db' with
                | (Ok updatedUser, db'') => (Json 200 (UserJson updatedUser), db'')
                | (Throw _, db'') =>
                    (Json 500 (Message "Failed to update user ban status"), db'')
                end
          end
      end
  end.

(** [GET /api/verify/:token]. *)
Definition getVerify (token : string) (db : DB) : Response * DB :=
  match verifyUserByToken token db with
  | (Throw _, db') => (Json 500 (Message "Failed to verify email"), db')
  | (Ok None, db') =>
      (Json 400 (Message "Invalid or expired verification token"), db')
  | (Ok (Some _), db') => (Json 200 (Message "Email verified successfully"), db')
  end.

(** [PATCH /api/images/:id/status]. [imageId] is [parseInt(req.params.id)]
    ([None] for NaN), [body] the parsed [updateImageStatusSchema] ([None]
    when [parse] throws). The notification mail to the owner is sent inside
    its own [try]/[catch] and does not touch the database. *)
Definition patchImageStatus (now : string) (req_user : option User.t)
    (imageId : option Z) (body : option (Decision * option string)) (db : DB)
    : Response * DB :=
  match req_user with
  | None => (Json 403 (Message "Forbidden"), db)
  | Some ru =>
      if negb (User.isModerator ru) then (Json 403 (Message "Forbidden"), db)
      else
        match imageId with
        | None => (Json 400 (Message "Invalid image ID"), db)
        | Some imageId =>
            match body with
            | None => (Json 400 (Message "Failed to update image status"), db)
            | Some (status, rejectionReason) =>
                match getImageById imageId db with
                | (Throw _, db') =>
                    (Json 400 (Message "Failed to update image status"), db')
                | (Ok None, db') => (Json 404 (Message "Image not found"), db')
                | (Ok (Some _), db') =>
                    match updateImageStatus now imageId status (User.id ru)
                            rejectionReason db' with
                    | (Ok updatedImage, db'') =>
                        (Json 200 (ImageJson updatedImage), db'')
                    | (Throw _, db'') =>
                        (Json 400 (Message "Failed to update image status"), db'')
                    end
                end
            end
        end
  end.

End Routes.

(** ** The rest of [DatabaseStorage] *)

(** [ORDER BY key DESC] as an insertion sort; rows with equal keys stay in
    table order. *)
Fixpoint insert_desc {R} (key : R -> option string) (r : R) (sorted : list R)
    : list R :=
  match sorted with
  | [] => [r]
  | s :: rest =>
      if SQL.text_le (key s) (key r) then r :: sorted
      else s :: insert_desc key r rest
  end.

Definition order_by_desc {R} (key : R -> option string) (rows : list R) : list R :=
  fold_right (insert_desc key) [] rows.

(** [FROM images i JOIN users u ON i.user_id = u.id WHERE i.status = ?]. *)
Definition images_join_users (status : ImageStatus) (db : DB)
    : list (ImageRow.t * UserRow.t) :=
  flat_map
    (fun i =>
       map (fun u => (i, u))
           (filter (fun u => (UserRow.id u =? ImageRow.user_id i)%Z) (users db)))
    (filter (fun i => ImageStatus_eqb (ImageRow.status i) status) (images db)).

(** [Image & { user: Pick<User, 'id' | 'name'> }]. *)
Record ImageWithUser : Type := mkImageWithUser {
  iu_image : Image.t;
  iu_user_id : Z;
  iu_user_name : string
}.

(** [Image & { user: Pick<User, 'id' | 'name' | 'email'> }]. *)
Record ImageWithContact : Type := mkImageWithContact {
  ic_image : Image.t;
  ic_user_id : Z;
  ic_user_name : string;
  ic_user_email : string
}.

(** [{ pending, approvedToday, rejectedToday }]. *)
Record ModerationStats : Type := mkModerationStats {
  stats_pending : nat;
  approvedToday : nat;
  rejectedToday : nat
}.

(** The fields of [createImage]'s argument. *)
Module InsertImage.
Record t : Type := mk {
  title : string;
  description : option string;
  filename : string;
  userId : Z
}.
End InsertImage.

(** [InsertAlbum & { userId }]. *)
Module InsertAlbum.
Record t : Type := mk {
  title : string;
  description : option string;
  isPublic : option bool;
  userId : Z
}.
End InsertAlbum.

(** [UpdateAlbum]. *)
Module UpdateAlbum.
Record t : Type := mk {
  title : option string;
  description : option string;
  coverImageId : option Z;
  isPublic : option bool
}.
End UpdateAlbum.

(** The argument of [updateUserProfile]. *)
Module ProfileData.
Record t : Type := mk {
  bio : option string;
  profilePicture : option string;
  website : option string;
  socialLinks : option string;
  themePreference : option string
}.
End ProfileData.

Definition or_else {A} (new : option A) (old : A) : A :=
  match new with
  | Some x => x
  | None => old
  end.

Definition or_keep {A} (new old : option A) : option A :=
  match new with
  | Some x => Some x
  | None => old
  end.

(** The SET clause [updateUserProfile] assembles: one assignment per defined
    field. *)
Definition set_profile (data : ProfileData.t) (r : UserRow.t) : UserRow.t :=
  {| UserRow.id := UserRow.id r; UserRow.name := UserRow.name r;
     UserRow.email := UserRow.email r; UserRow.password := UserRow.password r;
     UserRow.is_verified := UserRow.is_verified r;
     UserRow.verification_token := UserRow.verification_token r;
     UserRow.is_moderator := UserRow.is_moderator r;
     UserRow.is_admin := UserRow.is_admin r;
     UserRow.is_banned := UserRow.is_banned r;
     UserRow.ban_reason := UserRow.ban_reason r;
     UserRow.banned_by := UserRow.banned_by r;
     UserRow.banned_at := UserRow.banned_at r;
     UserRow.bio := or_keep (ProfileData.bio data) (UserRow.bio r);
     UserRow.profile_picture :=
       or_keep (ProfileData.profilePicture data) (UserRow.profile_picture r);
     UserRow.website := or_keep (ProfileData.website data) (UserRow.website r);
     UserRow.social_links :=
       or_keep (ProfileData.socialLinks data) (UserRow.social_links r);
     UserRow.theme_preference :=
       or_keep (ProfileData.themePreference data) (UserRow.theme_preference r);
     UserRow.created_at := UserRow.created_at r |}.

(** The SET clause [updateAlbum] assembles, followed by [updated_at = ?]. *)
Definition set_album (data : UpdateAlbum.t) (updatedAt : string) (r : AlbumRow.t)
    : AlbumRow.t :=
  {| AlbumRow.id := AlbumRow.id r;
     AlbumRow.title := or_else (UpdateAlbum.title data) (AlbumRow.title r);
     AlbumRow.description :=
       or_keep (UpdateAlbum.description data) (AlbumRow.description r);
     AlbumRow.cover_image_id :=
       or_keep (UpdateAlbum.coverImageId data) (AlbumRow.cover_image_id r);
     AlbumRow.user_id := AlbumRow.user_id r;
     AlbumRow.is_public :=
       match UpdateAlbum.isPublic data with
       | Some b => flag b
       | None => AlbumRow.is_public r
       end;
     AlbumRow.created_at := AlbumRow.created_at r;
     AlbumRow.updated_at := Some updatedAt |}.

(** [updates.length > 0] in [updateAlbum]. *)
Definition album_update_nonempty (data : UpdateAlbum.t) : bool :=
  match UpdateAlbum.title data, UpdateAlbum.description data,
        UpdateAlbum.coverImageId data, UpdateAlbum.isPublic data with
  | None, None, None, None => false
  | _, _, _, _ => true
  end.

(** [updates.length > 0] in [updateUserProfile]. *)
Definition profile_update_nonempty (data : ProfileData.t) : bool :=
  match ProfileData.bio data, ProfileData.profilePicture data,
        ProfileData.website data, ProfileData.socialLinks data,
        ProfileData.themePreference data with
  | None, None, None, None, None => false
  | _, _, _, _, _ => true
  end.

Section StorageRest.

Local Open Scope storage_scope.
Local Open Scope string_scope.
Local Open Scope Z_scope.

Definition getModerators : M (list User.t) :=
  await moderators <- query (fun db =>
    filter (fun r => UserRow.is_moderator r =? 1) (users db));
  ret (map transformUser moderators).

(** [SET is_moderator = 1] is [set_roles] with the moderator flag alone. *)
Definition makeModerator (userId : Z) : M unit :=
  exec (with_users
    (update_where (fun r => UserRow.id r =? userId) (set_roles (Some true) None))).

Definition updateUserProfile (userId : Z) (data : ProfileData.t) : M User.t :=
  await user <- getUser userId;
  match user with
  | None => throw "User not found"
  | Some _ =>
      run (if profile_update_nonempty data
           then exec (with_users
                  (update_where (fun r => UserRow.id r =? userId) (set_profile data)))
           else ret tt);
      await updatedUser <- getUser userId;
      match updatedUser with
      | None => throw "Failed to retrieve updated user"
      | Some u => ret u
      end
  end.

(** [createImage]. [key] is the rowid SQLite allocates for the INSERT
    ([result.lastInsertRowid]) and [sqlnow] the value of CURRENT_TIMESTAMP;
    the foreign key on [user_id] is enforced. *)
Definition createImage (key : Z) (sqlnow : string) (imageData : InsertImage.t)
    : M Image.t :=
  await owner <- query (user_by_id (InsertImage.userId imageData));
  match owner with
  | None => throw "FOREIGN KEY constraint failed"
  | Some _ =>
      run exec (with_images (fun rows =>
        rows ++
        [ {| ImageRow.id := key;
             ImageRow.title := InsertImage.title imageData;
             ImageRow.description := JS.or_null (InsertImage.description imageData);
             ImageRow.filename := InsertImage.filename imageData;
             ImageRow.status := pending;
             ImageRow.user_id := InsertImage.userId imageData;
             ImageRow.reviewed_by := None;
             ImageRow.rejection_reason := None;
             ImageRow.is_public := 1;
             ImageRow.created_at := Some sqlnow;
             ImageRow.updated_at := Some sqlnow |} ])%list);
      await image <- query (image_by_id key);
      match image with
      | None => throw "TypeError: Cannot read properties of undefined"
      | Some row => ret (transformImage row)
      end
  end.

Definition getApprovedImages : M (list ImageWithUser) :=
  await results <- query (fun db =>
    order_by_desc (fun iu => ImageRow.created_at (fst iu))
      (images_join_users approved db));
  ret (map (fun iu =>
              {| iu_image := transformImage (fst iu);
                 iu_user_id := UserRow.id (snd iu);
                 iu_user_name := UserRow.name (snd iu) |}) results).

Definition getPendingImages : M (list ImageWithContact) :=
  await results <- query (fun db =>
    order_by_desc (fun iu => ImageRow.created_at (fst iu))
      (images_join_users pending db));
  ret (map (fun iu =>
              {| ic_image := transformImage (fst iu);
                 ic_user_id := UserRow.id (snd iu);
                 ic_user_name := UserRow.name (snd iu);
                 ic_user_email := UserRow.email (snd iu) |}) results).

(** [getModerationStats]. [todayISO] is the ISO form of local midnight;
    [updated_at >= ?] is false on NULL. *)
Definition getModerationStats (todayISO : string) : M ModerationStats :=
  await pendingCount <- query (fun db =>
    List.length (filter (fun r => ImageStatus_eqb (ImageRow.status r) pending)
                        (images db)));
  await approvedCount <- query (fun db =>
    List.length (filter (fun r => ImageStatus_eqb (ImageRow.status r) approved &&
                                  SQL.text_le (Some todayISO) (ImageRow.updated_at r))
                        (images db)));
  await rejectedCount <- query (fun db =>
    List.length (filter (fun r => ImageStatus_eqb (ImageRow.status r) rejected &&
                                  SQL.text_le (Some todayISO) (ImageRow.updated_at r))
                        (images db)));
  ret {| stats_pending := pendingCount;
         approvedToday := approvedCount;
         rejectedToday := rejectedCount |}.

(** [createAlbum]. [key] is the rowid SQLite allocates for the INSERT; the
    foreign key on [user_id] is enforced. *)
Definition createAlbum (key : Z) (now : string) (albumData : InsertAlbum.t)
    : M Album.t :=
  let currentDate := now in
  await owner <- query (user_by_id (InsertAlbum.userId albumData));
  match owner with
  | None => throw "FOREIGN KEY constraint failed"
  | Some _ =>
      run exec (with_albums (fun rows =>
        rows ++
        [ {| AlbumRow.id := key;
             AlbumRow.title := InsertAlbum.title albumData;
             AlbumRow.description := JS.or_null (InsertAlbum.description albumData);
             AlbumRow.cover_image_id := None;
             AlbumRow.user_id := InsertAlbum.userId albumData;
             AlbumRow.is_public :=
               match InsertAlbum.isPublic albumData with
               | Some false => 0
               | _ => 1
               end;
             AlbumRow.created_at := Some currentDate;
             AlbumRow.updated_at := Some currentDate |} ])%list);
      await album <- query (album_by_id key);
      match album with
      | None => throw "TypeError: Cannot read properties of undefined"
      | Some row => ret (transformAlbum row)
      end
  end.

(** The [images] member of [getAlbumById]'s result:
    [FROM album_images ai JOIN images i ON ai.image_id = i.id
     JOIN users u ON i.user_id = u.id
     WHERE ai.album_id = ? AND i.status = 'approved' ORDER BY ai.added_at DESC]. *)
Definition getAlbumImages (id : Z) : M (list ImageWithUser) :=
  await results <- query (fun db =>
    order_by_desc (fun aiu => AlbumImageRow.added_at (fst (fst aiu)))
      (flat_map
         (fun ai =>
            flat_map
              (fun i =>
                 map (fun u => (ai, i, u))
                     (filter (fun u => UserRow.id u =? ImageRow.user_id i) (users db)))
              (filter (fun i => (ImageRow.id i =? AlbumImageRow.image_id ai) &&
                                ImageStatus_eqb (ImageRow.status i) approved)
                      (images db)))
         (filter (in_album id) (album_images db))));
  ret (map (fun aiu =>
              {| iu_image := transformImage (snd (fst aiu));
                 iu_user_id := UserRow.id (snd aiu);
                 iu_user_name := UserRow.name (snd aiu) |}) results).

(** [updateAlbum]; the foreign key on [cover_image_id] is enforced. *)
Definition updateAlbum (now : string) (albumId userId : Z) (data : UpdateAlbum.t)
    : M Album.t :=
  await album <- getAlbumById albumId;
  match album with
  | None => throw "Album not found"
  | Some album =>
      if negb (Album.userId album =? userId)
      then throw "You do not have permission to update this album"
      else
        run (if album_update_nonempty data then
               let currentDate := now in
               await referenced <- query (fun db =>
                 match UpdateAlbum.coverImageId data with
                 | Some c =>
                     match image_by_id c db with
                     | Some _ => true
                     | None => false
                     end
                 | None => true
                 end);
               if referenced
               then exec (with_albums
                      (update_where (fun r => AlbumRow.id r =? albumId)
                         (set_album data currentDate)))
               else throw "FOREIGN KEY constraint failed"
             else ret tt);
        await updatedAlbum <- query (album_by_id albumId);
        match updatedAlbum with
        | None => throw "Failed to retrieve updated album"
        | Some row => ret (transformAlbum row)
        end
  end.

(** [deleteAlbum]; [ON DELETE CASCADE] removes the membership rows of the
    album. *)
Definition deleteAlbum (albumId userId : Z) : M unit :=
  await album <- getAlbumById albumId;
  match album with
  | None => throw "Album not found"
  | Some album =>
      if negb (Album.userId album =? userId)
      then throw "You do not have permission to delete this album"
      else
        run exec (with_albums (filter (fun r => negb (AlbumRow.id r =? albumId))));
        exec (with_album_images (filter (fun r => negb (in_album albumId r))))
  end.

End StorageRest.

(** ** Invariants of the [users] table *)

(** Every stored address is free of surrounding white space. *)
Definition emails_trimmed (db : DB) : Prop :=
  Forall (fun r => JS.ascii_trim (UserRow.email r) = UserRow.email r) (users db).

(** No two rows hold addresses that differ in letter case only. *)
Definition emails_unique (db : DB) : Prop :=
  NoDup (map (fun r => SQL.LOWER (UserRow.email r)) (users db)).

(** ** Further invariants and projections *)

(** Primary keys are unique. *)
Definition user_ids_unique (db : DB) : Prop :=
  NoDup (map UserRow.id (users db)).

Definition image_ids_unique (db : DB) : Prop :=
  NoDup (map ImageRow.id (images db)).

(** An (album, image) pair has at most one membership row. *)
Definition memberships_unique (db : DB) : Prop :=
  NoDup (map (fun r => (AlbumImageRow.album_id r, AlbumImageRow.image_id r))
             (album_images db)).

(** The identity, credential, role and ban columns of an account. *)
Definition account_security (r : UserRow.t)
    : Z * string * string * Z * option string * Z * Z * Z
      * option string * option Z * option string :=
  (UserRow.id r, UserRow.email r, UserRow.password r, UserRow.is_verified r,
   UserRow.verification_token r, UserRow.is_moderator r, UserRow.is_admin r,
   UserRow.is_banned r, UserRow.ban_reason r, UserRow.banned_by r,
   UserRow.banned_at r).

(** ** Fixtures: concrete platform functions and database states *)

Module Fixtures.

Local Open Scope string_scope.
Local Open Scope Z_scope.

(** A stand-in key derivation function: [keylen] copies of a byte computed
    from the lengths of its inputs. *)
Definition toy_scrypt (password salt : string) (keylen : nat) : Result (list byte) :=
  let n := N.of_nat (String.length password + String.length salt) in
  match Byte.of_N (n mod 256) with
  | Some b => Ok (repeat b keylen)
  | None => Throw "unreachable"
  end.

(** A key derivation function that always fails. *)
Definition failing_scrypt (password salt : string) (keylen : nat) : Result (list byte) :=
  Throw "Invalid scrypt parameter".

(** On seven-bit strings [toLowerCase] folds exactly the letters A-Z, as
    [LOWER] does, and [trim] removes exactly the ASCII white space. *)
Definition ascii_toLowerCase : string -> string := SQL.LOWER.

Definition salt16 : list byte :=
  [x00; x01; x02; x03; x04; x05; x06; x07; x08; x09; x0a; x0b; x0c; x0d; x0e; xff].

Definition sunset : ImageRow.t :=
  {| ImageRow.id := 1; ImageRow.title := "Sunset";
     ImageRow.description := None; ImageRow.filename := "a1b2.jpg";
     ImageRow.status := approved; ImageRow.user_id := 2;
     ImageRow.reviewed_by := Some 3; ImageRow.rejection_reason := None;
     ImageRow.is_public := 1;
     ImageRow.created_at := Some "2024-05-01 08:00:00";
     ImageRow.updated_at := Some "2024-05-01T09:00:00.000Z" |}.

Definition harbour : ImageRow.t :=
  {| ImageRow.id := 2; ImageRow.title := "Harbour";
     ImageRow.description := Some "at dawn"; ImageRow.filename := "c3d4.jpg";
     ImageRow.status := pending; ImageRow.user_id := 2;
     ImageRow.reviewed_by := None; ImageRow.rejection_reason := None;
     ImageRow.is_public := 1;
     ImageRow.created_at := Some "2024-05-01 08:30:00";
     ImageRow.updated_at := Some "2024-05-01 08:30:00" |}.

Definition forest : ImageRow.t :=
  {| ImageRow.id := 3; ImageRow.title := "Forest";
     ImageRow.description := None; ImageRow.filename := "e5f6.jpg";
     ImageRow.status := approved; ImageRow.user_id := 2;
     ImageRow.reviewed_by := Some 3; ImageRow.rejection_reason := None;
     ImageRow.is_public := 1;
     ImageRow.created_at := Some "2024-05-01 08:40:00";
     ImageRow.updated_at := Some "2024-05-01T09:05:00.000Z" |}.

Definition dunes : ImageRow.t :=
  {| ImageRow.id := 4; ImageRow.title := "Dunes";
     ImageRow.description := None; ImageRow.filename := "0708.jpg";
     ImageRow.status := rejected; ImageRow.user_id := 2;
     ImageRow.reviewed_by := Some 3; ImageRow.rejection_reason := Some "out of focus";
     ImageRow.is_public := 1;
     ImageRow.created_at := Some "2024-05-01 08:50:00";
     ImageRow.updated_at := Some "2024-05-01T09:10:00.000Z" |}.

(** The stored form [hashPassword] yields for a password under
    [toy_scrypt] and [salt16]. *)
Definition stored_form (password : string) : string :=
  match hashPassword toy_scrypt salt16 password with
  | Ok stored => stored
  | Throw _ => ""
  end.

Definition account (id : Z) (name email password : string)
    (token : option string) (is_moderator is_admin is_banned : Z)
    (ban_reason : option string) : UserRow.t :=
  {| UserRow.id := id; UserRow.name := name; UserRow.email := email;
     UserRow.password := stored_form password;
     UserRow.is_verified := match token with None => 1 | Some _ => 0 end;
     UserRow.verification_token := token;
     UserRow.is_moderator := is_moderator; UserRow.is_admin := is_admin;
     UserRow.is_banned := is_banned; UserRow.ban_reason := ban_reason;
     UserRow.banned_by := if (is_banned =? 0)%Z then None else Some 1;
     UserRow.banned_at :=
       if (is_banned =? 0)%Z then None else Some "2024-04-30T18:00:00.000Z";
     UserRow.bio := None; UserRow.profile_picture := None;
     UserRow.website := None; UserRow.social_links := None;
     UserRow.theme_preference := Some "default";
     UserRow.created_at := Some "2024-04-01 00:00:00" |}.

Definition admin : UserRow.t :=
  account 1 "Admin" "admin@example.com" "password123" None 1 1 0 None.

Definition bob : UserRow.t :=
  account 2 "Bob" "Foo@Bar.com" "tr0ub4dor" (Some "c0ffee") 0 0 0 None.

Definition carol : UserRow.t :=
  account 3 "Carol" "carol@example.com" "s3cret!" None 1 0 0 None.

Definition mallory : UserRow.t :=
  account 4 "Mallory" "mallory@example.com" "letmein" None 0 0 1 (Some "spam").

Definition trent : UserRow.t :=
  account 5 "Trent" "trent@example.com" "hunter22" None 0 0 1 None.

Definition holidays : AlbumRow.t :=
  {| AlbumRow.id := 1; AlbumRow.title := "Holidays";
     AlbumRow.description := None; AlbumRow.cover_image_id := Some 1;
     AlbumRow.user_id := 2; AlbumRow.is_public := 1;
     AlbumRow.created_at := Some "2024-05-01T09:30:00.000Z";
     AlbumRow.updated_at := Some "2024-05-01T10:00:00.000Z" |}.

Definition sketches : AlbumRow.t :=
  {| AlbumRow.id := 2; AlbumRow.title := "Sketches";
     AlbumRow.description := None; AlbumRow.cover_image_id := Some 1;
     AlbumRow.user_id := 2; AlbumRow.is_public := 0;
     AlbumRow.created_at := Some "2024-05-01T09:40:00.000Z";
     AlbumRow.updated_at := Some "2024-05-01T10:30:00.000Z" |}.

Definition memberships : list AlbumImageRow.t :=
  [ {| AlbumImageRow.id := 1; AlbumImageRow.album_id := 1;
       AlbumImageRow.image_id := 1;
       AlbumImageRow.added_at := Some "2024-05-01T10:00:00.000Z" |};
    {| AlbumImageRow.id := 2; AlbumImageRow.album_id := 1;
       AlbumImageRow.image_id := 3;
       AlbumImageRow.added_at := Some "2024-05-01T11:00:00.000Z" |};
    {| AlbumImageRow.id := 3; AlbumImageRow.album_id := 2;
       AlbumImageRow.image_id := 1;
       AlbumImageRow.added_at := Some "2024-05-01T10:30:00.000Z" |} ].

Definition gallery : DB :=
  {| users := [admin; bob; carol; mallory; trent];
     images := [sunset; harbour; forest; dunes];
     albums := [holidays; sketches];
     album_images := memberships;
     users_seq := 5;
     album_images_seq := 3 |}.

Definition dave : InsertUser.t :=
  {| InsertUser.name := "Dave"; InsertUser.email := " Dave@Example.com ";
     InsertUser.password := "p4ssw0rd"; InsertUser.is_verified := None |}.

Definition robert : InsertUser.t :=
  {| InsertUser.name := "Robert"; InsertUser.email := " FOO@bar.com";
     InsertUser.password := "tr0ub4dor"; InsertUser.is_verified := None |}.

(** [String.prototype.toLowerCase] on UTF-8 text whose code points are below
    U+0100: besides A-Z it moves the capitals U+00C0..U+00DE (all but the
    multiplication sign U+00D7), which UTF-8 writes as the byte 0xC3 followed
    by a byte in 0x80..0x9E, to the letters 0x20 higher. *)
Definition is_latin1_capital (lead continuation : ascii) : bool :=
  let n := N_of_ascii continuation in
  ((N_of_ascii lead =? 195) && (128 <=? n) && (n <=? 158) && negb (n =? 151))%N.

Fixpoint latin1_toLowerCase (s : string) : string :=
  match s with
  | EmptyString => EmptyString
  | String c rest =>
      match rest with
      | String d rest' =>
          if is_latin1_capital c d
          then String c (String (ascii_of_N (N_of_ascii d + 32))
                           (latin1_toLowerCase rest'))
          else String (SQL.lower_char c) (latin1_toLowerCase rest)
      | EmptyString => String (SQL.lower_char c) EmptyString
      end
  end.

(** U+00CB, the capital E with diaeresis, and U+00EB, the small one, in
    UTF-8. *)
Definition capital_e_diaeresis : string := String "195"%char (String "139"%char "").

Definition small_e_diaeresis : string := String "195"%char (String "171"%char "").

(** A registration whose address has a capital letter outside A-Z. *)
Definition zoe_address : string := "ZO" ++ capital_e_diaeresis ++ "@example.com".

Definition zoe : InsertUser.t :=
  {| InsertUser.name := "Zoe"; InsertUser.email := zoe_address;
     InsertUser.password := "umlaut-2024"; InsertUser.is_verified := None |}.

Definition new_bio : ProfileData.t :=
  {| ProfileData.bio := Some "hello"; ProfileData.profilePicture := None;
     ProfileData.website := None; ProfileData.socialLinks := None;
     ProfileData.themePreference := Some "dark" |}.

Definition retitle : UpdateAlbum.t :=
  {| UpdateAlbum.title := Some "Summer"; UpdateAlbum.description := None;
     UpdateAlbum.coverImageId := Some 3; UpdateAlbum.isPublic := Some false |}.

Definition dangling_cover : UpdateAlbum.t :=
  {| UpdateAlbum.title := None; UpdateAlbum.description := None;
     UpdateAlbum.coverImageId := Some 99; UpdateAlbum.isPublic := None |}.

Definition trips : InsertAlbum.t :=
  {| InsertAlbum.title := "Trips"; InsertAlbum.description := Some "";
     InsertAlbum.isPublic := None; InsertAlbum.userId := 2 |}.

Definition lighthouse : InsertImage.t :=
  {| InsertImage.title := "Lighthouse"; InsertImage.description := None;
     InsertImage.filename := "1715-aa.jpg"; InsertImage.userId := 2 |}.

(** The stored form of the administrator's password with the hex digits of
    the hash in upper case. *)
Definition shouted_form : string :=
  String.concat "" (repeat "2B" 64) ++ "." ++ Buffer.toHex salt16.

End Fixtures.

(* ================================================================== *)
(** * Part II: properties                                              *)
(* ================================================================== *)

(** ** Strings and the hex codec *)

Lemma split_without_separator (c : ascii) (s : string) :
  JS.includes c s = false -> JS.split c s = [s].
Proof.
  induction s as [|d rest IH]; cbn [JS.includes JS.split]; intros H.
  - reflexivity.
  - apply orb_false_iff in H as [Hd Hrest].
    rewrite Hd, (IH Hrest). reflexivity.
Qed.

Lemma split_at_first_separator (c : ascii) (a b : string) :
  JS.includes c a = false ->
  JS.split c (a ++ String c b) = a :: JS.split c b.
Proof.
  induction a as [|d rest IH]; cbn [JS.includes JS.split String.append]; intros H.
  - now rewrite Ascii.eqb_refl.
  - apply orb_false_iff in H as [Hd Hrest].
    rewrite Hd, (IH Hrest). reflexivity.
Qed.

Lemma includes_separator (c : ascii) (a b : string) :
  JS.includes c (a ++ String c b) = true.
Proof.
  induction a as [|d rest IH]; cbn [JS.includes String.append].
  - now rewrite Ascii.eqb_refl.
  - rewrite IH. apply orb_true_r.
Qed.

Lemma truthy_append (a b : string) :
  JS.truthy b = true -> JS.truthy (a ++ b) = true.
Proof. destruct a; cbn; auto. Qed.

Lemma hex_byte_roundtrip (b : byte) :
  let n := Byte.to_N b in
  Buffer.hex_value (Buffer.hex_digit (n / 16)) = Some (n / 16)%N /\
  Buffer.hex_value (Buffer.hex_digit (n mod 16)) = Some (n mod 16)%N /\
  Byte.of_N (16 * (n / 16) + n mod 16) = Some b.
Proof. destruct b; vm_compute; auto. Qed.

Lemma hex_byte_no_dot (b : byte) :
  let n := Byte.to_N b in
  Ascii.eqb (Buffer.hex_digit (n / 16)) "." = false /\
  Ascii.eqb (Buffer.hex_digit (n mod 16)) "." = false.
Proof. destruct b; vm_compute; auto. Qed.

(** Decoding undoes encoding. *)
Lemma fromHex_toHex (buf : list byte) :
  Buffer.fromHex (Buffer.toHex buf) = buf.
Proof.
  induction buf as [|b rest IH]; [reflexivity|].
  cbn [Buffer.toHex Buffer.fromHex].
  destruct (hex_byte_roundtrip b) as (Hh & Hl & Hb).
  cbv zeta in Hh, Hl, Hb.
  rewrite Hh, Hl, Hb, IH. reflexivity.
Qed.

Lemma toHex_no_dot (buf : list byte) :
  JS.includes "." (Buffer.toHex buf) = false.
Proof.
  induction buf as [|b rest IH]; [reflexivity|].
  cbn [Buffer.toHex JS.includes].
  destruct (hex_byte_no_dot b) as (Hh & Hl). cbv zeta in Hh, Hl.
  rewrite Hh, Hl, IH. reflexivity.
Qed.

Lemma toHex_truthy (buf : list byte) :
  buf <> [] -> JS.truthy (Buffer.toHex buf) = true.
Proof. destruct buf; [congruence | reflexivity]. Qed.

Lemma bytes_eqb_refl (a : list byte) : Buffer.bytes_eqb a a = true.
Proof.
  induction a as [|x a IH]; [reflexivity|].
  cbn [Buffer.bytes_eqb]. rewrite IH, andb_true_r.
  destruct x; reflexivity.
Qed.

Lemma timingSafeEqual_same (a : list byte) :
  Buffer.timingSafeEqual a a = Ok true.
Proof.
  unfold Buffer.timingSafeEqual. now rewrite Nat.eqb_refl, bytes_eqb_refl.
Qed.

Lemma nonempty_of_length {A} (l : list A) (n : nat) :
  List.length l = S n -> l <> [].
Proof. destruct l; discriminate. Qed.

(** ** The password hasher *)

Section PasswordHasherFacts.

Variable scrypt : string -> string -> nat -> Result (list byte).

(** Node's scrypt with its default cost parameters succeeds on every pair of
    strings and returns exactly [keylen] bytes. *)
Hypothesis scrypt_64 :
  forall password salt, exists key,
    scrypt password salt 64 = Ok key /\ List.length key = 64%nat.

(** C2. Verifying a password against the stored form that [hashPassword]
    produced for it, whatever 16 random bytes were drawn for the salt,
    succeeds and returns [true]. *)
Theorem comparePasswords_hashPassword (p : string) (rnd : list byte) :
  List.length rnd = 16%nat ->
  exists stored,
    hashPassword scrypt rnd p = Ok stored /\
    comparePasswords scrypt p stored = Ok true.
Proof.
  intros Hrnd.
  destruct (scrypt_64 p (Buffer.toHex rnd)) as (key & Hkey & Hlen).
  exists (Buffer.toHex key ++ "." ++ Buffer.toHex rnd)%string. split.
  - unfold hashPassword. cbv zeta. rewrite Hkey. reflexivity.
  - unfold comparePasswords, comparePasswords_try.
    assert (Hsalt : JS.truthy (Buffer.toHex rnd) = true)
      by (apply toHex_truthy, (nonempty_of_length Hrnd)).
    assert (Hhash : JS.truthy (Buffer.toHex key) = true)
      by (apply toHex_truthy, (nonempty_of_length Hlen)).
    change ("." ++ Buffer.toHex rnd)%string with (String "." (Buffer.toHex rnd)).
    rewrite truthy_append by reflexivity.
    rewrite includes_separator.
    rewrite split_at_first_separator by apply toHex_no_dot.
    rewrite split_without_separator by apply toHex_no_dot.
    cbn [negb orb nth_error]. rewrite Hhash, Hsalt. cbn [negb orb].
    rewrite Hkey. cbn [rbind]. rewrite fromHex_toHex, timingSafeEqual_same.
    reflexivity.
Qed.

End PasswordHasherFacts.

Lemma comparePasswords_hashPassword_witness :
  List.length Fixtures.salt16 = 16%nat /\
  exists stored,
    hashPassword Fixtures.toy_scrypt Fixtures.salt16 "correct horse" = Ok stored /\
    comparePasswords Fixtures.toy_scrypt "correct horse" stored = Ok true.
Proof.
  split; [reflexivity|].
  apply (@comparePasswords_hashPassword Fixtures.toy_scrypt).
  - intros password salt. unfold Fixtures.toy_scrypt.
    destruct (Byte.of_N _) as [b|] eqn:E.
    + exists (repeat b 64). split; [reflexivity | apply repeat_length].
    + exfalso. apply Byte.of_N_None_iff in E.
      pose proof (N.mod_upper_bound
        (N.of_nat (String.length password + String.length salt)) 256). lia.
  - reflexivity.
Defined.

Section ComparePasswordsFacts.

Variable scrypt : string -> string -> nat -> Result (list byte).

Local Open Scope string_scope.

(** A hash component that does not decode to as many bytes as the derived
    key (malformed or truncated hex) makes [timingSafeEqual] throw inside the
    [try] block. *)
Lemma malformed_hex_throws (supplied storedHash salt : string) (key : list byte) :
  JS.includes "." storedHash = false ->
  JS.includes "." salt = false ->
  JS.truthy storedHash = true ->
  JS.truthy salt = true ->
  scrypt supplied salt 64 = Ok key ->
  List.length (Buffer.fromHex storedHash) <> List.length key ->
  exists e, comparePasswords_try scrypt supplied (storedHash ++ "." ++ salt) = Throw e.
Proof.
  intros Hh Hs Th Ts Hkey Hlen.
  unfold comparePasswords_try.
  change ("." ++ salt) with (String "." salt).
  rewrite truthy_append by reflexivity.
  rewrite includes_separator.
  rewrite split_at_first_separator by exact Hh.
  rewrite split_without_separator by exact Hs.
  cbn [negb orb nth_error]. rewrite Th, Ts. cbn [negb orb].
  rewrite Hkey. cbn [rbind]. unfold Buffer.timingSafeEqual.
  destruct (Nat.eqb _ _) eqn:E.
  - apply Nat.eqb_eq in E. congruence.
  - eexists. reflexivity.
Qed.

(** C3. [comparePasswords] never throws: it always returns a boolean. For a
    malformed stored form -- the empty string, a string without the ['.']
    separator, an empty hash or salt component, or any input on which the
    [try] block raises an error -- that boolean is [false]. *)
Theorem comparePasswords_fails_closed (supplied stored : string) :
  (exists b, comparePasswords scrypt supplied stored = Ok b) /\
  (stored = ""
   \/ JS.includes "." stored = false
   \/ nth_error (JS.split "." stored) 0 = Some ""
   \/ nth_error (JS.split "." stored) 1 = Some ""
   \/ (exists e, comparePasswords_try scrypt supplied stored = Throw e) ->
   comparePasswords scrypt supplied stored = Ok false).
Proof.
  split.
  - unfold comparePasswords.
    destruct (comparePasswords_try scrypt supplied stored) as [b|e];
      cbn [try_catch]; eexists; reflexivity.
  - unfold comparePasswords.
    intros [H | [H | [H | [H | [e H]]]]].
    + subst stored. reflexivity.
    + unfold comparePasswords_try. rewrite H.
      now rewrite orb_true_r.
    + unfold comparePasswords_try.
      destruct (negb (JS.truthy stored) || negb (JS.includes "." stored));
        [reflexivity|].
      rewrite H. destruct (nth_error (JS.split "." stored) 1); reflexivity.
    + unfold comparePasswords_try.
      destruct (negb (JS.truthy stored) || negb (JS.includes "." stored));
        [reflexivity|].
      rewrite H. destruct (nth_error (JS.split "." stored) 0) as [h|];
        [|reflexivity].
      now rewrite orb_true_r.
    + rewrite H. reflexivity.
Qed.

End ComparePasswordsFacts.

Lemma comparePasswords_fails_closed_witness :
  comparePasswords Fixtures.toy_scrypt "secret" "" = Ok false /\
  comparePasswords Fixtures.toy_scrypt "secret" "0a0b0c" = Ok false /\
  comparePasswords Fixtures.toy_scrypt "secret" ".0a0b" = Ok false /\
  comparePasswords Fixtures.toy_scrypt "secret" "0a0b." = Ok false /\
  comparePasswords Fixtures.toy_scrypt "secret" "zz.0a0b" = Ok false /\
  comparePasswords Fixtures.failing_scrypt "secret" "0a0b.0c0d" = Ok false.
Proof.
  refine (conj _ (conj _ (conj _ (conj _ (conj _ _))))).
  - apply (proj2 (comparePasswords_fails_closed Fixtures.toy_scrypt "secret" "")).
    left. reflexivity.
  - apply (proj2 (comparePasswords_fails_closed Fixtures.toy_scrypt "secret" "0a0b0c")).
    right; left. reflexivity.
  - apply (proj2 (comparePasswords_fails_closed Fixtures.toy_scrypt "secret" ".0a0b")).
    right; right; left. reflexivity.
  - apply (proj2 (comparePasswords_fails_closed Fixtures.toy_scrypt "secret" "0a0b.")).
    right; right; right; left. reflexivity.
  - apply (proj2 (comparePasswords_fails_closed Fixtures.toy_scrypt "secret" "zz.0a0b")).
    right; right; right; right. eexists. vm_compute. reflexivity.
  - apply (proj2 (comparePasswords_fails_closed Fixtures.failing_scrypt "secret" "0a0b.0c0d")).
    right; right; right; right. eexists. vm_compute. reflexivity.
Defined.

(** ** Rows, SELECT and UPDATE *)

(** After [UPDATE ... WHERE p], the first row that satisfies [p] is the
    updated first row that satisfied it before, provided the SET clause keeps
    the columns [p] reads. *)
Lemma find_update_where {R} (p : R -> bool) (f : R -> R) (rows : list R) :
  (forall r, p (f r) = p r) ->
  find p (update_where p f rows) = option_map f (find p rows).
Proof.
  intros Hp. induction rows as [|r rest IH]; [reflexivity|].
  cbn [update_where map find]. fold (update_where p f rest).
  destruct (p r) eqn:E.
  - now rewrite Hp, E.
  - now rewrite E.
Qed.

(** Rows outside the [WHERE] clause stay in the table. *)
Lemma update_where_frame {R} (p : R -> bool) (f : R -> R) (rows : list R) (r : R) :
  In r rows -> p r = false -> In r (update_where p f rows).
Proof.
  intros Hin Hp. unfold update_where. apply in_map_iff.
  exists r. now rewrite Hp.
Qed.

(** An [UPDATE] whose [WHERE] clause selects no row changes nothing. *)
Lemma update_where_none {R} (p : R -> bool) (f : R -> R) (rows : list R) :
  find p rows = None -> update_where p f rows = rows.
Proof.
  intros Hnone. induction rows as [|r rest IH]; [reflexivity|].
  cbn [find] in Hnone. cbn [update_where map]. fold (update_where p f rest).
  destruct (p r); [discriminate|]. now rewrite IH.
Qed.

Lemma find_first_unique {R} (p : R -> bool) (rows : list R) (r : R) :
  In r rows -> p r = true ->
  (forall r', In r' rows -> p r' = true -> r' = r) ->
  find p rows = Some r.
Proof.
  intros Hin Hp Huniq.
  destruct (find p rows) as [r'|] eqn:E.
  - apply find_some in E as [Hin' Hp']. now rewrite (Huniq r' Hin' Hp').
  - now rewrite (find_none _ _ E r Hin) in Hp.
Qed.

(** ** Moderation decisions *)

Section ModerationFacts.

Local Open Scope string_scope.
Local Open Scope Z_scope.

(** What [updateImageStatus] does in the name of an existing moderator,
    whether it returns or throws: the unconditional UPDATE. *)
Lemma updateImageStatus_store (now : string) (imageId : Z) (d : Decision)
    (moderatorId : Z) (reason : option string) (db : DB) :
  user_by_id moderatorId db <> None ->
  snd (updateImageStatus now imageId d moderatorId reason db)
  = with_images
      (update_where (fun r => (ImageRow.id r =? imageId)%Z)
         (set_status (status_of_decision d) moderatorId (JS.or_null reason) now))
      db.
Proof.
  intros Hmoderator. unfold updateImageStatus, bind, exec, query.
  destruct (user_by_id moderatorId db); [|contradiction].
  destruct (image_by_id imageId db); cbv beta iota;
    match goal with
    | |- context [image_by_id imageId ?d] => destruct (image_by_id imageId d)
    end; reflexivity.
Qed.

(** C1 (as the code behaves). [updateImageStatus] has no guard on the
    current status: for every image in the store -- pending, approved or
    rejected alike -- a call in the name of an existing user succeeds, never
    raising a NotPending condition, and overwrites status, reviewed_by,
    rejection_reason and updated_at of the row with the new decision. It
    throws in two cases, neither of which looks at the status: when the
    moderator id names no user the UPDATE of an existing image fails on the
    foreign key of [reviewed_by] and the store is unchanged, and when no
    image has the given id nothing is written and the image is reported
    missing. *)
Theorem updateImageStatus_overwrites (now : string) (imageId : Z) (d : Decision)
    (moderatorId : Z) (reason : option string) (db : DB) :
  (forall row,
     image_by_id imageId db = Some row ->
     user_by_id moderatorId db <> None ->
     let row' :=
       set_status (status_of_decision d) moderatorId (JS.or_null reason) now row in
     exists db',
       updateImageStatus now imageId d moderatorId reason db
       = (Ok (transformImage row'), db') /\
       image_by_id imageId db' = Some row' /\
       ImageRow.status row' = status_of_decision d /\
       ImageRow.reviewed_by row' = Some moderatorId /\
       ImageRow.rejection_reason row' = JS.or_null reason /\
       ImageRow.updated_at row' = Some now) /\
  (forall row,
     image_by_id imageId db = Some row ->
     user_by_id moderatorId db = None ->
     updateImageStatus now imageId d moderatorId reason db
     = (Throw "FOREIGN KEY constraint failed", db)) /\
  (image_by_id imageId db = None ->
     exists db',
       updateImageStatus now imageId d moderatorId reason db
       = (Throw "Image not found after update", db') /\
       images db' = images db).
Proof.
  split; [|split].
  - intros row Hrow Hmoderator row'.
    eexists. split; [|split; [|repeat split]].
    + unfold updateImageStatus, bind, exec, query. rewrite Hrow.
      destruct (user_by_id moderatorId db); [|contradiction]. cbv beta iota.
      unfold image_by_id at 1, with_images. cbn [images].
      rewrite find_update_where by reflexivity.
      unfold image_by_id in Hrow. rewrite Hrow. reflexivity.
    + unfold image_by_id, with_images. cbn [images].
      rewrite find_update_where by reflexivity.
      unfold image_by_id in Hrow. now rewrite Hrow.
  - intros row Hrow Hnone.
    unfold updateImageStatus, bind, exec, query, throw.
    now rewrite Hrow, Hnone.
  - intros Hnone.
    eexists. split.
    + unfold updateImageStatus, bind, exec, query. rewrite Hnone. cbv beta iota.
      unfold image_by_id at 1, with_images. cbn [images].
      rewrite find_update_where by reflexivity.
      unfold image_by_id in Hnone. rewrite Hnone. reflexivity.
    + unfold with_images. cbn [images].
      now apply update_where_none.
Qed.

End ModerationFacts.

Lemma updateImageStatus_overwrites_witness :
  exists db',
    updateImageStatus "2024-05-02T10:00:00.000Z" 2 approve 3 None Fixtures.gallery
    = (Ok (transformImage
             (set_status approved 3 None "2024-05-02T10:00:00.000Z" Fixtures.harbour)),
       db').
Proof.
  destruct (proj1 (@updateImageStatus_overwrites "2024-05-02T10:00:00.000Z" 2
                     approve 3 None Fixtures.gallery) Fixtures.harbour eq_refl)
    as (db' & H & _).
  - intros H. vm_compute in H. discriminate H.
  - exists db'. exact H.
Defined.

(** C1 (as stated) fails: the image [sunset] is already approved, yet a
    second decision on it returns normally and replaces its status,
    moderator, rejection reason and modification time. *)
Lemma updateImageStatus_redecide_counterexample :
  image_by_id 1 Fixtures.gallery = Some Fixtures.sunset /\
  ImageRow.status Fixtures.sunset = approved /\
  exists img db',
    updateImageStatus "2024-05-02T10:00:00.000Z" 1 reject 4 (Some "blurry"%string)
      Fixtures.gallery = (Ok img, db') /\
    Image.status img = rejected /\
    Image.reviewedBy img = Some 4%Z /\
    Image.rejectionReason img = Some "blurry"%string /\
    Image.updatedAt img = Some "2024-05-02T10:00:00.000Z"%string /\
    option_map transformImage (image_by_id 1 db') = Some img /\
    image_by_id 1 db' <> image_by_id 1 Fixtures.gallery.
Proof.
  split; [reflexivity|]. split; [reflexivity|].
  eexists. eexists. split; [reflexivity|].
  repeat split. discriminate.
Qed.

(** ** Image visibility *)

Lemma Boolean_flag (b : bool) : JS.Boolean (flag b) = b.
Proof. now destruct b. Qed.

(** C10. [updateImageVisibility] is owner-gated and frame-preserving. When
    the caller is not the owner it throws and the store is left as it was.
    When the caller is the owner it returns the stored image with [isPublic]
    set to the argument and [updatedAt] to the current time, and with id,
    title, description, filename, status, userId, reviewedBy,
    rejectionReason and createdAt as before; the other image rows and the
    other tables are untouched. *)
Theorem updateImageVisibility_owner_gated (now : string) (imageId userId : Z)
    (isPublic : bool) (db : DB) (row : ImageRow.t) :
  image_by_id imageId db = Some row ->
  let img := transformImage row in
  (ImageRow.user_id row <> userId ->
     updateImageVisibility now imageId userId isPublic db
     = (Throw "You do not have permission to update this image"%string, db)) /\
  (ImageRow.user_id row = userId ->
     exists img' db',
       updateImageVisibility now imageId userId isPublic db = (Ok img', db') /\
       option_map transformImage (image_by_id imageId db') = Some img' /\
       Image.isPublic img' = isPublic /\
       Image.updatedAt img' = Some now /\
       Image.id img' = Image.id img /\
       Image.title img' = Image.title img /\
       Image.description img' = Image.description img /\
       Image.filename img' = Image.filename img /\
       Image.status img' = Image.status img /\
       Image.userId img' = Image.userId img /\
       Image.reviewedBy img' = Image.reviewedBy img /\
       Image.rejectionReason img' = Image.rejectionReason img /\
       Image.createdAt img' = Image.createdAt img /\
       (forall other, In other (images db) -> ImageRow.id other <> imageId ->
          In other (images db')) /\
       users db' = users db /\
       albums db' = albums db /\
       album_images db' = album_images db).
Proof.
  intros Hrow img. split.
  - intros Hne.
    unfold updateImageVisibility, getImageById, bind, query, ret.
    rewrite Hrow. cbn [option_map transformImage Image.userId].
    apply Z.eqb_neq in Hne. rewrite Hne. reflexivity.
  - intros Heq.
    assert (Hfind : image_by_id imageId
              (with_images
                 (update_where (fun r => (ImageRow.id r =? imageId)%Z)
                    (set_visibility (flag isPublic) now)) db)
            = Some (set_visibility (flag isPublic) now row)).
    { unfold image_by_id, with_images. cbn [images].
      rewrite find_update_where by reflexivity.
      unfold image_by_id in Hrow. now rewrite Hrow. }
    exists (transformImage (set_visibility (flag isPublic) now row)).
    eexists. split; [|split].
    + unfold updateImageVisibility, getImageById, bind, query, ret, exec.
      rewrite Hrow. cbn [option_map transformImage Image.userId].
      rewrite Heq, Z.eqb_refl. cbn [negb].
      rewrite Hfind. reflexivity.
    + rewrite Hfind. reflexivity.
    + cbn. rewrite Boolean_flag. repeat split.
      intros other Hin Hne. apply update_where_frame; [exact Hin|].
      now apply Z.eqb_neq.
Qed.

Lemma updateImageVisibility_owner_gated_witness :
  updateImageVisibility "2024-05-03T12:00:00.000Z" 2 5 false Fixtures.gallery
  = (Throw "You do not have permission to update this image"%string, Fixtures.gallery) /\
  exists img' db',
    updateImageVisibility "2024-05-03T12:00:00.000Z" 2 2 false Fixtures.gallery
    = (Ok img', db') /\
    Image.isPublic img' = false /\
    Image.status img' = pending.
Proof.
  destruct (@updateImageVisibility_owner_gated "2024-05-03T12:00:00.000Z" 2 5 false
              Fixtures.gallery Fixtures.harbour eq_refl) as [Hdenied _].
  destruct (@updateImageVisibility_owner_gated "2024-05-03T12:00:00.000Z" 2 2 false
              Fixtures.gallery Fixtures.harbour eq_refl) as [_ Hallowed].
  split.
  - apply Hdenied. discriminate.
  - destruct (Hallowed eq_refl) as (img' & db' & H & _ & Hp & _ & _ & _ & _ & _ & Hs & _).
    exists img', db'. repeat split; assumption.
Defined.

(** ** Albums *)

Lemma ImageStatus_eqb_eq (a b : ImageStatus) :
  ImageStatus_eqb a b = true <-> a = b.
Proof. destruct a, b; cbn; split; congruence. Qed.

(** What [addImageToAlbum] does once the album and the image are known. *)
Lemma addImageToAlbum_inv (now : string) (albumId userId imageId : Z)
    (db db' : DB) (r : Result unit) :
  addImageToAlbum now albumId userId imageId db = (r, db') ->
  album_images db' = album_images db \/
  exists row, image_by_id imageId db = Some row /\ ImageRow.status row = approved.
Proof.
  unfold addImageToAlbum, getAlbumById, getImageById, bind, query, ret, throw, exec.
  destruct (album_by_id albumId db) as [a|]; cbn [option_map];
    [|intros [= _ <-]; now left].
  destruct (negb _); [intros [= _ <-]; now left|].
  destruct (image_by_id imageId db) as [row|]; cbn [option_map];
    [|intros [= _ <-]; now left].
  destruct (negb _) eqn:E; [intros [= _ <-]; now left|].
  intros _. right. exists row. split; [reflexivity|].
  apply negb_false_iff, ImageStatus_eqb_eq in E. exact E.
Qed.

(** C6. For every album and every image whose status is pending or rejected,
    [addImageToAlbum] throws and leaves the store -- in particular the
    membership table -- as it was. Conversely, whenever a call changes the
    membership table, the image it named is approved. *)
Theorem addImageToAlbum_only_approved (now : string) (albumId userId imageId : Z)
    (db : DB) :
  (forall row,
     image_by_id imageId db = Some row ->
     ImageRow.status row = pending \/ ImageRow.status row = rejected ->
     exists e, addImageToAlbum now albumId userId imageId db = (Throw e, db)) /\
  (forall r db',
     addImageToAlbum now albumId userId imageId db = (r, db') ->
     album_images db' <> album_images db ->
     exists row, image_by_id imageId db = Some row /\ ImageRow.status row = approved).
Proof.
  split.
  - intros row Hrow Hstatus.
    unfold addImageToAlbum, getAlbumById, getImageById, bind, query, ret, throw.
    destruct (album_by_id albumId db) as [a|]; cbn [option_map];
      [|eexists; reflexivity].
    destruct (negb _); [eexists; reflexivity|].
    rewrite Hrow. cbn [option_map transformImage Image.status].
    destruct Hstatus as [-> | ->]; cbn; eexists; reflexivity.
  - intros r db' Hrun Hchanged.
    destruct (addImageToAlbum_inv _ _ _ _ _ Hrun) as [Hsame | Hok];
      [contradiction | exact Hok].
Qed.

Lemma addImageToAlbum_only_approved_witness :
  (exists e,
     addImageToAlbum "2024-05-04T08:00:00.000Z" 1 2 2 Fixtures.gallery
     = (Throw e, Fixtures.gallery)) /\
  (exists e,
     addImageToAlbum "2024-05-04T08:00:00.000Z" 1 2 4 Fixtures.gallery
     = (Throw e, Fixtures.gallery)) /\
  (exists row,
     image_by_id 3 Fixtures.gallery = Some row /\ ImageRow.status row = approved).
Proof.
  refine (conj _ (conj _ _)).
  - apply (proj1 (addImageToAlbum_only_approved "2024-05-04T08:00:00.000Z" 1 2 2
                    Fixtures.gallery) Fixtures.harbour eq_refl).
    left. reflexivity.
  - apply (proj1 (addImageToAlbum_only_approved "2024-05-04T08:00:00.000Z" 1 2 4
                    Fixtures.gallery) Fixtures.dunes eq_refl).
    right. reflexivity.
  - apply (proj2 (addImageToAlbum_only_approved "2024-05-04T08:00:00.000Z" 2 2 3
                    Fixtures.gallery) _ _ eq_refl).
    cbn. discriminate.
Defined.

(** *** The order on [added_at] *)

Lemma string_compare_not_gt_trans (a b c : string) :
  String.compare a b <> Gt -> String.compare b c <> Gt -> String.compare a c <> Gt.
Proof.
  revert b c.
  induction a as [|x a IH]; intros [|y b] [|z c]; cbn [String.compare];
    try congruence.
  unfold Ascii.compare.
  destruct (N.compare_spec (N_of_ascii x) (N_of_ascii y));
  destruct (N.compare_spec (N_of_ascii y) (N_of_ascii z));
  destruct (N.compare_spec (N_of_ascii x) (N_of_ascii z));
    try congruence; try lia; try apply IH.
Qed.

Lemma string_leb_trans (a b c : string) :
  String.leb a b = true -> String.leb b c = true -> String.leb a c = true.
Proof.
  unfold String.leb. intros H1 H2.
  pose proof (@string_compare_not_gt_trans a b c) as T.
  destruct (String.compare a b), (String.compare b c), (String.compare a c);
    try discriminate; try reflexivity; exfalso; apply T; congruence.
Qed.

Lemma text_le_refl (a : option string) : SQL.text_le a a = true.
Proof.
  destruct a as [s|]; [|reflexivity]. cbn.
  destruct (String.leb_total s s); assumption.
Qed.

Lemma text_le_total (a b : option string) :
  SQL.text_le a b = true \/ SQL.text_le b a = true.
Proof.
  destruct a as [x|], b as [y|]; cbn; auto using String.leb_total.
Qed.

Lemma text_le_trans (a b c : option string) :
  SQL.text_le a b = true -> SQL.text_le b c = true -> SQL.text_le a c = true.
Proof.
  destruct a as [x|], b as [y|], c as [z|]; cbn; try congruence.
  apply string_leb_trans.
Qed.

(** [ORDER BY added_at DESC LIMIT 1] returns nothing exactly on the empty
    selection, and otherwise a selected row that no selected row is newer
    than. *)
Lemma latest_added_spec (rows : list AlbumImageRow.t) :
  match latest_added rows with
  | None => rows = []
  | Some m =>
      In m rows /\
      forall m', In m' rows ->
        SQL.text_le (AlbumImageRow.added_at m') (AlbumImageRow.added_at m) = true
  end.
Proof.
  induction rows as [|r rest IH]; [reflexivity|].
  cbn [latest_added].
  destruct (latest_added rest) as [best|].
  - destruct IH as [Hin Hmax].
    destruct (SQL.text_le (AlbumImageRow.added_at best) (AlbumImageRow.added_at r)) eqn:E.
    + split; [now left|].
      intros m' [<- | Hm']; [apply text_le_refl|].
      eapply text_le_trans; [apply Hmax, Hm' | exact E].
    + split; [now right|].
      intros m' [<- | Hm']; [|apply Hmax, Hm'].
      destruct (text_le_total (AlbumImageRow.added_at r) (AlbumImageRow.added_at best));
        congruence.
  - subst rest. split; [now left|].
    intros m' [<- | []]. apply text_le_refl.
Qed.

(** C5. When the owner removes from an album the image that is its current
    cover, the call succeeds, deletes the membership rows of that image, and
    sets the cover reference: to null when no membership row of the album
    remains, and otherwise to the image of a remaining row whose [added_at]
    no remaining row exceeds -- the most recently added remaining member,
    which is never the image just removed. *)
Theorem removeImageFromAlbum_reassigns_cover (now : string)
    (albumId userId imageId : Z) (db : DB) (a : AlbumRow.t) :
  album_by_id albumId db = Some a ->
  AlbumRow.user_id a = userId ->
  Album.coverImageId (transformAlbum a) = Some imageId ->
  let kept := filter (fun r => negb (is_membership albumId imageId r)) (album_images db) in
  let remaining := filter (in_album albumId) kept in
  exists db' a',
    removeImageFromAlbum now albumId userId imageId db = (Ok tt, db') /\
    album_images db' = kept /\
    album_by_id albumId db' = Some a' /\
    (remaining = [] -> AlbumRow.cover_image_id a' = None) /\
    (remaining <> [] ->
       exists m,
         In m remaining /\
         AlbumRow.cover_image_id a' = Some (AlbumImageRow.image_id m) /\
         AlbumImageRow.image_id m <> imageId /\
         forall m', In m' remaining ->
           SQL.text_le (AlbumImageRow.added_at m') (AlbumImageRow.added_at m) = true).
Proof.
  intros Halbum Howner Hcover kept remaining.
  pose (first := latest_added remaining).
  exists (with_albums
            (update_where (fun r => (AlbumRow.id r =? albumId)%Z)
               (set_cover (option_map AlbumImageRow.image_id first) now))
            (with_album_images
               (filter (fun r => negb (is_membership albumId imageId r))) db)).
  exists (set_cover (option_map AlbumImageRow.image_id first) now a).
  split; [|split; [|split]].
  - unfold removeImageFromAlbum, getAlbumById, bind, query, ret, exec.
    rewrite Halbum. cbn [option_map].
    change (Album.userId (transformAlbum a)) with (AlbumRow.user_id a).
    rewrite Howner, Z.eqb_refl. cbn [negb].
    rewrite Hcover, Z.eqb_refl. reflexivity.
  - reflexivity.
  - unfold album_by_id, with_albums, with_album_images. cbn [albums].
    rewrite find_update_where by reflexivity.
    unfold album_by_id in Halbum. now rewrite Halbum.
  - pose proof (latest_added_spec remaining) as Hspec. fold first in Hspec.
    cbn [set_cover AlbumRow.cover_image_id]. split.
    + intros Hempty. unfold first. rewrite Hempty. reflexivity.
    + intros Hnonempty. destruct first as [m|]; [|contradiction].
      destruct Hspec as [Hin Hmax]. exists m.
      split; [exact Hin|]. split; [reflexivity|]. split; [|exact Hmax].
      unfold remaining, kept in Hin.
      apply filter_In in Hin as [Hin Halb].
      apply filter_In in Hin as [_ Hnot].
      unfold in_album in Halb. unfold is_membership in Hnot.
      rewrite Halb in Hnot. cbn [andb] in Hnot.
      apply negb_true_iff, Z.eqb_neq in Hnot. exact Hnot.
Qed.

Lemma removeImageFromAlbum_reassigns_cover_witness :
  exists db' a',
    removeImageFromAlbum "2024-05-05T08:00:00.000Z" 1 2 1 Fixtures.gallery = (Ok tt, db') /\
    album_by_id 1 db' = Some a' /\
    AlbumRow.cover_image_id a' = Some 3%Z.
Proof.
  destruct (@removeImageFromAlbum_reassigns_cover "2024-05-05T08:00:00.000Z" 1 2 1
              Fixtures.gallery Fixtures.holidays eq_refl eq_refl eq_refl)
    as (db' & a' & Hrun & _ & Ha & _ & Hsome).
  exists db', a'. split; [exact Hrun|]. split; [exact Ha|].
  destruct Hsome as (m & Hin & Hc & _ & _); [cbn; discriminate|].
  cbn in Hin. destruct Hin as [<- | []]. exact Hc.
Defined.

Lemma removeImageFromAlbum_clears_cover_example :
  exists db' a',
    removeImageFromAlbum "2024-05-05T08:00:00.000Z" 2 2 1 Fixtures.gallery = (Ok tt, db') /\
    album_by_id 2 db' = Some a' /\
    AlbumRow.cover_image_id a' = None.
Proof.
  eexists. eexists. split; [vm_compute; reflexivity|]. split; reflexivity.
Qed.

(** ** Verification tokens *)

Lemma in_update_where {R} (p : R -> bool) (f : R -> R) (rows : list R) (r' : R) :
  In r' (update_where p f rows) ->
  exists r, In r rows /\ r' = if p r then f r else r.
Proof.
  unfold update_where. intros H. apply in_map_iff in H as (r & <- & Hin).
  now exists r.
Qed.

Lemma text_eq_true (col : option string) (v : string) :
  SQL.text_eq col v = true <-> col = Some v.
Proof.
  destruct col as [s|]; cbn.
  - rewrite String.eqb_eq. split; congruence.
  - split; discriminate.
Qed.

(** C8. Verification tokens are single-use. If some account holds the token,
    and the token belongs to one account only (tokens are 32 random bytes),
    then consuming it succeeds, returns that account with the verified flag
    set and the token cleared, and leaves no row holding the token; a second
    consumption finds no user, changes nothing, and the route answers with
    the invalid-token response. *)
Theorem verifyUserByToken_single_use (token : string) (db : DB) (holder : UserRow.t) :
  In holder (users db) ->
  UserRow.verification_token holder = Some token ->
  (forall r, In r (users db) ->
     UserRow.verification_token r = Some token ->
     UserRow.id r = UserRow.id holder) ->
  exists u db',
    verifyUserByToken token db = (Ok (Some u), db') /\
    User.id u = UserRow.id holder /\
    User.isVerified u = true /\
    User.verificationToken u = None /\
    (forall r, In r (users db') -> UserRow.verification_token r <> Some token) /\
    verifyUserByToken token db' = (Ok None, db') /\
    getVerify token db'
    = (Json 400 (Message "Invalid or expired verification token"), db').
Proof.
  intros Hin Htoken Hunique.
  set (has_token := fun r => SQL.text_eq (UserRow.verification_token r) token).
  destruct (find has_token (users db)) as [user|] eqn:Efind.
  2:{ pose proof (find_none _ _ Efind holder Hin) as Hno.
      unfold has_token in Hno. rewrite Htoken in Hno. cbn in Hno.
      now rewrite String.eqb_refl in Hno. }
  apply find_some in Efind as Hfound. destruct Hfound as [Huser Hhas].
  apply text_eq_true in Hhas.
  pose proof (Hunique user Huser Hhas) as Hid.
  set (by_id := fun r => (UserRow.id r =? UserRow.id user)%Z).
  destruct (find by_id (users db)) as [first|] eqn:Efirst.
  2:{ pose proof (find_none _ _ Efirst user Huser) as Hno.
      unfold by_id in Hno. now rewrite Z.eqb_refl in Hno. }
  apply find_some in Efirst as Hfirst. destruct Hfirst as [_ Hfirst_id].
  apply Z.eqb_eq in Hfirst_id.
  set (db' := with_users (update_where by_id set_verified) db).
  assert (Hcleared : forall r, In r (users db') ->
            UserRow.verification_token r <> Some token).
  { intros r Hr. unfold db', with_users in Hr. cbn [users] in Hr.
    apply in_update_where in Hr as (r0 & Hr0 & ->).
    destruct (by_id r0) eqn:E; [discriminate|].
    intros Hr0_token. unfold by_id in E. apply Z.eqb_neq in E.
    apply E. rewrite (Hunique r0 Hr0 Hr0_token). now symmetry. }
  assert (Hsecond : find has_token (users db') = None).
  { destruct (find has_token (users db')) as [r|] eqn:E; [|reflexivity].
    apply find_some in E as [Hr Hr_token].
    apply text_eq_true in Hr_token. now apply Hcleared in Hr. }
  exists (transformUser (set_verified first)), db'.
  split; [|split; [|split; [|split; [|split; [|split]]]]].
  - unfold verifyUserByToken, bind, query, exec, ret.
    fold has_token. rewrite Efind. fold by_id. fold db'.
    unfold user_by_id. fold by_id.
    unfold db', with_users. cbn [users].
    rewrite find_update_where by reflexivity.
    rewrite Efirst. reflexivity.
  - cbn. congruence.
  - reflexivity.
  - reflexivity.
  - exact Hcleared.
  - unfold verifyUserByToken, bind, query, ret. fold has_token.
    rewrite Hsecond. reflexivity.
  - unfold getVerify, verifyUserByToken, bind, query, ret. fold has_token.
    rewrite Hsecond. reflexivity.
Qed.

Lemma verifyUserByToken_single_use_witness :
  exists u db',
    verifyUserByToken "c0ffee" Fixtures.gallery = (Ok (Some u), db') /\
    User.id u = 2%Z /\
    User.isVerified u = true /\
    User.verificationToken u = None /\
    verifyUserByToken "c0ffee" db' = (Ok None, db').
Proof.
  destruct (@verifyUserByToken_single_use "c0ffee" Fixtures.gallery Fixtures.bob)
    as (u & db' & H1 & H2 & H3 & H4 & _ & H5 & _).
  - cbn. auto.
  - reflexivity.
  - intros r Hr Ht. cbn in Hr.
    destruct Hr as [<- | [<- | [<- | [<- | [<- | []]]]]];
      first [reflexivity | discriminate Ht].
  - exists u, db'. repeat split; assumption.
Defined.

(** ** Administration routes *)

Section AdminRouteFacts.

Local Open Scope string_scope.
Local Open Scope Z_scope.

(** C9 (as the code behaves). A role-change or ban request whose target id
    is the actor's own id never reaches the storage layer: whoever the actor
    is, the store is returned unchanged and the answer is a denial with
    status 400 or 403. For an actor whose current record carries the admin
    flag the status is 400: "Invalid data" when the body does not parse, and
    otherwise "Cannot modify your own role", respectively "Cannot ban
    yourself". *)
Theorem self_target_denied (now : string) (actor : User.t) (db : DB)
    (roleBody : option UpdateUserRole) (banBody : option BanUser) :
  (exists body,
     patchUserRole (Some actor) (User.id actor) roleBody db = (Json 400 body, db) \/
     patchUserRole (Some actor) (User.id actor) roleBody db = (Json 403 body, db)) /\
  (exists body,
     patchUserBan now (Some actor) (User.id actor) banBody db = (Json 400 body, db) \/
     patchUserBan now (Some actor) (User.id actor) banBody db = (Json 403 body, db)) /\
  (forall row,
     user_by_id (User.id actor) db = Some row ->
     User.isAdmin (transformUser row) = true ->
     patchUserRole (Some actor) (User.id actor) roleBody db
     = (Json 400 match roleBody with
                 | None => InvalidData
                 | Some _ => Message "Cannot modify your own role"
                 end, db) /\
     patchUserBan now (Some actor) (User.id actor) banBody db
     = (Json 400 match banBody with
                 | None => InvalidData
                 | Some _ => Message "Cannot ban yourself"
                 end, db)).
Proof.
  unfold patchUserRole, patchUserBan, isAdmin_middleware, getUser, bind, query, ret.
  destruct (user_by_id (User.id actor) db) as [row|]; cbn [option_map].
  - destruct (User.isAdmin (transformUser row)) eqn:E.
    + rewrite Z.eqb_refl.
      split; [|split].
      * destruct roleBody; eexists; left; reflexivity.
      * destruct banBody; eexists; left; reflexivity.
      * intros row' [= <-] _. destruct roleBody, banBody; split; reflexivity.
    + split; [|split].
      * eexists; right; reflexivity.
      * eexists; right; reflexivity.
      * intros row' [= <-] H. congruence.
  - split; [|split].
    + eexists; right; reflexivity.
    + eexists; right; reflexivity.
    + intros row' [=].
Qed.

End AdminRouteFacts.

Lemma self_target_denied_witness :
  patchUserRole (Some (transformUser Fixtures.admin)) 1
    (Some {| isModerator := Some false; isAdmin := None |}) Fixtures.gallery
  = (Json 400 (Message "Cannot modify your own role"), Fixtures.gallery) /\
  patchUserBan "2024-05-06T08:00:00.000Z" (Some (transformUser Fixtures.admin)) 1
    None Fixtures.gallery
  = (Json 400 InvalidData, Fixtures.gallery).
Proof.
  exact (proj2 (proj2 (@self_target_denied "2024-05-06T08:00:00.000Z"
           (transformUser Fixtures.admin) Fixtures.gallery
           (Some {| isModerator := Some false; isAdmin := None |}) None))
         Fixtures.admin eq_refl eq_refl).
Defined.

(** C9 (as stated) fails: the administrator of the fixture asks to change
    their own role and to ban themself with well-formed bodies. Both requests
    are refused and the store is unchanged, but the status is 400, whereas
    the outcome the server reports as forbidden -- the one a non-administrator
    receives from the same routes -- is 403. *)
Lemma self_target_not_forbidden_counterexample :
  User.isAdmin (transformUser Fixtures.admin) = true /\
  patchUserRole (Some (transformUser Fixtures.admin)) 1
    (Some {| isModerator := Some false; isAdmin := Some false |}) Fixtures.gallery
  = (Json 400 (Message "Cannot modify your own role"), Fixtures.gallery) /\
  patchUserBan "2024-05-06T08:00:00.000Z" (Some (transformUser Fixtures.admin)) 1
    (Some {| isBanned := true; banReason := None |}) Fixtures.gallery
  = (Json 400 (Message "Cannot ban yourself"), Fixtures.gallery) /\
  patchUserRole (Some (transformUser Fixtures.bob)) 3
    (Some {| isModerator := Some false; isAdmin := Some false |}) Fixtures.gallery
  = (Json 403 (Message "Admin privileges required"), Fixtures.gallery).
Proof. repeat split. Qed.

(** ** Login *)

Section LoginFacts.

Variable scrypt : string -> string -> nat -> Result (list byte).
Variable trim : string -> string.
Variable toLowerCase : string -> string.

Local Open Scope string_scope.

Lemma getUserByEmail_reads_only (email : string) (db : DB) :
  snd (getUserByEmail trim toLowerCase email db) = db.
Proof.
  unfold getUserByEmail, bind, query, ret.
  destruct (String.eqb _ _); destruct (find _ _); reflexivity.
Qed.

End LoginFacts.

(** ** E-mail lookup *)

Lemma is_ws_lower_char (c : ascii) : JS.is_ws (SQL.lower_char c) = JS.is_ws c.
Proof. destruct c as [[] [] [] [] [] [] [] []]; reflexivity. Qed.

Lemma LOWER_trim_start (s : string) :
  SQL.LOWER (JS.trim_start s) = JS.trim_start (SQL.LOWER s).
Proof.
  induction s as [|c rest IH]; [reflexivity|].
  cbn [JS.trim_start SQL.LOWER]. rewrite is_ws_lower_char.
  destruct (JS.is_ws c); [exact IH | reflexivity].
Qed.

Lemma LOWER_trim_end (s : string) :
  SQL.LOWER (JS.trim_end s) = JS.trim_end (SQL.LOWER s).
Proof.
  induction s as [|c rest IH]; [reflexivity|].
  cbn [JS.trim_end SQL.LOWER]. rewrite <- IH, is_ws_lower_char.
  destruct (JS.trim_end rest) as [|d r]; cbn [SQL.LOWER].
  - destruct (JS.is_ws c); reflexivity.
  - reflexivity.
Qed.

Lemma LOWER_ascii_trim (s : string) :
  SQL.LOWER (JS.ascii_trim s) = JS.ascii_trim (SQL.LOWER s).
Proof. unfold JS.ascii_trim. now rewrite LOWER_trim_end, LOWER_trim_start. Qed.

Lemma is_ascii_trim_start (s : string) :
  JS.is_ascii s = true -> JS.is_ascii (JS.trim_start s) = true.
Proof.
  induction s as [|c rest IH]; [reflexivity|].
  cbn [JS.trim_start]. destruct (JS.is_ws c); [|trivial].
  cbn [JS.is_ascii]. intros H. apply andb_true_iff in H as [_ H]. now apply IH.
Qed.

Lemma is_ascii_trim_end (s : string) :
  JS.is_ascii s = true -> JS.is_ascii (JS.trim_end s) = true.
Proof.
  induction s as [|c rest IH]; [reflexivity|].
  cbn [JS.trim_end JS.is_ascii]. intros H. apply andb_true_iff in H as [Hc H].
  specialize (IH H).
  destruct (JS.trim_end rest) as [|d r].
  - destruct (JS.is_ws c); [reflexivity|]. cbn [JS.is_ascii]. now rewrite Hc.
  - cbn [JS.is_ascii] in *. now rewrite Hc, IH.
Qed.

Lemma is_ascii_ascii_trim (s : string) :
  JS.is_ascii s = true -> JS.is_ascii (JS.ascii_trim s) = true.
Proof. intros H. now apply is_ascii_trim_end, is_ascii_trim_start. Qed.

Lemma LOWER_empty (s : string) : SQL.LOWER s = EmptyString <-> s = EmptyString.
Proof. destruct s; cbn; split; congruence. Qed.

Lemma trim_end_cons (c : ascii) (s : string) :
  JS.trim_end (String c s)
  = match JS.trim_end s with
    | EmptyString => if JS.is_ws c then EmptyString else String c EmptyString
    | r => String c r
    end.
Proof. reflexivity. Qed.

(** Trimming twice is trimming once. *)
Lemma trim_end_idempotent (s : string) :
  JS.trim_end (JS.trim_end s) = JS.trim_end s.
Proof.
  induction s as [|c rest IH]; [reflexivity|].
  rewrite trim_end_cons.
  destruct (JS.trim_end rest) as [|d r] eqn:E.
  - destruct (JS.is_ws c) eqn:W; [reflexivity|].
    rewrite trim_end_cons. cbn [JS.trim_end]. now rewrite W.
  - rewrite trim_end_cons, IH. reflexivity.
Qed.

Lemma trim_start_fixed (s : string) :
  JS.trim_start (JS.trim_start s) = JS.trim_start s.
Proof.
  induction s as [|c rest IH]; [reflexivity|].
  cbn [JS.trim_start]. destruct (JS.is_ws c) eqn:W; [exact IH|].
  cbn [JS.trim_start]. now rewrite W.
Qed.

Lemma trim_start_trim_end (s : string) :
  JS.trim_start s = s -> JS.trim_start (JS.trim_end s) = JS.trim_end s.
Proof.
  destruct s as [|c rest]; [reflexivity|].
  cbn [JS.trim_start]. destruct (JS.is_ws c) eqn:W.
  - intros H. exfalso.
    assert (L : (String.length (JS.trim_start rest) <= String.length rest)%nat).
    { clear. induction rest as [|d r IH]; cbn [JS.trim_start]; [lia|].
      destruct (JS.is_ws d); cbn [String.length]; lia. }
    rewrite H in L. cbn [String.length] in L. lia.
  - intros _. rewrite trim_end_cons.
    destruct (JS.trim_end rest); rewrite ?W; cbn [JS.trim_start]; now rewrite W.
Qed.

Lemma ascii_trim_idempotent (s : string) :
  JS.ascii_trim (JS.ascii_trim s) = JS.ascii_trim s.
Proof.
  unfold JS.ascii_trim.
  rewrite (trim_start_trim_end (trim_start_fixed s)).
  apply trim_end_idempotent.
Qed.

(** Distinct members of a list without duplicate keys have distinct keys. *)
Lemma NoDup_map_member {A B} (f : A -> B) (l : list A) (a b : A) :
  NoDup (map f l) -> In a l -> In b l -> f a = f b -> a = b.
Proof.
  induction l as [|x l IH]; [contradiction|].
  cbn [map]. intros Hnd Ha Hb Hab. apply NoDup_cons_iff in Hnd as [Hx Hnd].
  destruct Ha as [<- | Ha], Hb as [<- | Hb].
  - reflexivity.
  - exfalso. apply Hx. rewrite Hab. now apply in_map.
  - exfalso. apply Hx. rewrite <- Hab. now apply in_map.
  - now apply IH.
Qed.

Lemma NoDup_map_snoc {A B} (f : A -> B) (l : list A) (x : A) :
  NoDup (map f l) -> (forall a, In a l -> f a <> f x) -> NoDup (map f (l ++ [x])).
Proof.
  intros Hnd Hfresh. rewrite map_app. apply NoDup_app.
  - exact Hnd.
  - cbn. constructor; [intros [] | constructor].
  - intros k Hk [<- | []]. apply in_map_iff in Hk as (a & Ha & Hin).
    now apply (Hfresh a Hin).
Qed.

Section EmailLookupFacts.

Variable scrypt : string -> string -> nat -> Result (list byte).
Variable trim : string -> string.
Variable toLowerCase : string -> string.

(** On seven-bit strings the JavaScript built-ins strip the ASCII white
    space and fold the letters A-Z. *)
Hypothesis trim_ascii :
  forall s, JS.is_ascii s = true -> trim s = JS.ascii_trim s.
Hypothesis toLowerCase_ascii :
  forall s, JS.is_ascii s = true -> toLowerCase s = SQL.LOWER s.

Local Open Scope string_scope.

(** The lookup key of a seven-bit address. *)
Lemma normalizedEmail_ascii (q : string) :
  JS.is_ascii q = true ->
  toLowerCase (trim q) = SQL.LOWER (JS.ascii_trim q).
Proof.
  intros Hq. rewrite (trim_ascii _ Hq).
  apply toLowerCase_ascii, is_ascii_ascii_trim, Hq.
Qed.

(** Lookup by an address that, once trimmed, differs from the stored one in
    letter case only. *)
Lemma getUserByEmail_normalizes (db : DB) (u : UserRow.t) (q : string) :
  In u (users db) ->
  JS.is_ascii q = true ->
  SQL.LOWER (JS.ascii_trim q) = SQL.LOWER (UserRow.email u) ->
  (forall v, In v (users db) ->
     SQL.LOWER (UserRow.email v) = SQL.LOWER (UserRow.email u) -> v = u) ->
  getUserByEmail trim toLowerCase q db = (Ok (Some (transformUser u)), db).
Proof.
  intros Hin Hq Hvariant Hunique.
  unfold getUserByEmail, bind, query, ret.
  rewrite (normalizedEmail_ascii _ Hq), Hvariant.
  destruct (String.eqb (SQL.LOWER (UserRow.email u)) "") eqn:E.
  - apply String.eqb_eq in E. pose proof (proj1 (LOWER_empty _) E) as Hempty.
    rewrite (@find_first_unique _ _ (users db) u); [reflexivity | exact Hin | |].
    + rewrite Hempty. reflexivity.
    + intros v Hv Hv_empty. apply String.eqb_eq in Hv_empty.
      apply Hunique; [exact Hv|]. now rewrite Hv_empty, Hempty.
  - rewrite (@find_first_unique _ _ (users db) u); [reflexivity | exact Hin | |].
    + apply String.eqb_refl.
    + intros v Hv Hv_eq. apply String.eqb_eq in Hv_eq. now apply Hunique.
Qed.

(** A lookup that finds nobody: no stored address has the letters of the
    trimmed argument. *)
Lemma getUserByEmail_not_found (db db1 : DB) (q : string) :
  JS.is_ascii q = true ->
  JS.ascii_trim q <> "" ->
  getUserByEmail trim toLowerCase q db = (Ok None, db1) ->
  db1 = db /\
  forall r, In r (users db) ->
    SQL.LOWER (UserRow.email r) <> SQL.LOWER (JS.ascii_trim q).
Proof.
  intros Hq Hne. unfold getUserByEmail, bind, query, ret.
  rewrite (normalizedEmail_ascii _ Hq).
  destruct (String.eqb (SQL.LOWER (JS.ascii_trim q)) "") eqn:E.
  - apply String.eqb_eq in E. apply (proj1 (LOWER_empty _)) in E. contradiction.
  - destruct (find _ (users db)) as [row|] eqn:F; [discriminate|].
    cbv beta. intros [= <-]. split; [reflexivity|].
    intros r Hr Heq. pose proof (find_none _ _ F r Hr) as Hno. cbn in Hno.
    rewrite Heq, String.eqb_refl in Hno. discriminate.
Qed.

(** [createUser] either leaves the table as it was or appends one row whose
    address is the trimmed argument and occurs in no earlier row. *)
Lemma createUser_appends (sqlnow : string) (userData : InsertUser.t)
    (db db' : DB) (r : Result User.t) :
  createUser trim sqlnow userData db = (r, db') ->
  users db' = users db \/
  exists row,
    users db' = (users db ++ [row])%list /\
    UserRow.email row = trim (InsertUser.email userData) /\
    forall r0, In r0 (users db) -> UserRow.email r0 <> UserRow.email row.
Proof.
  unfold createUser, bind, throw, insert_user, query, ret.
  destruct (negb _); [intros [= _ <-]; now left|].
  destruct (existsb _ (users db)) eqn:E; [intros [= _ <-]; now left|].
  match goal with
  | |- context [user_by_id ?k ?d] => destruct (user_by_id k d)
  end; intros [= _ <-]; right; eexists; (split; [reflexivity|]);
    (split; [reflexivity|]); cbn [UserRow.email]; intros r0 Hr0 Heq.
  all: assert (Hex : existsb
         (fun r1 => String.eqb (UserRow.email r1) (trim (InsertUser.email userData)))
         (users db) = true)
       by (apply existsb_exists; exists r0; split;
           [exact Hr0 | now apply String.eqb_eq]).
  all: congruence.
Qed.

(** Registration of a seven-bit address keeps the stored addresses trimmed
    and unique up to letter case. *)
Lemma postRegister_keeps_invariants (rnd : list byte) (sqlnow : string)
    (body : option InsertUser.t) (db : DB) :
  (forall userData, body = Some userData ->
     JS.is_ascii (InsertUser.email userData) = true) ->
  emails_trimmed db -> emails_unique db ->
  let db' := snd (postRegister scrypt trim toLowerCase rnd sqlnow body db) in
  emails_trimmed db' /\ emails_unique db'.
Proof.
  intros Hascii Htrimmed Hunique db'. subst db'.
  unfold postRegister.
  destruct body as [userData|]; [|now split].
  specialize (Hascii userData eq_refl).
  destruct (negb (JS.truthy (InsertUser.password userData))); [now split|].
  set (e := InsertUser.email userData) in *.
  assert (Hfresh : forall db1,
    (if JS.truthy e && negb (String.eqb (trim e) "")
     then getUserByEmail trim toLowerCase e db else (Ok None, db)) = (Ok None, db1) ->
    db1 = db /\
    forall r, In r (users db) ->
      UserRow.email r = trim e \/ SQL.LOWER (UserRow.email r) <> SQL.LOWER (trim e)).
  { intros db1. rewrite (trim_ascii _ Hascii).
    destruct (JS.truthy e && negb (String.eqb (JS.ascii_trim e) "")) eqn:C.
    - apply andb_true_iff in C as [_ C].
      apply negb_true_iff, String.eqb_neq in C.
      intros H. apply getUserByEmail_not_found in H as [-> H]; try assumption.
      split; [reflexivity|]. intros r Hr. right. now apply H.
    - intros [= <-]. split; [reflexivity|].
      assert (Hempty : JS.ascii_trim e = "").
      { apply andb_false_iff in C as [C | C].
        - destruct e; [reflexivity | discriminate].
        - now apply negb_false_iff, String.eqb_eq in C. }
      intros r Hr. rewrite Hempty.
      destruct (UserRow.email r) eqn:Er; [now left | right; discriminate]. }
  destruct (if JS.truthy e && negb (String.eqb (trim e) "")
            then getUserByEmail trim toLowerCase e db else (Ok None, db))
    as [[[found|]|err] db1] eqn:Hlookup.
  - cbn [snd].
    destruct (JS.truthy e && negb (String.eqb (trim e) "")).
    + pose proof (getUserByEmail_reads_only trim toLowerCase e db) as Hro.
      rewrite Hlookup in Hro. cbn [snd] in Hro. subst db1. now split.
    + injection Hlookup as _ <-. now split.
  - destruct (Hfresh db1 eq_refl) as [-> Hnew].
    destruct (hashPassword scrypt rnd (InsertUser.password userData)) as [hashed|];
      [|now split].
    destruct (createUser trim sqlnow _ db) as [r db2] eqn:Hcreate.
    assert (Hdb2 : emails_trimmed db2 /\ emails_unique db2).
    { apply createUser_appends in Hcreate as [Hsame | (row & Husers & Hemail & Hnodup)].
      - unfold emails_trimmed, emails_unique. rewrite Hsame. now split.
      - cbn [InsertUser.email] in Hemail. fold e in Hemail.
        unfold emails_trimmed, emails_unique. rewrite Husers. split.
        + apply Forall_app. split; [exact Htrimmed|].
          constructor; [|constructor].
          rewrite Hemail, (trim_ascii _ Hascii). apply ascii_trim_idempotent.
        + apply NoDup_map_snoc; [exact Hunique|].
          intros a Ha. rewrite Hemail.
          destruct (Hnew a Ha) as [Hsame | Hdiff]; [|exact Hdiff].
          exfalso. apply (Hnodup a Ha). now rewrite Hemail. }
    destruct r; exact Hdb2.
  - cbn [snd].
    destruct (JS.truthy e && negb (String.eqb (trim e) "")).
    + pose proof (getUserByEmail_reads_only trim toLowerCase e db) as Hro.
      rewrite Hlookup in Hro. cbn [snd] in Hro. subst db1. now split.
    + discriminate.
Qed.


(** X30. On seven-bit addresses the lookup is case-insensitive. In a store
    whose addresses are trimmed and unique up to the case of the letters
    A-Z, looking up any seven-bit string that differs from a stored user's
    address in letter case only returns that user. *)
Theorem getUserByEmail_case_insensitive (db : DB) (u : UserRow.t) (q : string) :
  emails_trimmed db ->
  emails_unique db ->
  In u (users db) ->
  JS.is_ascii q = true ->
  SQL.LOWER q = SQL.LOWER (UserRow.email u) ->
  getUserByEmail trim toLowerCase q db = (Ok (Some (transformUser u)), db).
Proof.
  intros Htrimmed Hunique Hin Hq Hvariant.
  apply getUserByEmail_normalizes; try assumption.
  - unfold emails_trimmed in Htrimmed. rewrite Forall_forall in Htrimmed.
    now rewrite LOWER_ascii_trim, Hvariant, <- LOWER_ascii_trim, (Htrimmed u Hin).
  - intros v Hv Heq.
    exact (NoDup_map_member (fun r => SQL.LOWER (UserRow.email r)) _ _ _
             Hunique Hv Hin Heq).
Qed.

End EmailLookupFacts.

Lemma gallery_emails_trimmed : emails_trimmed Fixtures.gallery.
Proof. repeat constructor. Qed.

Lemma gallery_emails_unique : emails_unique Fixtures.gallery.
Proof.
  unfold emails_unique. cbn.
  repeat (constructor; [cbn; intuition discriminate|]). constructor.
Qed.



Lemma getUserByEmail_case_insensitive_witness :
  getUserByEmail JS.ascii_trim Fixtures.ascii_toLowerCase "foo@bar.com" Fixtures.gallery
  = (Ok (Some (transformUser Fixtures.bob)), Fixtures.gallery) /\
  getUserByEmail JS.ascii_trim Fixtures.ascii_toLowerCase "FOO@BAR.com" Fixtures.gallery
  = (Ok (Some (transformUser Fixtures.bob)), Fixtures.gallery).
Proof.
  split.
  - apply (@getUserByEmail_case_insensitive JS.ascii_trim Fixtures.ascii_toLowerCase
             (fun s _ => eq_refl) (fun s _ => eq_refl)
             Fixtures.gallery Fixtures.bob "foo@bar.com"
             gallery_emails_trimmed gallery_emails_unique).
    + cbn. auto.
    + reflexivity.
    + reflexivity.
  - apply (@getUserByEmail_case_insensitive JS.ascii_trim Fixtures.ascii_toLowerCase
             (fun s _ => eq_refl) (fun s _ => eq_refl)
             Fixtures.gallery Fixtures.bob "FOO@BAR.com"
             gallery_emails_trimmed gallery_emails_unique).
    + cbn. auto.
    + reflexivity.
    + reflexivity.
Defined.

(** The Latin-1 fold agrees with [LOWER] on seven-bit strings, as every
    [toLowerCase] does. *)
Lemma latin1_toLowerCase_ascii (s : string) :
  JS.is_ascii s = true -> Fixtures.latin1_toLowerCase s = SQL.LOWER s.
Proof.
  induction s as [|c rest IH]; [reflexivity|].
  cbn [JS.is_ascii]. intros H. apply andb_true_iff in H as [Hc Hrest].
  specialize (IH Hrest). cbn [Fixtures.latin1_toLowerCase SQL.LOWER].
  destruct rest as [|d rest']; [reflexivity|].
  assert (Hlead : Fixtures.is_latin1_capital c d = false).
  { unfold Fixtures.is_latin1_capital. unfold JS.is_ascii_char in Hc.
    apply N.ltb_lt in Hc.
    replace (N_of_ascii c =? 195)%N with false; [reflexivity|].
    symmetry. apply N.eqb_neq. lia. }
  rewrite Hlead. now rewrite IH.
Qed.

(** C7 (failing input). Outside ASCII the lookup is not case-insensitive,
    and it does not even find a stored user under the spelling that was
    stored. [toLowerCase] folds every capital letter whereas [LOWER] folds
    A-Z only: for the address ZOE@example.com written with a diaeresis on
    the E (U+00CB) the lookup key has the small letter U+00EB while
    [LOWER(email)] keeps the capital. Registration of that address succeeds
    with 201 and stores it as submitted; afterwards the lookup by the
    registered spelling and the lookup by the all-lower-case spelling both
    find nobody, and a login with the registered address and password is
    refused. (The address has no white space, so [trim] leaves it as it
    is.) *)
Theorem getUserByEmail_misses_latin1_capital :
  exists u db',
    postRegister Fixtures.toy_scrypt JS.ascii_trim Fixtures.latin1_toLowerCase
      Fixtures.salt16 "2024-05-07 08:00:00" (Some Fixtures.zoe) Fixtures.gallery
    = ((Json 201 (SafeUserJson u), Some 6%Z), db') /\
    User.email u = Fixtures.zoe_address /\
    In (User.email u) (map UserRow.email (users db')) /\
    getUserByEmail JS.ascii_trim Fixtures.latin1_toLowerCase
      Fixtures.zoe_address db' = (Ok None, db') /\
    getUserByEmail JS.ascii_trim Fixtures.latin1_toLowerCase
      ("zo" ++ Fixtures.small_e_diaeresis ++ "@example.com")%string db'
    = (Ok None, db') /\
    postLogin Fixtures.toy_scrypt JS.ascii_trim Fixtures.latin1_toLowerCase
      Fixtures.zoe_address (InsertUser.password Fixtures.zoe) db'
    = ((Json 401 (Message "Incorrect email or password"), None), db').
Proof.
  eexists. eexists. split; [vm_compute; reflexivity|].
  split; [reflexivity|]. split; [cbn; auto 10|].
  split; [vm_compute; reflexivity|]. split; vm_compute; reflexivity.
Qed.

(** ** Further checks on the routes *)

(** The status route does not look at the current status either: a moderator
    re-deciding the approved image [sunset] gets the overwritten image back
    with status 200. *)
Lemma patchImageStatus_redecide_example :
  exists img db',
    patchImageStatus "2024-05-02T10:00:00.000Z" (Some (transformUser Fixtures.carol))
      (Some 1%Z) (Some (reject, Some "blurry"%string)) Fixtures.gallery
    = (Json 200 (ImageJson img), db') /\
    Image.status img = rejected /\
    Image.reviewedBy img = Some 3%Z.
Proof.
  eexists. eexists. split; [vm_compute; reflexivity|]. split; reflexivity.
Qed.

(** Issuing a token stores it on the account, replacing the previous one;
    consuming it then verifies the account. *)
Lemma generate_then_verify_example :
  exists db' u db'',
    generateVerificationToken "feedbeef" 2 Fixtures.gallery = (Ok "feedbeef"%string, db') /\
    verifyUserByToken "c0ffee" db' = (Ok None, db') /\
    verifyUserByToken "feedbeef" db' = (Ok (Some u), db'') /\
    User.id u = 2%Z /\ User.isVerified u = true.
Proof.
  eexists. eexists. eexists.
  split; [vm_compute; reflexivity|].
  split; [vm_compute; reflexivity|].
  split; [vm_compute; reflexivity|].
  split; reflexivity.
Qed.

(** A non-owner cannot change the membership of an album. *)
Lemma removeImageFromAlbum_owner_only (now : string) (albumId userId imageId : Z)
    (db : DB) (a : AlbumRow.t) :
  album_by_id albumId db = Some a ->
  AlbumRow.user_id a <> userId ->
  removeImageFromAlbum now albumId userId imageId db
  = (Throw "You do not have permission to update this album"%string, db).
Proof.
  intros Ha Hne. unfold removeImageFromAlbum, getAlbumById, bind, query, ret.
  rewrite Ha. cbn [option_map].
  change (Album.userId (transformAlbum a)) with (AlbumRow.user_id a).
  apply Z.eqb_neq in Hne. now rewrite Hne.
Qed.

(** Adding an image that is already a member is a no-op. *)
Lemma addImageToAlbum_idempotent_example :
  addImageToAlbum "2024-05-04T08:00:00.000Z" 1 2 3 Fixtures.gallery
  = (Ok tt, Fixtures.gallery).
Proof. reflexivity. Qed.

(** Registering an address that differs from a stored one in letter case
    only is refused; a new address is stored trimmed. *)
Lemma postRegister_examples :
  postRegister Fixtures.toy_scrypt JS.ascii_trim Fixtures.ascii_toLowerCase
    Fixtures.salt16 "2024-05-07 08:00:00"
    (Some {| InsertUser.name := "Robert"; InsertUser.email := " FOO@bar.com";
             InsertUser.password := "tr0ub4dor"; InsertUser.is_verified := None |})
    Fixtures.gallery
  = ((Json 400 (Message "Email already in use"), None), Fixtures.gallery) /\
  exists u db',
    postRegister Fixtures.toy_scrypt JS.ascii_trim Fixtures.ascii_toLowerCase
      Fixtures.salt16 "2024-05-07 08:00:00"
      (Some {| InsertUser.name := "Dave"; InsertUser.email := " Dave@Example.com ";
               InsertUser.password := "p4ssw0rd"; InsertUser.is_verified := None |})
      Fixtures.gallery
    = ((Json 201 (SafeUserJson u), Some 6%Z), db') /\
    User.email u = "Dave@Example.com"%string /\
    User.isVerified u = true /\
    List.length (users db') = 6%nat.
Proof.
  split; [vm_compute; reflexivity|].
  eexists. eexists. split; [vm_compute; reflexivity|].
  split; [reflexivity|]. split; reflexivity.
Qed.

(* ================================================================== *)
(** * Part III: the rest of the server                                 *)
(* ================================================================== *)

(** ** Lists of rows *)

Lemma find_map_preserving {R} (p : R -> bool) (g : R -> R) (rows : list R) :
  (forall r, p (g r) = p r) ->
  find p (map g rows) = option_map g (find p rows).
Proof.
  intros Hp. induction rows as [|r rest IH]; [reflexivity|].
  cbn [map find]. rewrite Hp. destruct (p r); [reflexivity | exact IH].
Qed.

Lemma find_update_where_other {R} (p q : R -> bool) (f : R -> R) (rows : list R) :
  (forall r, p (f r) = p r) ->
  find p (update_where q f rows)
  = option_map (fun r => if q r then f r else r) (find p rows).
Proof.
  intros Hp. unfold update_where. apply find_map_preserving.
  intros r. destruct (q r); [apply Hp | reflexivity].
Qed.

Lemma find_snoc {R} (p : R -> bool) (rows : list R) (x : R) :
  (forall r, In r rows -> p r = false) -> p x = true ->
  find p (rows ++ [x]) = Some x.
Proof.
  intros Hrows Hx. induction rows as [|r rest IH]; cbn [app find].
  - now rewrite Hx.
  - rewrite (Hrows r (or_introl eq_refl)). apply IH.
    intros r' Hr'. apply Hrows. now right.
Qed.

Lemma find_snoc_old {R} (p : R -> bool) (rows : list R) (x r : R) :
  find p rows = Some r -> find p (rows ++ [x]) = Some r.
Proof.
  induction rows as [|r0 rest IH]; cbn [app find]; [discriminate|].
  destruct (p r0); [trivial | exact IH].
Qed.

Lemma update_where_id {R} (p : R -> bool) (f : R -> R) (rows : list R) :
  (forall r, In r rows -> p r = true -> f r = r) ->
  update_where p f rows = rows.
Proof.
  intros H. induction rows as [|r rest IH]; [reflexivity|].
  cbn [update_where map]. fold (update_where p f rest).
  rewrite IH by (intros r' Hr'; apply H; now right).
  destruct (p r) eqn:E; [|reflexivity].
  now rewrite (H r (or_introl eq_refl) E).
Qed.

Lemma update_where_twice {R} (p : R -> bool) (f g : R -> R) (rows : list R) :
  (forall r, p (f r) = p r) ->
  update_where p g (update_where p f rows)
  = update_where p (fun r => g (f r)) rows.
Proof.
  intros Hp. unfold update_where. rewrite map_map. apply map_ext.
  intros r. destruct (p r) eqn:E; [now rewrite Hp, E | now rewrite E].
Qed.

(** With unique keys, the row found by key is the only row with that key. *)
Lemma unique_key_row {R} (key : R -> Z) (k : Z) (rows : list R) (row r : R) :
  NoDup (map key rows) ->
  find (fun x => (key x =? k)%Z) rows = Some row ->
  In r rows -> (key r =? k)%Z = true -> r = row.
Proof.
  intros Hnd Hfind Hin Hk.
  apply find_some in Hfind as [Hrow Hrow_k].
  apply Z.eqb_eq in Hk, Hrow_k.
  eapply NoDup_map_member; eauto. congruence.
Qed.

(** With unique keys, [UPDATE ... WHERE key = k] rewrites one row in place. *)
Lemma update_where_unique {R} (key : R -> Z) (k : Z) (f : R -> R)
    (rows : list R) (row : R) :
  NoDup (map key rows) ->
  find (fun x => (key x =? k)%Z) rows = Some row ->
  exists before after,
    rows = before ++ row :: after /\
    update_where (fun x => (key x =? k)%Z) f rows = before ++ f row :: after.
Proof.
  intros Hnd Hfind.
  pose proof (find_some _ _ Hfind) as [Hin Hk].
  destruct (in_split _ _ Hin) as (before & after & Hsplit).
  exists before, after. split; [exact Hsplit|].
  assert (Hothers : forall r, In r (before ++ after) -> (key r =? k)%Z = false).
  { intros r Hr. destruct (key r =? k)%Z eqn:E; [|reflexivity]. exfalso.
    subst rows. rewrite map_app in Hnd. cbn [map] in Hnd.
    apply NoDup_remove_2 in Hnd. apply Hnd.
    apply Z.eqb_eq in E, Hk. rewrite <- map_app.
    replace (key row) with (key r) by congruence. now apply in_map. }
  subst rows. unfold update_where. rewrite map_app. cbn [map]. rewrite Hk.
  f_equal; [|f_equal].
  - rewrite <- (map_id before) at 2. apply map_ext_in.
    intros r Hr. now rewrite (Hothers r) by (apply in_or_app; now left).
  - rewrite <- (map_id after) at 2. apply map_ext_in.
    intros r Hr. now rewrite (Hothers r) by (apply in_or_app; now right).
Qed.

Lemma filter_keeps_unique_keys {R K} (key : R -> K) (keep : R -> bool)
    (rows : list R) :
  NoDup (map key rows) -> NoDup (map key (filter keep rows)).
Proof.
  induction rows as [|r rest IH]; [trivial|].
  cbn [map filter]. intros Hnd. apply NoDup_cons_iff in Hnd as [Hfresh Hnd].
  destruct (keep r); [|now apply IH].
  cbn [map]. constructor; [|now apply IH].
  intros Hin. apply Hfresh. apply in_map_iff in Hin as (y & Hy & Hin).
  apply filter_In in Hin as [Hin _]. rewrite <- Hy. now apply in_map.
Qed.

(** *** [ORDER BY ... DESC] *)

Lemma insert_desc_In {R} (key : R -> option string) (r x : R) (sorted : list R) :
  In x (insert_desc key r sorted) <-> x = r \/ In x sorted.
Proof.
  induction sorted as [|s rest IH]; cbn [insert_desc].
  - cbn. intuition.
  - destruct (SQL.text_le (key s) (key r)); cbn [In]; [intuition|].
    rewrite IH. intuition.
Qed.

Lemma order_by_desc_In {R} (key : R -> option string) (rows : list R) (x : R) :
  In x (order_by_desc key rows) <-> In x rows.
Proof.
  induction rows as [|r rest IH]; [reflexivity|].
  cbn [order_by_desc fold_right]. fold (order_by_desc key rest).
  rewrite insert_desc_In, IH. cbn [In]. intuition.
Qed.

Lemma insert_desc_sorted {R} (key : R -> option string) (r : R) (sorted : list R) :
  StronglySorted (fun a b => SQL.text_le (key b) (key a) = true) sorted ->
  StronglySorted (fun a b => SQL.text_le (key b) (key a) = true)
                 (insert_desc key r sorted).
Proof.
  induction 1 as [|s rest Hrest IH Hs]; cbn [insert_desc].
  - repeat constructor.
  - destruct (SQL.text_le (key s) (key r)) eqn:E.
    + constructor; [constructor; assumption|].
      constructor; [exact E|].
      rewrite Forall_forall in *. intros y Hy.
      eapply text_le_trans; [apply Hs, Hy | exact E].
    + constructor; [exact IH|].
      rewrite Forall_forall in *. intros y Hy.
      apply insert_desc_In in Hy as [-> | Hy]; [|now apply Hs].
      destruct (text_le_total (key s) (key r)); congruence.
Qed.

Lemma order_by_desc_sorted {R} (key : R -> option string) (rows : list R) :
  StronglySorted (fun a b => SQL.text_le (key b) (key a) = true)
                 (order_by_desc key rows).
Proof.
  induction rows as [|r rest IH]; [constructor|].
  cbn [order_by_desc fold_right]. now apply insert_desc_sorted.
Qed.

(** ** Passwords: what verification accepts *)

Lemma bytes_eqb_eq (a b : list byte) : Buffer.bytes_eqb a b = true -> a = b.
Proof.
  revert b. induction a as [|x a IH]; intros [|y b]; cbn [Buffer.bytes_eqb];
    try discriminate; [reflexivity|].
  intros H. apply andb_true_iff in H as [Hxy Hab].
  f_equal; [|now apply IH].
  destruct x, y; try discriminate Hxy; reflexivity.
Qed.

Section PasswordSoundness.

Variable scrypt : string -> string -> nat -> Result (list byte).

Local Open Scope string_scope.

(** A stored form built from a non-empty key and non-empty salt bytes
    verifies exactly the passwords that derive that key. *)
Lemma comparePasswords_stored_form (supplied : string) (key rnd : list byte) :
  key <> [] -> rnd <> [] ->
  comparePasswords scrypt supplied (Buffer.toHex key ++ "." ++ Buffer.toHex rnd)
  = match scrypt supplied (Buffer.toHex rnd) 64 with
    | Ok derived =>
        if Nat.eqb (List.length derived) (List.length key)
        then Ok (Buffer.bytes_eqb derived key) else Ok false
    | Throw _ => Ok false
    end.
Proof.
  intros Hkey Hrnd. unfold comparePasswords, comparePasswords_try.
  change ("." ++ Buffer.toHex rnd) with (String "." (Buffer.toHex rnd)).
  rewrite truthy_append by reflexivity.
  rewrite includes_separator.
  rewrite split_at_first_separator by apply toHex_no_dot.
  rewrite split_without_separator by apply toHex_no_dot.
  cbn [negb orb nth_error].
  rewrite (toHex_truthy Hkey), (toHex_truthy Hrnd). cbn [negb orb].
  destruct (scrypt supplied (Buffer.toHex rnd) 64) as [derived|e];
    cbn [rbind try_catch]; [|reflexivity].
  rewrite fromHex_toHex. unfold Buffer.timingSafeEqual.
  destruct (Nat.eqb _ _); reflexivity.
Qed.

Hypothesis scrypt_64 :
  forall password salt, exists key,
    scrypt password salt 64 = Ok key /\ List.length key = 64%nat.

(** X1. Against the stored form that [hashPassword] produced for [p], a
    supplied password is accepted exactly when it derives the same key under
    the stored salt; every other password gets [false]. *)
Theorem comparePasswords_accepts_same_key_only (p supplied : string)
    (rnd : list byte) (stored : string) :
  List.length rnd = 16%nat ->
  hashPassword scrypt rnd p = Ok stored ->
  (scrypt supplied (Buffer.toHex rnd) 64 = scrypt p (Buffer.toHex rnd) 64 ->
   comparePasswords scrypt supplied stored = Ok true) /\
  (scrypt supplied (Buffer.toHex rnd) 64 <> scrypt p (Buffer.toHex rnd) 64 ->
   comparePasswords scrypt supplied stored = Ok false).
Proof.
  intros Hrnd Hhash. unfold hashPassword in Hhash. cbv zeta in Hhash.
  destruct (scrypt_64 p (Buffer.toHex rnd)) as (key & Hkey & Hlen).
  rewrite Hkey in Hhash. cbn [rbind] in Hhash. injection Hhash as <-.
  change (String "." (Buffer.toHex rnd)) with ("." ++ Buffer.toHex rnd).
  rewrite comparePasswords_stored_form
    by (eapply nonempty_of_length; eassumption).
  destruct (scrypt_64 supplied (Buffer.toHex rnd)) as (derived & Hderived & Hlen').
  rewrite Hderived, Hkey, Hlen', Hlen, Nat.eqb_refl.
  split.
  - intros [= ->]. now rewrite bytes_eqb_refl.
  - intros Hne. destruct (Buffer.bytes_eqb derived key) eqn:E; [|reflexivity].
    apply bytes_eqb_eq in E. congruence.
Qed.

End PasswordSoundness.

Lemma toy_scrypt_64 (password salt : string) :
  exists key,
    Fixtures.toy_scrypt password salt 64 = Ok key /\ List.length key = 64%nat.
Proof.
  unfold Fixtures.toy_scrypt.
  destruct (Byte.of_N _) as [b|] eqn:E.
  - exists (repeat b 64). split; [reflexivity | apply repeat_length].
  - exfalso. apply Byte.of_N_None_iff in E.
    pose proof (N.mod_upper_bound
      (N.of_nat (String.length password + String.length salt)) 256). lia.
Qed.

Lemma comparePasswords_accepts_same_key_only_witness :
  comparePasswords Fixtures.toy_scrypt "letmein" (Fixtures.stored_form "letmein")
  = Ok true /\
  comparePasswords Fixtures.toy_scrypt "guess" (Fixtures.stored_form "letmein")
  = Ok false.
Proof.
  destruct (@comparePasswords_accepts_same_key_only Fixtures.toy_scrypt toy_scrypt_64
              "letmein" "letmein" Fixtures.salt16 (Fixtures.stored_form "letmein")
              eq_refl eq_refl) as [Hsame _].
  destruct (@comparePasswords_accepts_same_key_only Fixtures.toy_scrypt toy_scrypt_64
              "letmein" "guess" Fixtures.salt16 (Fixtures.stored_form "letmein")
              eq_refl eq_refl) as [_ Hother].
  split; [apply Hsame; reflexivity | apply Hother; vm_compute; discriminate].
Defined.

(** ** Registration and login *)

Lemma fold_max_upper (bound : Z) (l : list Z) (x : Z) :
  In x l -> (x <= fold_right Z.max bound l)%Z.
Proof.
  induction l as [|y l IH]; [contradiction|].
  cbn [fold_right]. intros [-> | Hin]; [lia|].
  specialize (IH Hin). lia.
Qed.

(** The key handed to a new user is above every key in the table. *)
Lemma next_user_id_fresh (db : DB) (r : UserRow.t) :
  In r (users db) -> (UserRow.id r =? next_user_id db)%Z = false.
Proof.
  intros Hin. apply Z.eqb_neq. unfold next_user_id.
  pose proof (fold_max_upper (users_seq db) (map UserRow.id (users db))
                (UserRow.id r) (in_map _ _ _ Hin)). lia.
Qed.

(** What a successful [createUser] stores and returns. *)
Lemma createUser_created (trim : string -> string) (sqlnow : string)
    (userData : InsertUser.t) (db db' : DB) (u : User.t) :
  createUser trim sqlnow userData db = (Ok u, db') ->
  exists row,
    users db' = (users db ++ [row])%list /\
    u = transformUser row /\
    UserRow.id row = next_user_id db /\
    UserRow.email row = trim (InsertUser.email userData) /\
    UserRow.password row = InsertUser.password userData /\
    UserRow.is_verified row
    = match InsertUser.is_verified userData with
      | Some n => if JS.Boolean n then n else 0%Z
      | None => 0%Z
      end /\
    UserRow.verification_token row = None /\
    UserRow.is_moderator row = 0%Z /\
    UserRow.is_admin row = 0%Z /\
    UserRow.is_banned row = 0%Z /\
    (forall r0, In r0 (users db) -> UserRow.email r0 <> UserRow.email row) /\
    images db' = images db /\ albums db' = albums db /\
    album_images db' = album_images db.
Proof.
  unfold createUser, bind, throw, insert_user, query, ret.
  destruct (negb _); [discriminate|].
  destruct (existsb _ (users db)) eqn:E; [discriminate|].
  unfold user_by_id. cbn [users].
  rewrite find_snoc.
  - intros [= <- <-]. eexists. split; [reflexivity|]. split; [reflexivity|].
    cbn. repeat split.
    intros r0 Hr0 Heq.
    assert (Hex : existsb
              (fun r1 => String.eqb (UserRow.email r1) (trim (InsertUser.email userData)))
              (users db) = true)
      by (apply existsb_exists; exists r0; split;
          [exact Hr0 | now apply String.eqb_eq]).
    congruence.
  - intros r0 Hr0. now apply next_user_id_fresh.
  - cbn. apply Z.eqb_refl.
Qed.

Section RegistrationFacts.

Variable scrypt : string -> string -> nat -> Result (list byte).
Variable trim : string -> string.
Variable toLowerCase : string -> string.

Local Open Scope string_scope.

(** What a 201 answer of the registration route means. *)
Lemma postRegister_created (rnd : list byte) (sqlnow : string)
    (body : option InsertUser.t) (db db' : DB) (answer : Body) (session : option Z) :
  postRegister scrypt trim toLowerCase rnd sqlnow body db
  = ((Json 201 answer, session), db') ->
  exists userData hashed u,
    body = Some userData /\
    JS.truthy (InsertUser.password userData) = true /\
    (if JS.truthy (InsertUser.email userData) &&
        negb (String.eqb (trim (InsertUser.email userData)) "")
     then getUserByEmail trim toLowerCase (InsertUser.email userData) db
     else (Ok None, db)) = (Ok None, db) /\
    hashPassword scrypt rnd (InsertUser.password userData) = Ok hashed /\
    createUser trim sqlnow
      {| InsertUser.name := InsertUser.name userData;
         InsertUser.email := InsertUser.email userData;
         InsertUser.password := hashed;
         InsertUser.is_verified := Some 1%Z |} db = (Ok u, db') /\
    answer = SafeUserJson u /\ session = Some (User.id u).
Proof.
  unfold postRegister.
  destruct body as [userData|]; [|discriminate].
  destruct (JS.truthy (InsertUser.password userData)) eqn:Hpw; cbn [negb];
    [|discriminate].
  destruct (if JS.truthy (InsertUser.email userData) &&
               negb (String.eqb (trim (InsertUser.email userData)) "")
            then getUserByEmail trim toLowerCase (InsertUser.email userData) db
            else (Ok None, db)) as [[[found|]|err] db1] eqn:Hlookup;
    try discriminate.
  assert (Hdb1 : db1 = db).
  { destruct (JS.truthy (InsertUser.email userData) && _).
    - pose proof (getUserByEmail_reads_only trim toLowerCase
                    (InsertUser.email userData) db) as Hro.
      now rewrite Hlookup in Hro.
    - now injection Hlookup as <-. }
  subst db1.
  destruct (hashPassword scrypt rnd (InsertUser.password userData)) as [hashed|]
    eqn:Hhash; [|discriminate].
  destruct (createUser trim sqlnow _ db) as [[u|] db2] eqn:Hcreate;
    [|discriminate].
  intros [= <- <- <-].
  exists userData, hashed, u. repeat split; assumption.
Qed.

(** X2. Registration never yields a privileged account: whatever the body,
    a 201 answer carries a user that is verified, is neither moderator nor
    administrator nor banned, holds no verification token, has the trimmed
    address and the next free id, and the session is bound to that id; the
    account is appended to the table and the other tables are untouched. *)
Theorem postRegister_creates_plain_account (rnd : list byte) (sqlnow : string)
    (body : option InsertUser.t) (db db' : DB) (answer : Body) (session : option Z) :
  postRegister scrypt trim toLowerCase rnd sqlnow body db
  = ((Json 201 answer, session), db') ->
  exists userData row,
    body = Some userData /\
    answer = SafeUserJson (transformUser row) /\
    session = Some (UserRow.id row) /\
    users db' = (users db ++ [row])%list /\
    UserRow.id row = next_user_id db /\
    UserRow.email row = trim (InsertUser.email userData) /\
    User.isVerified (transformUser row) = true /\
    User.isModerator (transformUser row) = false /\
    User.isAdmin (transformUser row) = false /\
    User.isBanned (transformUser row) = false /\
    User.verificationToken (transformUser row) = None /\
    images db' = images db /\ albums db' = albums db /\
    album_images db' = album_images db.
Proof.
  intros Hrun.
  apply postRegister_created in Hrun
    as (userData & hashed & u & -> & _ & _ & _ & Hcreate & -> & ->).
  apply createUser_created in Hcreate
    as (row & Husers & -> & Hid & Hemail & _ & Hver & Htok & Hmod & Hadm & Hban
        & _ & Himg & Halb & Hmem).
  exists userData, row. cbn [InsertUser.email InsertUser.is_verified] in *.
  repeat split; try assumption; cbn [transformUser User.isVerified User.isModerator
    User.isAdmin User.isBanned User.verificationToken User.id].
  - now rewrite Hver.
  - now rewrite Hmod.
  - now rewrite Hadm.
  - now rewrite Hban.
Qed.

Hypothesis scrypt_64 :
  forall password salt, exists key,
    scrypt password salt 64 = Ok key /\ List.length key = 64%nat.
Hypothesis trim_ascii :
  forall s, JS.is_ascii s = true -> trim s = JS.ascii_trim s.
Hypothesis toLowerCase_ascii :
  forall s, JS.is_ascii s = true -> toLowerCase s = SQL.LOWER s.

(** X3. A freshly registered user can log in. If registration of a
    seven-bit, non-blank address answered 201, then logging in with the
    submitted address and password right afterwards answers 200 with the
    same user and binds the session to it. *)
Theorem register_then_login (rnd : list byte) (sqlnow : string)
    (userData : InsertUser.t) (db db' : DB) (answer : Body) (session : option Z) :
  List.length rnd = 16%nat ->
  JS.is_ascii (InsertUser.email userData) = true ->
  JS.ascii_trim (InsertUser.email userData) <> "" ->
  postRegister scrypt trim toLowerCase rnd sqlnow (Some userData) db
  = ((Json 201 answer, session), db') ->
  postLogin scrypt trim toLowerCase
    (InsertUser.email userData) (InsertUser.password userData) db'
  = ((Json 200 answer, session), db').
Proof.
  intros Hrnd Hascii Hblank Hrun.
  set (e := InsertUser.email userData) in *.
  apply postRegister_created in Hrun
    as (ud & hashed & u & [= <-] & Hpw & Hlookup & Hhash & Hcreate & -> & ->).
  fold e in Hlookup.
  assert (He : JS.truthy e && negb (String.eqb (trim e) "") = true).
  { rewrite (trim_ascii _ Hascii). apply andb_true_iff. split.
    - destruct e; [now contradiction Hblank | reflexivity].
    - now apply negb_true_iff, String.eqb_neq. }
  rewrite He in Hlookup.
  apply (@getUserByEmail_not_found _ _ trim_ascii toLowerCase_ascii) in Hlookup
    as [_ Hnone]; try assumption.
  apply createUser_created in Hcreate
    as (row & Husers & -> & _ & Hemail & Hpass & _ & _ & _ & _ & Hban & _).
  cbn [InsertUser.email InsertUser.password] in Hemail, Hpass. fold e in Hemail.
  assert (Hfound : getUserByEmail trim toLowerCase e db'
                   = (Ok (Some (transformUser row)), db')).
  { unfold getUserByEmail, bind, query, ret.
    rewrite (@normalizedEmail_ascii _ _ trim_ascii toLowerCase_ascii _ Hascii).
    destruct (String.eqb (SQL.LOWER (JS.ascii_trim e)) "") eqn:E.
    - apply String.eqb_eq in E. apply (proj1 (LOWER_empty _)) in E. contradiction.
    - rewrite Husers, find_snoc; [reflexivity | |].
      + intros r Hr. apply String.eqb_neq. now apply Hnone.
      + cbn beta. rewrite Hemail, (trim_ascii _ Hascii). apply String.eqb_refl. }
  apply andb_true_iff in He as [He _].
  unfold postLogin. rewrite He, Hpw. cbn [negb orb].
  unfold localStrategyVerify. rewrite Hfound.
  cbn [transformUser User.isBanned User.password User.id]. rewrite Hban, Hpass.
  cbn [JS.Boolean Z.eqb negb].
  unfold hashPassword in Hhash. cbv zeta in Hhash.
  destruct (scrypt_64 (InsertUser.password userData) (Buffer.toHex rnd))
    as (key & Hkey & Hlen).
  rewrite Hkey in Hhash. cbn [rbind] in Hhash. injection Hhash as <-.
  change (String "." (Buffer.toHex rnd)) with ("." ++ Buffer.toHex rnd).
  rewrite comparePasswords_stored_form
    by (eapply nonempty_of_length; eassumption).
  rewrite Hkey, Nat.eqb_refl, bytes_eqb_refl. reflexivity.
Qed.

(** X4. Registration refuses an address already taken, letter case and
    surrounding white space aside: when some stored address has the letters
    of the trimmed, non-blank, seven-bit submitted address, the answer is 400
    "Email already in use", no session is bound and the store is
    unchanged. *)
Theorem postRegister_refuses_taken_address (rnd : list byte) (sqlnow : string)
    (userData : InsertUser.t) (db : DB) (holder : UserRow.t) :
  JS.truthy (InsertUser.password userData) = true ->
  JS.is_ascii (InsertUser.email userData) = true ->
  JS.ascii_trim (InsertUser.email userData) <> "" ->
  In holder (users db) ->
  SQL.LOWER (UserRow.email holder)
  = SQL.LOWER (JS.ascii_trim (InsertUser.email userData)) ->
  postRegister scrypt trim toLowerCase rnd sqlnow (Some userData) db
  = ((Json 400 (Message "Email already in use"), None), db).
Proof.
  intros Hpw Hascii Hblank Hin Hsame.
  set (e := InsertUser.email userData) in *.
  unfold postRegister. rewrite Hpw. cbn [negb]. fold e.
  assert (He : JS.truthy e && negb (String.eqb (trim e) "") = true).
  { rewrite (trim_ascii _ Hascii). apply andb_true_iff. split.
    - destruct e; [now contradiction Hblank | reflexivity].
    - now apply negb_true_iff, String.eqb_neq. }
  rewrite He.
  unfold getUserByEmail, bind, query, ret.
  rewrite (@normalizedEmail_ascii _ _ trim_ascii toLowerCase_ascii _ Hascii).
  destruct (String.eqb (SQL.LOWER (JS.ascii_trim e)) "") eqn:E.
  - apply String.eqb_eq in E. apply (proj1 (LOWER_empty _)) in E. contradiction.
  - destruct (find _ (users db)) as [row|] eqn:F; [reflexivity|].
    pose proof (find_none _ _ F holder Hin) as Hno. cbn beta in Hno.
    rewrite Hsame, String.eqb_refl in Hno. discriminate.
Qed.

End RegistrationFacts.

Lemma postRegister_creates_plain_account_witness :
  exists row db',
    snd (postRegister Fixtures.toy_scrypt JS.ascii_trim Fixtures.ascii_toLowerCase
           Fixtures.salt16 "2024-05-07 08:00:00" (Some Fixtures.dave)
           Fixtures.gallery) = db' /\
    users db' = (users Fixtures.gallery ++ [row])%list /\
    UserRow.id row = 6%Z /\
    UserRow.email row = "Dave@Example.com"%string /\
    User.isAdmin (transformUser row) = false.
Proof.
  destruct (@postRegister_creates_plain_account Fixtures.toy_scrypt JS.ascii_trim
              Fixtures.ascii_toLowerCase Fixtures.salt16 "2024-05-07 08:00:00"
              (Some Fixtures.dave) Fixtures.gallery _ _ _ eq_refl)
    as (ud & row & [= <-] & _ & _ & Husers & Hid & Hemail & _ & _ & Hadm & _).
  exists row. eexists. split; [reflexivity|].
  split; [exact Husers|]. split; [exact Hid|]. split; [exact Hemail | exact Hadm].
Defined.

Lemma register_then_login_witness :
  exists answer session db',
    postRegister Fixtures.toy_scrypt JS.ascii_trim Fixtures.ascii_toLowerCase
      Fixtures.salt16 "2024-05-07 08:00:00" (Some Fixtures.dave) Fixtures.gallery
    = ((Json 201 answer, session), db') /\
    postLogin Fixtures.toy_scrypt JS.ascii_trim Fixtures.ascii_toLowerCase
      " Dave@Example.com " "p4ssw0rd" db'
    = ((Json 200 answer, session), db').
Proof.
  eexists. eexists. eexists. split; [vm_compute; reflexivity|].
  apply (@register_then_login Fixtures.toy_scrypt JS.ascii_trim
           Fixtures.ascii_toLowerCase toy_scrypt_64
           (fun s _ => eq_refl) (fun s _ => eq_refl)
           Fixtures.salt16 "2024-05-07 08:00:00" Fixtures.dave Fixtures.gallery).
  - reflexivity.
  - reflexivity.
  - discriminate.
  - vm_compute. reflexivity.
Defined.

Lemma postRegister_refuses_taken_address_witness :
  postRegister Fixtures.toy_scrypt JS.ascii_trim Fixtures.ascii_toLowerCase
    Fixtures.salt16 "2024-05-07 08:00:00" (Some Fixtures.robert) Fixtures.gallery
  = ((Json 400 (Message "Email already in use"), None), Fixtures.gallery).
Proof.
  apply (@postRegister_refuses_taken_address Fixtures.toy_scrypt JS.ascii_trim
           Fixtures.ascii_toLowerCase (fun s _ => eq_refl) (fun s _ => eq_refl)
           Fixtures.salt16 "2024-05-07 08:00:00" Fixtures.robert Fixtures.gallery
           Fixtures.bob).
  - reflexivity.
  - reflexivity.
  - discriminate.
  - cbn. auto.
  - reflexivity.
Defined.

Section LoginSoundness.

Variable scrypt : string -> string -> nat -> Result (list byte).
Variable trim : string -> string.
Variable toLowerCase : string -> string.

Local Open Scope string_scope.

(** X5. Login binds a session only to a user it has verified: whenever a
    session id comes back, the address resolved to a stored user with that
    id who is not banned and whose stored password form accepted the
    supplied password; the answer is 200 with that user and the store is
    unchanged. *)
Theorem postLogin_sound (email password : string) (db db' : DB)
    (response : Response) (sid : Z) :
  postLogin scrypt trim toLowerCase email password db
  = ((response, Some sid), db') ->
  exists u,
    fst (getUserByEmail trim toLowerCase email db) = Ok (Some u) /\
    User.id u = sid /\
    User.isBanned u = false /\
    comparePasswords scrypt password (User.password u) = Ok true /\
    response = Json 200 (SafeUserJson u) /\
    db' = db.
Proof.
  unfold postLogin, localStrategyVerify.
  destruct (negb (JS.truthy email) || negb (JS.truthy password));
    [discriminate|].
  pose proof (getUserByEmail_reads_only trim toLowerCase email db) as Hro.
  destruct (getUserByEmail trim toLowerCase email db) as [[[u|]|err] db1];
    cbn [snd] in Hro; subst db1; try discriminate.
  destruct (User.isBanned u) eqn:Hban; [discriminate|].
  destruct (comparePasswords scrypt password (User.password u)) as [[|]|err]
    eqn:Hcmp; try discriminate.
  intros [= <- <- <-]. exists u. repeat split; assumption.
Qed.

End LoginSoundness.

Lemma postLogin_sound_witness :
  exists u,
    fst (getUserByEmail JS.ascii_trim Fixtures.ascii_toLowerCase
           "Admin@Example.com" Fixtures.gallery) = Ok (Some u) /\
    User.id u = 1%Z /\
    comparePasswords Fixtures.toy_scrypt "password123" (User.password u) = Ok true.
Proof.
  destruct (@postLogin_sound Fixtures.toy_scrypt JS.ascii_trim
              Fixtures.ascii_toLowerCase "Admin@Example.com" "password123"
              Fixtures.gallery _ _ _ eq_refl)
    as (u & Hlookup & Hid & _ & Hcmp & _).
  exists u. split; [exact Hlookup|]. split; [exact Hid | exact Hcmp].
Defined.

(** ** Bans *)

Lemma with_users_same (db : DB) : with_users (fun _ => users db) db = db.
Proof. now destruct db. Qed.

Lemma user_by_id_of_member (db : DB) (r : UserRow.t) :
  In r (users db) -> exists first, user_by_id (UserRow.id r) db = Some first.
Proof.
  intros Hin. unfold user_by_id.
  destruct (find _ (users db)) as [first|] eqn:E; [now exists first|].
  pose proof (find_none _ _ E r Hin) as Hno. cbn beta in Hno.
  now rewrite Z.eqb_refl in Hno.
Qed.

(** What [banUser] does to an existing account when the foreign key of
    [banned_by] is satisfied. *)
Lemma banUser_existing (now : string) (userId adminId : Z) (data : BanUser)
    (db : DB) (row : UserRow.t) :
  user_by_id userId db = Some row ->
  (isBanned data = true -> user_by_id adminId db <> None) ->
  let change :=
    set_ban (flag (isBanned data)) (JS.or_null (banReason data))
            (if isBanned data then Some adminId else None)
            (if isBanned data then Some now else None) in
  banUser now userId adminId data db
  = (Ok (transformUser (change row)),
     with_users (update_where (fun r => (UserRow.id r =? userId)%Z) change) db).
Proof.
  intros Hrow Hadmin change.
  unfold banUser, getUser, bind, query, ret, exec.
  rewrite Hrow. cbn [option_map]. fold change.
  assert (Hreferenced : (if isBanned data
                         then match user_by_id adminId db with
                              | Some _ => true
                              | None => false
                              end
                         else true) = true).
  { destruct (isBanned data); [|reflexivity].
    destruct (user_by_id adminId db); [reflexivity|].
    now contradiction (Hadmin eq_refl). }
  rewrite Hreferenced.
  unfold user_by_id, with_users. cbn [users].
  rewrite find_update_where by reflexivity.
  unfold user_by_id in Hrow. now rewrite Hrow.
Qed.

(** X6. Banning and then lifting the ban is a round trip. On a store with
    unique user ids, an existing administrator banning an account that
    carries no ban data records the flag, the reason, the acting
    administrator and the time; lifting the ban without a reason afterwards
    gives back exactly the original store. (The acting administrator has to
    exist: [banned_by] references [users(id)].) *)
Theorem ban_then_unban_restores (now later : string) (userId adminId liftedBy : Z)
    (reason : option string) (db : DB) (row : UserRow.t) :
  user_ids_unique db ->
  user_by_id userId db = Some row ->
  user_by_id adminId db <> None ->
  UserRow.is_banned row = 0%Z ->
  UserRow.ban_reason row = None ->
  UserRow.banned_by row = None ->
  UserRow.banned_at row = None ->
  exists banned db1,
    banUser now userId adminId {| isBanned := true; banReason := reason |} db
    = (Ok banned, db1) /\
    User.isBanned banned = true /\
    User.banReason banned = JS.or_null reason /\
    User.bannedBy banned = number_or_null (Some adminId) /\
    User.bannedAt banned = Some now /\
    banUser later userId liftedBy {| isBanned := false; banReason := None |} db1
    = (Ok (transformUser row), db).
Proof.
  intros Hunique Hrow Hadmin Hb Hreason Hby Hat.
  eexists. eexists.
  split; [apply (banUser_existing _ _ _ _ _ Hrow (fun _ => Hadmin))|].
  cbn [isBanned banReason flag].
  split; [reflexivity|]. split; [reflexivity|]. split; [reflexivity|].
  split; [reflexivity|].
  set (ban := set_ban 1 (JS.or_null reason) (Some adminId) (Some now)).
  set (p := fun r => (UserRow.id r =? userId)%Z).
  assert (Hrow1 : user_by_id userId (with_users (update_where p ban) db)
                  = Some (ban row)).
  { unfold user_by_id, with_users. cbn [users]. fold p.
    rewrite find_update_where by reflexivity.
    unfold user_by_id in Hrow. fold p in Hrow. now rewrite Hrow. }
  rewrite (banUser_existing _ _ _ _ _ Hrow1)
    by (cbn [isBanned]; discriminate).
  cbn [isBanned banReason flag JS.or_null]. fold p.
  assert (Hback : set_ban 0 None None None (ban row) = row).
  { destruct row. cbn in *. subst. reflexivity. }
  rewrite Hback. f_equal.
  unfold with_users. cbn [users images albums album_images users_seq album_images_seq].
  rewrite update_where_twice by reflexivity.
  rewrite update_where_id.
  - now destruct db.
  - intros r Hr Hp.
    assert (r = row) as -> by (eapply unique_key_row; eauto).
    exact Hback.
Qed.

Lemma ban_then_unban_restores_witness :
  exists banned db1,
    banUser "2024-05-08T08:00:00.000Z" 2 1
      {| isBanned := true; banReason := Some "spam"%string |} Fixtures.gallery
    = (Ok banned, db1) /\
    User.isBanned banned = true /\
    banUser "2024-05-09T08:00:00.000Z" 2 1
      {| isBanned := false; banReason := None |} db1
    = (Ok (transformUser Fixtures.bob), Fixtures.gallery).
Proof.
  destruct (@ban_then_unban_restores "2024-05-08T08:00:00.000Z"
              "2024-05-09T08:00:00.000Z" 2 1 1 (Some "spam"%string)
              Fixtures.gallery Fixtures.bob)
    as (banned & db1 & H1 & H2 & _ & _ & _ & H3); try reflexivity.
  - unfold user_ids_unique. cbn.
    repeat (constructor; [cbn; intuition discriminate|]). constructor.
  - intros H. vm_compute in H. discriminate H.
  - exists banned, db1. split; [exact H1|]. split; [exact H2 | exact H3].
Defined.

Section BanFacts.

Variable scrypt : string -> string -> nat -> Result (list byte).
Variable trim : string -> string.
Variable toLowerCase : string -> string.

Local Open Scope string_scope.

(** X7. A ban takes effect on the next login. If an address resolves to a
    user, then after an existing administrator banned that user every login
    with the address is answered 401 and binds no session, whatever the
    password: with the ban message that carries the reason just recorded
    when address and password are both non-empty, and with the
    authenticator's 'Missing credentials' when one of them is empty. *)
Theorem ban_blocks_login (now : string) (adminId : Z) (reason : option string)
    (q : string) (db : DB) (u : User.t) :
  fst (getUserByEmail trim toLowerCase q db) = Ok (Some u) ->
  user_by_id adminId db <> None ->
  exists banned db',
    banUser now (User.id u) adminId {| isBanned := true; banReason := reason |} db
    = (Ok banned, db') /\
    forall password,
      postLogin scrypt trim toLowerCase q password db'
      = ((Json 401
            (Message (if JS.truthy q && JS.truthy password
                      then "Your account has been banned. " ++
                           match JS.or_null reason with
                           | Some r => "Reason: " ++ r
                           | None => ""
                           end
                      else "Missing credentials")), None), db').
Proof.
  intros Hlookup Hadmin.
  set (ban := set_ban 1 (JS.or_null reason) (Some adminId) (Some now)).
  set (p := fun r => (UserRow.id r =? User.id u)%Z).
  unfold getUserByEmail, bind, query, ret in Hlookup.
  assert (Hrow : exists row (pe : UserRow.t -> bool),
            (forall r, pe (ban r) = pe r) /\
            find pe (users db) = Some row /\ u = transformUser row /\
            forall db1,
              getUserByEmail trim toLowerCase q db1
              = (Ok (option_map transformUser (find pe (users db1))), db1)).
  { destruct (String.eqb (toLowerCase (trim q)) "") eqn:E.
    - destruct (find _ (users db)) as [row|] eqn:F; [|discriminate].
      cbn [fst] in Hlookup. injection Hlookup as <-.
      exists row. eexists. split; [|split; [exact F | split; [reflexivity|]]].
      + reflexivity.
      + intros db1. unfold getUserByEmail, bind, query, ret. rewrite E.
        destruct (find _ (users db1)); reflexivity.
    - destruct (find _ (users db)) as [row|] eqn:F; [|discriminate].
      cbn [fst] in Hlookup. injection Hlookup as <-.
      exists row. eexists. split; [|split; [exact F | split; [reflexivity|]]].
      + reflexivity.
      + intros db1. unfold getUserByEmail, bind, query, ret. rewrite E.
        destruct (find _ (users db1)); reflexivity. }
  destruct Hrow as (row & pe & Hpe & Hfound & -> & Hget).
  cbn [transformUser User.id] in *.
  destruct (user_by_id_of_member db row) as [first Hfirst];
    [now apply find_some in Hfound|].
  eexists. eexists.
  split; [apply (banUser_existing _ _ _ _ _ Hfirst (fun _ => Hadmin))|].
  cbn [isBanned banReason flag]. fold ban. fold p.
  intros password. unfold postLogin.
  destruct (JS.truthy q), (JS.truthy password); cbn [negb orb andb];
    try reflexivity.
  unfold localStrategyVerify.
  rewrite Hget. unfold with_users. cbn [users].
  rewrite find_update_where_other by exact Hpe.
  assert (Hp : p row = true) by (unfold p; apply Z.eqb_refl).
  rewrite Hfound. cbn [option_map]. rewrite Hp.
  cbn [transformUser User.isBanned ban set_ban UserRow.is_banned JS.Boolean
       Z.eqb negb].
  unfold banned_message. cbn [User.banReason].
  destruct reason as [[|c r]|]; reflexivity.
Qed.

End BanFacts.

Lemma ban_blocks_login_witness :
  exists banned db',
    banUser "2024-05-08T08:00:00.000Z" 2 1
      {| isBanned := true; banReason := Some "spam"%string |} Fixtures.gallery
    = (Ok banned, db') /\
    postLogin Fixtures.toy_scrypt JS.ascii_trim Fixtures.ascii_toLowerCase
      "foo@bar.com" "tr0ub4dor" db'
    = ((Json 401 (Message "Your account has been banned. Reason: spam"), None), db').
Proof.
  destruct (@ban_blocks_login Fixtures.toy_scrypt JS.ascii_trim
              Fixtures.ascii_toLowerCase "2024-05-08T08:00:00.000Z" 1
              (Some "spam"%string) "foo@bar.com" Fixtures.gallery
              (transformUser Fixtures.bob) eq_refl)
    as (banned & db' & Hban & Hlogin).
  - intros H. vm_compute in H. discriminate H.
  - exists banned, db'. split; [exact Hban | exact (Hlogin "tr0ub4dor"%string)].
Defined.

(** What [banUser] does in the name of an id that no user has. *)
Lemma banUser_unknown_admin (now : string) (userId adminId : Z)
    (reason : option string) (db : DB) (row : UserRow.t) :
  user_by_id userId db = Some row ->
  user_by_id adminId db = None ->
  banUser now userId adminId {| isBanned := true; banReason := reason |} db
  = (Throw "FOREIGN KEY constraint failed"%string, db).
Proof.
  intros Hrow Hnone. unfold banUser, getUser, bind, query, ret, throw.
  rewrite Hrow. cbn [option_map isBanned]. now rewrite Hnone.
Qed.

(** ** Roles and profiles *)

(** What [updateUserRole] does to an existing account. *)
Lemma updateUserRole_existing (userId adminId : Z) (data : UpdateUserRole)
    (db : DB) (row : UserRow.t) :
  user_by_id userId db = Some row ->
  let change := set_roles (isModerator data) (isAdmin data) in
  updateUserRole userId adminId data db
  = (Ok (transformUser (change row)),
     with_users (update_where (fun r => (UserRow.id r =? userId)%Z) change) db).
Proof.
  intros Hrow change.
  assert (Hfind : user_by_id userId
            (with_users (update_where (fun r => (UserRow.id r =? userId)%Z) change) db)
          = Some (change row)).
  { unfold user_by_id, with_users. cbn [users].
    rewrite find_update_where by reflexivity.
    unfold user_by_id in Hrow. now rewrite Hrow. }
  unfold updateUserRole, getUser, bind, query, ret, exec.
  rewrite Hrow. cbn [option_map].
  destruct (isModerator data) as [m|] eqn:Em, (isAdmin data) as [a|] eqn:Ea;
    subst change; rewrite ?Em, ?Ea in *; try (rewrite Hfind; reflexivity).
  (* no flag supplied: no UPDATE is run, and the SET clause is the identity *)
  rewrite Hrow. cbn [option_map].
  assert (Hid : forall r, set_roles None None r = r) by (now intros []).
  rewrite Hid. f_equal.
  unfold with_users. rewrite update_where_id by (intros; apply Hid).
  now destruct db.
Qed.

(** X8. [updateUserRole] changes the role flags it is given and nothing
    else. For an existing account the stored flags become the supplied ones
    (an omitted flag keeps its value), the identity, credential and ban
    columns of every account are as before, and the other tables are
    untouched; for a missing account it throws and the store is unchanged. *)
Theorem updateUserRole_sets_supplied_flags (userId adminId : Z)
    (data : UpdateUserRole) (db : DB) :
  (forall row,
     user_by_id userId db = Some row ->
     exists u db',
       updateUserRole userId adminId data db = (Ok u, db') /\
       User.isModerator u
       = match isModerator data with
         | Some b => b
         | None => User.isModerator (transformUser row)
         end /\
       User.isAdmin u
       = match isAdmin data with
         | Some b => b
         | None => User.isAdmin (transformUser row)
         end /\
       map (fun r => (UserRow.id r, UserRow.email r, UserRow.password r,
                      UserRow.is_verified r, UserRow.is_banned r))
           (users db')
       = map (fun r => (UserRow.id r, UserRow.email r, UserRow.password r,
                        UserRow.is_verified r, UserRow.is_banned r))
             (users db) /\
       images db' = images db /\ albums db' = albums db /\
       album_images db' = album_images db) /\
  (user_by_id userId db = None ->
     updateUserRole userId adminId data db = (Throw "User not found"%string, db)).
Proof.
  split.
  - intros row Hrow. eexists. eexists.
    split; [apply (updateUserRole_existing _ adminId data _ Hrow)|].
    cbn [transformUser User.isModerator User.isAdmin set_roles
         UserRow.is_moderator UserRow.is_admin].
    split; [destruct (isModerator data); [apply Boolean_flag | reflexivity]|].
    split; [destruct (isAdmin data); [apply Boolean_flag | reflexivity]|].
    split; [|repeat split].
    unfold with_users, update_where. cbn [users]. rewrite map_map.
    apply map_ext. intros r. destruct (_ =? _)%Z; reflexivity.
  - intros Hnone. unfold updateUserRole, getUser, bind, query, ret, throw.
    now rewrite Hnone.
Qed.

Lemma updateUserRole_sets_supplied_flags_witness :
  exists u db',
    updateUserRole 2 1 {| isModerator := Some true; isAdmin := None |} Fixtures.gallery
    = (Ok u, db') /\
    User.isModerator u = true /\ User.isAdmin u = false /\
    updateUserRole 9 1 {| isModerator := Some true; isAdmin := None |} Fixtures.gallery
    = (Throw "User not found"%string, Fixtures.gallery).
Proof.
  pose proof (@updateUserRole_sets_supplied_flags 2 1
                {| isModerator := Some true; isAdmin := None |} Fixtures.gallery)
    as [Hsome _].
  pose proof (@updateUserRole_sets_supplied_flags 9 1
                {| isModerator := Some true; isAdmin := None |} Fixtures.gallery)
    as [_ Hnone].
  destruct (Hsome Fixtures.bob eq_refl) as (u & db' & Hrun & Hm & Ha & _).
  exists u, db'. split; [exact Hrun|]. split; [exact Hm|]. split; [exact Ha|].
  apply Hnone. reflexivity.
Defined.

(** X9. The administration routes change the store only for an
    administrator acting on somebody else: whenever [PATCH .../role] or
    [PATCH .../ban] returns a store different from the one it was given, or
    answers 200, the request carried a user whose current record has the
    admin flag, the target id differs from that user's id, and the body
    passed validation. *)
Theorem admin_routes_require_admin (now : string) (req_user : option User.t)
    (userId : Z) (db : DB) :
  (forall body response db',
     patchUserRole req_user userId body db = (response, db') ->
     db' <> db \/ status_of response = Some 200%Z ->
     exists actor row,
       req_user = Some actor /\
       user_by_id (User.id actor) db = Some row /\
       User.isAdmin (transformUser row) = true /\
       userId <> User.id actor /\ body <> None) /\
  (forall body response db',
     patchUserBan now req_user userId body db = (response, db') ->
     db' <> db \/ status_of response = Some 200%Z ->
     exists actor row,
       req_user = Some actor /\
       user_by_id (User.id actor) db = Some row /\
       User.isAdmin (transformUser row) = true /\
       userId <> User.id actor /\ body <> None).
Proof.
  split; intros body response db';
    unfold patchUserRole, patchUserBan, isAdmin_middleware, getUser, bind, query, ret;
    (destruct req_user as [actor|];
       [|intros [= <- <-] [H | H]; [contradiction | discriminate]]);
    (destruct (user_by_id (User.id actor) db) as [row|] eqn:Hrow; cbn [option_map];
       [|intros [= <- <-] [H | H]; [contradiction | discriminate]]);
    (destruct (User.isAdmin (transformUser row)) eqn:Hadmin;
       [|intros [= <- <-] [H | H]; [contradiction | discriminate]]);
    (destruct body as [data|];
       [|intros [= <- <-] [H | H]; [contradiction | discriminate]]);
    (destruct (userId =? User.id actor)%Z eqn:Hself;
       [intros [= <- <-] [H | H]; [contradiction | discriminate]|]);
    intros _ _; exists actor, row;
    (repeat split; try assumption; [now apply Z.eqb_neq | discriminate]).
Qed.

Lemma admin_routes_require_admin_witness :
  exists row,
    user_by_id 1 Fixtures.gallery = Some row /\
    User.isAdmin (transformUser row) = true.
Proof.
  destruct (proj1 (@admin_routes_require_admin "2024-05-08T08:00:00.000Z"
                     (Some (transformUser Fixtures.admin)) 2 Fixtures.gallery)
              (Some {| isModerator := Some true; isAdmin := None |}) _ _ eq_refl)
    as (actor & row & [= <-] & Hrow & Hadmin & _).
  - right. reflexivity.
  - exists row. split; [exact Hrow | exact Hadmin].
Defined.

(** X10. Demotion is immediate. When an administrator removes the admin flag
    of another existing account, the route answers 200 with the demoted
    user, and from then on every role or ban request made in that account's
    name is refused with 403 "Admin privileges required" and changes
    nothing -- even when the session's copy of the user still carries the
    admin flag. *)
Theorem demoted_admin_is_refused (now : string) (actor : User.t) (target : Z)
    (moderatorFlag : option bool) (db : DB) (actorRow targetRow : UserRow.t) :
  user_by_id (User.id actor) db = Some actorRow ->
  User.isAdmin (transformUser actorRow) = true ->
  target <> User.id actor ->
  user_by_id target db = Some targetRow ->
  exists demoted db',
    patchUserRole (Some actor) target
      (Some {| isModerator := moderatorFlag; isAdmin := Some false |}) db
    = (Json 200 (UserJson demoted), db') /\
    User.id demoted = User.id (transformUser targetRow) /\
    User.isAdmin demoted = false /\
    forall stale, User.id stale = target ->
      forall victim roleBody banBody,
        patchUserRole (Some stale) victim roleBody db'
        = (Json 403 (Message "Admin privileges required"), db') /\
        patchUserBan now (Some stale) victim banBody db'
        = (Json 403 (Message "Admin privileges required"), db').
Proof.
  intros Hactor Hadmin Hother Htarget.
  set (data := {| isModerator := moderatorFlag; isAdmin := Some false |}).
  set (db' := with_users
                (update_where (fun r => (UserRow.id r =? target)%Z)
                   (set_roles moderatorFlag (Some false))) db).
  exists (transformUser (set_roles moderatorFlag (Some false) targetRow)), db'.
  split; [|split; [reflexivity | split; [reflexivity|]]].
  - unfold patchUserRole, isAdmin_middleware, getUser, bind, query, ret.
    rewrite Hactor. cbn [option_map]. rewrite Hadmin.
    apply Z.eqb_neq in Hother. rewrite Hother.
    fold (getUser (User.id actor)).
    now rewrite (updateUserRole_existing _ (User.id actor) data _ Htarget).
  - intros stale <- victim roleBody banBody.
    assert (Hfind : user_by_id (User.id stale) db'
                    = Some (set_roles moderatorFlag (Some false) targetRow)).
    { unfold user_by_id, db', with_users. cbn [users].
      rewrite find_update_where by reflexivity.
      unfold user_by_id in Htarget. now rewrite Htarget. }
    unfold patchUserRole, patchUserBan, isAdmin_middleware, getUser, bind, query, ret.
    rewrite Hfind. cbn. split; reflexivity.
Qed.

Lemma demoted_admin_is_refused_witness :
  exists demoted db',
    patchUserRole (Some (transformUser Fixtures.admin)) 3
      (Some {| isModerator := None; isAdmin := Some false |}) Fixtures.gallery
    = (Json 200 (UserJson demoted), db') /\
    patchUserBan "2024-05-08T08:00:00.000Z" (Some (transformUser Fixtures.admin)) 1
      (Some {| isBanned := true; banReason := None |}) db'
    = (Json 400 (Message "Cannot ban yourself"), db') /\
    patchUserBan "2024-05-08T08:00:00.000Z" (Some (transformUser Fixtures.carol)) 1
      (Some {| isBanned := true; banReason := None |}) db'
    = (Json 403 (Message "Admin privileges required"), db').
Proof.
  destruct (@demoted_admin_is_refused "2024-05-08T08:00:00.000Z"
              (transformUser Fixtures.admin) 3 None Fixtures.gallery
              Fixtures.admin Fixtures.carol eq_refl eq_refl)
    as (demoted & db' & Hrun & _ & _ & Hrefused); [discriminate | reflexivity |].
  exists demoted, db'. split; [exact Hrun|].
  split.
  - injection Hrun as _ <-. reflexivity.
  - exact (proj2 (Hrefused (transformUser Fixtures.carol) eq_refl 1%Z None
                    (Some {| isBanned := true; banReason := None |}))).
Defined.

(** X11. A profile edit cannot touch identity, credentials, roles or bans:
    whatever [updateUserProfile] is given and whether it succeeds or throws,
    the id, address, password form, verification state, role flags and ban
    columns of every account, and all other tables, are as before. *)
Theorem updateUserProfile_keeps_account_security (userId : Z)
    (data : ProfileData.t) (db db' : DB) (result : Result User.t) :
  updateUserProfile userId data db = (result, db') ->
  map account_security (users db') = map account_security (users db) /\
  images db' = images db /\ albums db' = albums db /\
  album_images db' = album_images db.
Proof.
  unfold updateUserProfile, getUser, bind, query, ret, throw, exec.
  destruct (user_by_id userId db) as [row|]; cbn [option_map];
    [|intros [= _ <-]; repeat split].
  destruct (profile_update_nonempty data).
  - match goal with
    | |- context [user_by_id userId ?d] => destruct (user_by_id userId d)
    end; cbn [option_map]; intros [= _ <-];
      (split; [|repeat split]);
      unfold with_users, update_where; cbn [users]; rewrite map_map;
      apply map_ext; intros r; destruct (_ =? _)%Z; reflexivity.
  - destruct (user_by_id userId db); cbn [option_map]; intros [= _ <-];
      repeat split.
Qed.

Lemma updateUserProfile_keeps_account_security_witness :
  exists u db',
    updateUserProfile 2 Fixtures.new_bio Fixtures.gallery = (Ok u, db') /\
    User.bio u = Some "hello"%string /\
    map account_security (users db') = map account_security (users Fixtures.gallery).
Proof.
  eexists. eexists. split; [reflexivity|]. split; [reflexivity|].
  exact (proj1 (@updateUserProfile_keeps_account_security 2 Fixtures.new_bio
                  Fixtures.gallery _ _ eq_refl)).
Defined.

(** ** Issuing verification tokens *)

(** X12. Issue-then-consume is a round trip: a token that no account holds
    yet, issued to an existing account, is consumed by the next
    [verifyUserByToken], which returns that account with the verified flag
    set and the token cleared. *)
Theorem generate_then_verify (token : string) (userId : Z) (db : DB)
    (row : UserRow.t) :
  user_by_id userId db = Some row ->
  (forall r, In r (users db) -> UserRow.verification_token r <> Some token) ->
  exists db1 u db2,
    generateVerificationToken token userId db = (Ok token, db1) /\
    verifyUserByToken token db1 = (Ok (Some u), db2) /\
    User.id u = userId /\
    User.email u = UserRow.email row /\
    User.isVerified u = true /\
    User.verificationToken u = None.
Proof.
  intros Hrow Hfresh.
  set (p := fun r => (UserRow.id r =? userId)%Z).
  set (db1 := with_users (update_where p (set_verification_token token)) db).
  set (has_token := fun r => SQL.text_eq (UserRow.verification_token r) token).
  pose proof (find_some _ _ Hrow) as [Hin Hp]. fold p in Hp.
  assert (Hrow1 : user_by_id userId db1 = Some (set_verification_token token row)).
  { unfold user_by_id, db1, with_users. cbn [users]. fold p.
    rewrite find_update_where by reflexivity.
    unfold user_by_id in Hrow. fold p in Hrow. now rewrite Hrow. }
  destruct (find has_token (users db1)) as [user|] eqn:Efind.
  2:{ exfalso.
      pose proof (find_none _ _ Efind (set_verification_token token row)) as Hno.
      unfold has_token in Hno. cbn in Hno. rewrite String.eqb_refl in Hno.
      assert (In (set_verification_token token row) (users db1)).
      { unfold db1, with_users, update_where. cbn [users]. apply in_map_iff.
        exists row. split; [|exact Hin]. unfold p. cbv beta. now rewrite Hp. }
      now specialize (Hno H). }
  assert (Huser : UserRow.id user = userId).
  { apply find_some in Efind as [Huser Htok].
    unfold db1, with_users in Huser. cbn [users] in Huser.
    apply in_update_where in Huser as (r0 & Hr0 & ->).
    destruct (p r0) eqn:E.
    - unfold p in E. now apply Z.eqb_eq in E.
    - apply text_eq_true in Htok. now apply Hfresh in Hr0. }
  exists db1. eexists. eexists. split; [reflexivity|]. split.
  - unfold verifyUserByToken, bind, query, exec, ret.
    fold has_token. rewrite Efind, Huser. fold p.
    unfold user_by_id, with_users. cbn [users]. fold p.
    rewrite find_update_where by reflexivity.
    unfold user_by_id in Hrow1. fold p in Hrow1. rewrite Hrow1. reflexivity.
  - cbn. apply Z.eqb_eq in Hp. repeat split. exact Hp.
Qed.

Lemma generate_then_verify_witness :
  exists db1 u db2,
    generateVerificationToken "feedbeef" 3 Fixtures.gallery = (Ok "feedbeef"%string, db1) /\
    verifyUserByToken "feedbeef" db1 = (Ok (Some u), db2) /\
    User.id u = 3%Z.
Proof.
  destruct (@generate_then_verify "feedbeef" 3 Fixtures.gallery Fixtures.carol eq_refl)
    as (db1 & u & db2 & H1 & H2 & H3 & _).
  - intros r Hr. cbn in Hr.
    destruct Hr as [<- | [<- | [<- | [<- | [<- | []]]]]]; discriminate.
  - exists db1, u, db2. split; [exact H1|]. split; [exact H2 | exact H3].
Defined.

(** X13. Issuing a new token invalidates the previous one: if only the
    account [userId] held the old token, then after a different token has
    been issued to it the old token is refused and consuming it changes
    nothing. *)
Theorem reissue_invalidates_old_token (old new : string) (userId : Z) (db : DB) :
  new <> old ->
  (forall r, In r (users db) ->
     UserRow.verification_token r = Some old -> UserRow.id r = userId) ->
  exists db1,
    generateVerificationToken new userId db = (Ok new, db1) /\
    verifyUserByToken old db1 = (Ok None, db1) /\
    getVerify old db1
    = (Json 400 (Message "Invalid or expired verification token"), db1).
Proof.
  intros Hne Hholder.
  eexists. split; [reflexivity|].
  assert (Hnone : find (fun r => SQL.text_eq (UserRow.verification_token r) old)
                    (users (with_users
                       (update_where (fun r => (UserRow.id r =? userId)%Z)
                          (set_verification_token new)) db)) = None).
  { match goal with |- ?f = None => destruct f as [r|] eqn:E end; [|reflexivity].
    exfalso. apply find_some in E as [Hr Htok]. apply text_eq_true in Htok.
    unfold with_users in Hr. cbn [users] in Hr.
    apply in_update_where in Hr as (r0 & Hr0 & ->).
    destruct (UserRow.id r0 =? userId)%Z eqn:Eid.
    - cbn in Htok. congruence.
    - apply Z.eqb_neq in Eid. now apply Eid, Hholder. }
  split.
  - unfold verifyUserByToken, bind, query, ret. cbv beta.
    unfold generateVerificationToken, bind, exec, ret. cbn [snd].
    now rewrite Hnone.
  - unfold getVerify, verifyUserByToken, bind, query, ret.
    now rewrite Hnone.
Qed.

Lemma reissue_invalidates_old_token_witness :
  exists db1,
    generateVerificationToken "feedbeef" 2 Fixtures.gallery = (Ok "feedbeef"%string, db1) /\
    verifyUserByToken "c0ffee" db1 = (Ok None, db1).
Proof.
  destruct (@reissue_invalidates_old_token "c0ffee" "feedbeef" 2 Fixtures.gallery)
    as (db1 & H1 & H2 & _).
  - discriminate.
  - intros r Hr Ht. cbn in Hr.
    destruct Hr as [<- | [<- | [<- | [<- | [<- | []]]]]];
      first [reflexivity | discriminate Ht].
  - exists db1. split; [exact H1 | exact H2].
Defined.

(** ** Album membership *)

(** The ways [addImageToAlbum] can leave the membership table. *)
Lemma addImageToAlbum_membership (now : string) (albumId userId imageId : Z)
    (db db' : DB) (r : Result unit) :
  addImageToAlbum now albumId userId imageId db = (r, db') ->
  db' = db \/
  (find (is_membership albumId imageId) (album_images db) = None /\
   album_images db'
   = (album_images db ++
      [ {| AlbumImageRow.id := next_album_image_id db;
           AlbumImageRow.album_id := albumId;
           AlbumImageRow.image_id := imageId;
           AlbumImageRow.added_at := Some now |} ])%list /\
   users db' = users db /\ images db' = images db).
Proof.
  unfold addImageToAlbum, getAlbumById, getImageById, bind, query, ret, throw, exec.
  destruct (album_by_id albumId db) as [a|]; cbn [option_map];
    [|intros [= _ <-]; now left].
  destruct (negb _); [intros [= _ <-]; now left|].
  destruct (image_by_id imageId db) as [row|]; cbn [option_map];
    [|intros [= _ <-]; now left].
  destruct (negb _); [intros [= _ <-]; now left|].
  destruct (find _ (album_images db)) eqn:F; [intros [= _ <-]; now left|].
  destruct (Album.coverImageId (transformAlbum a));
    intros [= _ <-]; right; repeat split.
Qed.

(** X14. Adding an image that is already in the album is a no-op: for an
    album of the caller and an approved image with a membership row, the call
    returns normally and the store is exactly as before. *)
Theorem addImageToAlbum_idempotent (now : string) (albumId userId imageId : Z)
    (db : DB) (a : AlbumRow.t) (img : ImageRow.t) (m : AlbumImageRow.t) :
  album_by_id albumId db = Some a ->
  AlbumRow.user_id a = userId ->
  image_by_id imageId db = Some img ->
  ImageRow.status img = approved ->
  In m (album_images db) ->
  AlbumImageRow.album_id m = albumId ->
  AlbumImageRow.image_id m = imageId ->
  addImageToAlbum now albumId userId imageId db = (Ok tt, db).
Proof.
  intros Ha Howner Himg Hstatus Hm Halbum Himage.
  unfold addImageToAlbum, getAlbumById, getImageById, bind, query, ret.
  rewrite Ha. cbn [option_map].
  change (Album.userId (transformAlbum a)) with (AlbumRow.user_id a).
  rewrite Howner, Z.eqb_refl. cbn [negb].
  rewrite Himg. cbn [option_map transformImage Image.status].
  rewrite Hstatus. cbn [ImageStatus_eqb negb].
  destruct (find (is_membership albumId imageId) (album_images db)) eqn:F;
    [reflexivity|].
  pose proof (find_none _ _ F m Hm) as Hno. unfold is_membership in Hno.
  now rewrite Halbum, Himage, !Z.eqb_refl in Hno.
Qed.

Lemma addImageToAlbum_idempotent_witness :
  addImageToAlbum "2024-05-04T08:00:00.000Z" 1 2 3 Fixtures.gallery
  = (Ok tt, Fixtures.gallery).
Proof.
  apply (@addImageToAlbum_idempotent "2024-05-04T08:00:00.000Z" 1 2 3
           Fixtures.gallery Fixtures.holidays Fixtures.forest
           {| AlbumImageRow.id := 2; AlbumImageRow.album_id := 1;
              AlbumImageRow.image_id := 3;
              AlbumImageRow.added_at := Some "2024-05-01T11:00:00.000Z"%string |});
    try reflexivity.
  cbn. auto.
Defined.

(** X15. Adding a new member. For an album of the caller and an approved
    image that is not yet in it, the call appends one membership row with
    the current time; if the album has no cover the image becomes the cover,
    and if it has one the albums table is left alone. *)
Theorem addImageToAlbum_new_member (now : string) (albumId userId imageId : Z)
    (db : DB) (a : AlbumRow.t) (img : ImageRow.t) :
  album_by_id albumId db = Some a ->
  AlbumRow.user_id a = userId ->
  image_by_id imageId db = Some img ->
  ImageRow.status img = approved ->
  find (is_membership albumId imageId) (album_images db) = None ->
  exists db',
    addImageToAlbum now albumId userId imageId db = (Ok tt, db') /\
    album_images db'
    = (album_images db ++
       [ {| AlbumImageRow.id := next_album_image_id db;
            AlbumImageRow.album_id := albumId;
            AlbumImageRow.image_id := imageId;
            AlbumImageRow.added_at := Some now |} ])%list /\
    (AlbumRow.cover_image_id a = None ->
       album_by_id albumId db' = Some (set_cover (Some imageId) now a)) /\
    (forall cover, Album.coverImageId (transformAlbum a) = Some cover ->
       albums db' = albums db) /\
    users db' = users db /\ images db' = images db.
Proof.
  intros Ha Howner Himg Hstatus Hnew.
  unfold addImageToAlbum, getAlbumById, getImageById, bind, query, ret, exec.
  rewrite Ha. cbn [option_map].
  change (Album.userId (transformAlbum a)) with (AlbumRow.user_id a).
  rewrite Howner, Z.eqb_refl. cbn [negb].
  rewrite Himg. cbn [option_map transformImage Image.status].
  rewrite Hstatus. cbn [ImageStatus_eqb negb]. rewrite Hnew.
  destruct (Album.coverImageId (transformAlbum a)) as [cover|] eqn:Hcover.
  - eexists. split; [reflexivity|]. split; [reflexivity|]. split; [|repeat split].
    intros Hnull. cbn in Hcover. rewrite Hnull in Hcover. discriminate.
  - eexists. split; [reflexivity|]. split; [reflexivity|]. split; [|split].
    + intros Hnull. unfold album_by_id, with_albums. cbn [albums].
      rewrite find_update_where_other by reflexivity.
      unfold album_by_id in Ha. rewrite Ha. cbn [option_map].
      apply find_some in Ha as [_ Hid]. now rewrite Hid, Hnull.
    + intros cover [=].
    + split; reflexivity.
Qed.

Lemma addImageToAlbum_new_member_witness :
  exists db',
    addImageToAlbum "2024-05-04T08:00:00.000Z" 2 2 3 Fixtures.gallery = (Ok tt, db') /\
    List.length (album_images db') = 4%nat /\
    albums db' = albums Fixtures.gallery.
Proof.
  destruct (@addImageToAlbum_new_member "2024-05-04T08:00:00.000Z" 2 2 3
              Fixtures.gallery Fixtures.sketches Fixtures.forest
              eq_refl eq_refl eq_refl eq_refl eq_refl)
    as (db' & Hrun & Hrows & _ & Hcover & _).
  exists db'. split; [exact Hrun|]. split.
  - rewrite Hrows. reflexivity.
  - apply (Hcover 1%Z). reflexivity.
Defined.

(** X16. An (album, image) pair never gets a second membership row:
    [addImageToAlbum], [removeImageFromAlbum] and [deleteAlbum] all keep the
    membership table free of duplicate pairs, whether they succeed or
    throw. *)
Theorem memberships_stay_unique (now : string) (albumId userId imageId : Z)
    (db : DB) :
  memberships_unique db ->
  memberships_unique (snd (addImageToAlbum now albumId userId imageId db)) /\
  memberships_unique (snd (removeImageFromAlbum now albumId userId imageId db)) /\
  memberships_unique (snd (deleteAlbum albumId userId db)).
Proof.
  intros Hunique. split; [|split].
  - destruct (addImageToAlbum now albumId userId imageId db) as [r db'] eqn:Hrun.
    cbn [snd].
    apply addImageToAlbum_membership in Hrun as [-> | (Hnone & Hrows & _)];
      [exact Hunique|].
    unfold memberships_unique. rewrite Hrows.
    apply NoDup_map_snoc; [exact Hunique|].
    intros m Hm Hpair. cbn in Hpair. injection Hpair as Halbum Himage.
    pose proof (find_none _ _ Hnone m Hm) as Hno. unfold is_membership in Hno.
    now rewrite Halbum, Himage, !Z.eqb_refl in Hno.
  - unfold removeImageFromAlbum, getAlbumById, bind, query, ret, throw, exec.
    destruct (album_by_id albumId db) as [a|]; cbn [option_map snd];
      [|exact Hunique].
    destruct (negb _); [exact Hunique|].
    assert (Hkept : memberships_unique
              (with_album_images
                 (filter (fun r => negb (is_membership albumId imageId r))) db)).
    { unfold memberships_unique, with_album_images. cbn [album_images].
      now apply filter_keeps_unique_keys. }
    destruct (Album.coverImageId (transformAlbum a)) as [cover|]; [|exact Hkept].
    destruct (cover =? imageId)%Z; exact Hkept.
  - unfold deleteAlbum, getAlbumById, bind, query, ret, throw, exec.
    destruct (album_by_id albumId db) as [a|]; cbn [option_map snd];
      [|exact Hunique].
    destruct (negb _); [exact Hunique|].
    unfold memberships_unique, with_album_images, with_albums.
    cbn [album_images snd]. now apply filter_keeps_unique_keys.
Qed.

Lemma memberships_stay_unique_witness :
  memberships_unique
    (snd (addImageToAlbum "2024-05-04T08:00:00.000Z" 2 2 3 Fixtures.gallery)).
Proof.
  apply (@memberships_stay_unique "2024-05-04T08:00:00.000Z" 2 2 3 Fixtures.gallery).
  unfold memberships_unique. cbn.
  repeat (constructor; [cbn; intuition discriminate|]). constructor.
Defined.

(** X17. Removal removes. When the owner removes an image from an album, the
    call succeeds, no membership row of that pair remains, every other
    membership row stays, and users and images are untouched; unless the
    image was the album's cover, the albums table is untouched too. *)
Theorem removeImageFromAlbum_removes (now : string) (albumId userId imageId : Z)
    (db : DB) (a : AlbumRow.t) :
  album_by_id albumId db = Some a ->
  AlbumRow.user_id a = userId ->
  exists db',
    removeImageFromAlbum now albumId userId imageId db = (Ok tt, db') /\
    (forall m, In m (album_images db') ->
       AlbumImageRow.album_id m = albumId -> AlbumImageRow.image_id m <> imageId) /\
    (forall m, In m (album_images db) ->
       is_membership albumId imageId m = false -> In m (album_images db')) /\
    (Album.coverImageId (transformAlbum a) <> Some imageId ->
       albums db' = albums db) /\
    users db' = users db /\ images db' = images db.
Proof.
  intros Ha Howner.
  assert (Hgone : forall m,
            In m (filter (fun r => negb (is_membership albumId imageId r))
                         (album_images db)) ->
            AlbumImageRow.album_id m = albumId ->
            AlbumImageRow.image_id m <> imageId).
  { intros m Hm Halbum Himage. apply filter_In in Hm as [_ Hm].
    unfold is_membership in Hm. now rewrite Halbum, Himage, !Z.eqb_refl in Hm. }
  assert (Hkept : forall m, In m (album_images db) ->
            is_membership albumId imageId m = false ->
            In m (filter (fun r => negb (is_membership albumId imageId r))
                         (album_images db))).
  { intros m Hm Hno. apply filter_In. now rewrite Hno. }
  unfold removeImageFromAlbum, getAlbumById, bind, query, ret, exec.
  rewrite Ha. cbn [option_map].
  change (Album.userId (transformAlbum a)) with (AlbumRow.user_id a).
  rewrite Howner, Z.eqb_refl. cbn [negb].
  destruct (Album.coverImageId (transformAlbum a)) as [cover|].
  - destruct (cover =? imageId)%Z eqn:E.
    + eexists. split; [reflexivity|]. split; [exact Hgone|].
      split; [exact Hkept|]. split; [|split; reflexivity].
      intros Hne. apply Z.eqb_eq in E. congruence.
    + eexists. split; [reflexivity|]. split; [exact Hgone|].
      split; [exact Hkept|]. repeat split.
  - eexists. split; [reflexivity|]. split; [exact Hgone|].
    split; [exact Hkept|]. repeat split.
Qed.

Lemma removeImageFromAlbum_removes_witness :
  exists db',
    removeImageFromAlbum "2024-05-05T08:00:00.000Z" 1 2 3 Fixtures.gallery = (Ok tt, db') /\
    List.length (album_images db') = 2%nat /\
    albums db' = albums Fixtures.gallery.
Proof.
  destruct (@removeImageFromAlbum_removes "2024-05-05T08:00:00.000Z" 1 2 3
              Fixtures.gallery Fixtures.holidays eq_refl eq_refl)
    as (db' & Hrun & _ & _ & Halbums & _).
  exists db'. split; [exact Hrun|]. split.
  - injection Hrun as <-. reflexivity.
  - apply Halbums. discriminate.
Defined.

(** X18. Deleting an album. The owner's call succeeds and afterwards the
    album cannot be found, none of its membership rows remains, every other
    album and every membership row of another album is still there, and
    users and images are untouched. Anybody else's call throws and changes
    nothing. *)
Theorem deleteAlbum_cascades (albumId userId : Z) (db : DB) (a : AlbumRow.t) :
  album_by_id albumId db = Some a ->
  (AlbumRow.user_id a = userId ->
     exists db',
       deleteAlbum albumId userId db = (Ok tt, db') /\
       album_by_id albumId db' = None /\
       (forall m, In m (album_images db') -> AlbumImageRow.album_id m <> albumId) /\
       (forall other, In other (albums db) -> AlbumRow.id other <> albumId ->
          In other (albums db')) /\
       (forall m, In m (album_images db) -> AlbumImageRow.album_id m <> albumId ->
          In m (album_images db')) /\
       users db' = users db /\ images db' = images db) /\
  (AlbumRow.user_id a <> userId ->
     deleteAlbum albumId userId db
     = (Throw "You do not have permission to delete this album"%string, db)).
Proof.
  intros Ha. split.
  - intros Howner.
    unfold deleteAlbum, getAlbumById, bind, query, ret, exec.
    rewrite Ha. cbn [option_map].
    change (Album.userId (transformAlbum a)) with (AlbumRow.user_id a).
    rewrite Howner, Z.eqb_refl. cbn [negb].
    eexists. split; [reflexivity|].
    unfold album_by_id, with_albums, with_album_images.
    cbn [albums album_images users images].
    split; [|split; [|split; [|split; [|split; reflexivity]]]].
    + match goal with |- ?f = None => destruct f as [r|] eqn:E end; [|reflexivity].
      apply find_some in E as [Hin Hid]. apply filter_In in Hin as [_ Hin].
      now rewrite Hid in Hin.
    + intros m Hm Halbum. apply filter_In in Hm as [_ Hm].
      unfold in_album in Hm. now rewrite Halbum, Z.eqb_refl in Hm.
    + intros other Hin Hne. apply filter_In. split; [exact Hin|].
      apply Z.eqb_neq in Hne. now rewrite Hne.
    + intros m Hin Hne. apply filter_In. split; [exact Hin|].
      unfold in_album. apply Z.eqb_neq in Hne. now rewrite Hne.
  - intros Hne.
    unfold deleteAlbum, getAlbumById, bind, query, ret, throw.
    rewrite Ha. cbn [option_map].
    change (Album.userId (transformAlbum a)) with (AlbumRow.user_id a).
    apply Z.eqb_neq in Hne. now rewrite Hne.
Qed.

Lemma deleteAlbum_cascades_witness :
  (exists db',
     deleteAlbum 1 2 Fixtures.gallery = (Ok tt, db') /\
     album_by_id 1 db' = None /\
     List.length (album_images db') = 1%nat) /\
  deleteAlbum 1 3 Fixtures.gallery
  = (Throw "You do not have permission to delete this album"%string, Fixtures.gallery).
Proof.
  destruct (@deleteAlbum_cascades 1 2 Fixtures.gallery Fixtures.holidays eq_refl)
    as [Howner _].
  destruct (@deleteAlbum_cascades 1 3 Fixtures.gallery Fixtures.holidays eq_refl)
    as [_ Hother].
  split.
  - destruct (Howner eq_refl) as (db' & Hrun & Hgone & _).
    exists db'. split; [exact Hrun|]. split; [exact Hgone|].
    injection Hrun as <-. reflexivity.
  - apply Hother. discriminate.
Defined.

(** X19. [updateAlbum] is owner-gated and changes only what it is given.
    For the owner: with no field supplied the store is unchanged; with
    fields supplied and a cover that names an existing image (or no cover),
    the row takes the supplied title, description, cover and visibility,
    keeps the others, keeps id, owner and creation time, and gets the
    current time as [updated_at]; a cover that names no image makes the
    UPDATE fail and the store is unchanged. Anybody else's call throws and
    changes nothing. *)
Theorem updateAlbum_owner_gated (now : string) (albumId userId : Z)
    (data : UpdateAlbum.t) (db : DB) (a : AlbumRow.t) :
  album_by_id albumId db = Some a ->
  (AlbumRow.user_id a <> userId ->
     updateAlbum now albumId userId data db
     = (Throw "You do not have permission to update this album"%string, db)) /\
  (AlbumRow.user_id a = userId ->
     album_update_nonempty data = false ->
     updateAlbum now albumId userId data db = (Ok (transformAlbum a), db)) /\
  (AlbumRow.user_id a = userId ->
     album_update_nonempty data = true ->
     (forall c, UpdateAlbum.coverImageId data = Some c ->
        image_by_id c db <> None) ->
     exists db',
       updateAlbum now albumId userId data db
       = (Ok (transformAlbum (set_album data now a)), db') /\
       album_by_id albumId db' = Some (set_album data now a) /\
       AlbumRow.id (set_album data now a) = AlbumRow.id a /\
       AlbumRow.user_id (set_album data now a) = AlbumRow.user_id a /\
       AlbumRow.created_at (set_album data now a) = AlbumRow.created_at a /\
       AlbumRow.updated_at (set_album data now a) = Some now /\
       users db' = users db /\ images db' = images db /\
       album_images db' = album_images db) /\
  (AlbumRow.user_id a = userId ->
     forall c, UpdateAlbum.coverImageId data = Some c ->
       image_by_id c db = None ->
       updateAlbum now albumId userId data db
       = (Throw "FOREIGN KEY constraint failed"%string, db)).
Proof.
  intros Ha.
  assert (Hfind : album_by_id albumId
            (with_albums
               (update_where (fun r => (AlbumRow.id r =? albumId)%Z)
                  (set_album data now)) db) = Some (set_album data now a)).
  { unfold album_by_id, with_albums. cbn [albums].
    rewrite find_update_where by reflexivity.
    unfold album_by_id in Ha. now rewrite Ha. }
  split; [|split; [|split]].
  - intros Hne. unfold updateAlbum, getAlbumById, bind, query, ret, throw.
    rewrite Ha. cbn [option_map].
    change (Album.userId (transformAlbum a)) with (AlbumRow.user_id a).
    apply Z.eqb_neq in Hne. now rewrite Hne.
  - intros Howner Hempty.
    unfold updateAlbum, getAlbumById, bind, query, ret.
    rewrite Ha. cbn [option_map].
    change (Album.userId (transformAlbum a)) with (AlbumRow.user_id a).
    rewrite Howner, Z.eqb_refl, Hempty. cbn [negb]. now rewrite Ha.
  - intros Howner Hnonempty Hcover.
    eexists. split; [|split; [exact Hfind | repeat split]].
    unfold updateAlbum, getAlbumById, bind, query, ret, exec, throw.
    rewrite Ha. cbn [option_map].
    change (Album.userId (transformAlbum a)) with (AlbumRow.user_id a).
    rewrite Howner, Z.eqb_refl, Hnonempty. cbn [negb].
    destruct (UpdateAlbum.coverImageId data) as [c|] eqn:Ec; cbv beta iota.
    + specialize (Hcover c eq_refl).
      destruct (image_by_id c db); [|contradiction].
      now rewrite Hfind.
    + now rewrite Hfind.
  - intros Howner c Hc Hmissing.
    unfold updateAlbum, getAlbumById, bind, query, ret, exec, throw.
    rewrite Ha. cbn [option_map].
    change (Album.userId (transformAlbum a)) with (AlbumRow.user_id a).
    rewrite Howner, Z.eqb_refl. cbn [negb].
    assert (Hnonempty : album_update_nonempty data = true).
    { unfold album_update_nonempty. rewrite Hc.
      destruct (UpdateAlbum.title data), (UpdateAlbum.description data);
        reflexivity. }
    rewrite Hnonempty, Hc. cbv beta iota. now rewrite Hmissing.
Qed.

Lemma updateAlbum_owner_gated_witness :
  updateAlbum "2024-05-10T08:00:00.000Z" 1 3 Fixtures.retitle Fixtures.gallery
  = (Throw "You do not have permission to update this album"%string, Fixtures.gallery) /\
  (exists db',
     updateAlbum "2024-05-10T08:00:00.000Z" 1 2 Fixtures.retitle Fixtures.gallery
     = (Ok (transformAlbum
              (set_album Fixtures.retitle "2024-05-10T08:00:00.000Z" Fixtures.holidays)),
        db')) /\
  updateAlbum "2024-05-10T08:00:00.000Z" 1 2 Fixtures.dangling_cover Fixtures.gallery
  = (Throw "FOREIGN KEY constraint failed"%string, Fixtures.gallery).
Proof.
  destruct (@updateAlbum_owner_gated "2024-05-10T08:00:00.000Z" 1 3 Fixtures.retitle
              Fixtures.gallery Fixtures.holidays eq_refl) as (Hother & _).
  destruct (@updateAlbum_owner_gated "2024-05-10T08:00:00.000Z" 1 2 Fixtures.retitle
              Fixtures.gallery Fixtures.holidays eq_refl) as (_ & _ & Hset & _).
  destruct (@updateAlbum_owner_gated "2024-05-10T08:00:00.000Z" 1 2
              Fixtures.dangling_cover Fixtures.gallery Fixtures.holidays eq_refl)
    as (_ & _ & _ & Hfk).
  split; [apply Hother; discriminate|]. split.
  - destruct (Hset eq_refl eq_refl) as (db' & Hrun & _).
    + intros c [= <-]. discriminate.
    + exists db'. exact Hrun.
  - apply (Hfk eq_refl 99%Z); reflexivity.
Defined.

(** X20. The first image added to a new album becomes its cover. Creating an
    album for an existing user under a fresh key yields an album of that
    user without cover, public unless [isPublic] was [false]; adding an
    approved image to it right away succeeds and makes that image the
    cover. *)
Theorem new_album_first_image_is_cover (key : Z) (now later : string)
    (albumData : InsertAlbum.t) (imageId : Z) (db : DB)
    (owner : UserRow.t) (img : ImageRow.t) :
  user_by_id (InsertAlbum.userId albumData) db = Some owner ->
  (forall r, In r (albums db) -> AlbumRow.id r <> key) ->
  (forall m, In m (album_images db) -> AlbumImageRow.album_id m <> key) ->
  image_by_id imageId db = Some img ->
  ImageRow.status img = approved ->
  exists album db1 db2 row,
    createAlbum key now albumData db = (Ok album, db1) /\
    Album.id album = key /\
    Album.userId album = InsertAlbum.userId albumData /\
    Album.coverImageId album = None /\
    Album.isPublic album
    = match InsertAlbum.isPublic albumData with
      | Some false => false
      | _ => true
      end /\
    addImageToAlbum later key (InsertAlbum.userId albumData) imageId db1
    = (Ok tt, db2) /\
    album_by_id key db2 = Some row /\
    AlbumRow.cover_image_id row = Some imageId.
Proof.
  intros Howner Hfresh Hnomember Himg Hstatus.
  set (row := {| AlbumRow.id := key;
                 AlbumRow.title := InsertAlbum.title albumData;
                 AlbumRow.description := JS.or_null (InsertAlbum.description albumData);
                 AlbumRow.cover_image_id := None;
                 AlbumRow.user_id := InsertAlbum.userId albumData;
                 AlbumRow.is_public :=
                   match InsertAlbum.isPublic albumData with
                   | Some false => 0%Z
                   | _ => 1%Z
                   end;
                 AlbumRow.created_at := Some now;
                 AlbumRow.updated_at := Some now |}).
  set (db1 := with_albums (fun rows => (rows ++ [row])%list) db).
  assert (Hrow1 : album_by_id key db1 = Some row).
  { unfold album_by_id, db1, with_albums. cbn [albums]. apply find_snoc.
    - intros r Hr. apply Z.eqb_neq. now apply Hfresh.
    - apply Z.eqb_refl. }
  assert (Hnone : find (is_membership key imageId) (album_images db1) = None).
  { match goal with |- ?f = None => destruct f as [m|] eqn:E end; [|reflexivity].
    apply find_some in E as [Hm Hpair]. unfold is_membership in Hpair.
    apply andb_true_iff in Hpair as [Halbum _]. apply Z.eqb_eq in Halbum.
    now apply Hnomember in Hm. }
  exists (transformAlbum row), db1. eexists.
  exists (set_cover (Some imageId) later row).
  split; [|split; [reflexivity | split; [reflexivity | split; [reflexivity|]]]].
  - unfold createAlbum, bind, query, ret, exec. rewrite Howner.
    fold row. fold db1. now rewrite Hrow1.
  - split; [destruct (InsertAlbum.isPublic albumData) as [[|]|]; reflexivity|].
    split; [|split; [|reflexivity]].
    + unfold addImageToAlbum, getAlbumById, getImageById, bind, query, ret, exec.
      rewrite Hrow1. cbn [option_map transformAlbum Album.userId row AlbumRow.user_id].
      rewrite Z.eqb_refl. cbn [negb].
      change (image_by_id imageId db1) with (image_by_id imageId db).
      rewrite Himg. cbn [option_map transformImage Image.status].
      rewrite Hstatus. cbn [ImageStatus_eqb negb]. rewrite Hnone.
      reflexivity.
    + unfold album_by_id, with_albums. cbn [albums].
      rewrite find_update_where_other by reflexivity.
      unfold album_by_id in Hrow1. rewrite Hrow1. cbn [option_map].
      cbn [row AlbumRow.id AlbumRow.cover_image_id]. now rewrite Z.eqb_refl.
Qed.

Lemma new_album_first_image_is_cover_witness :
  exists album db1 db2 row,
    createAlbum 3 "2024-05-10T08:00:00.000Z" Fixtures.trips Fixtures.gallery
    = (Ok album, db1) /\
    Album.isPublic album = true /\
    addImageToAlbum "2024-05-10T09:00:00.000Z" 3 2 3 db1 = (Ok tt, db2) /\
    album_by_id 3 db2 = Some row /\
    AlbumRow.cover_image_id row = Some 3%Z.
Proof.
  destruct (@new_album_first_image_is_cover 3 "2024-05-10T08:00:00.000Z"
              "2024-05-10T09:00:00.000Z" Fixtures.trips 3 Fixtures.gallery
              Fixtures.bob Fixtures.forest eq_refl)
    as (album & db1 & db2 & row & H1 & _ & _ & _ & H2 & H3 & H4 & H5);
    try reflexivity.
  - intros r Hr. cbn in Hr. destruct Hr as [<- | [<- | []]]; discriminate.
  - intros m Hm. cbn in Hm. destruct Hm as [<- | [<- | [<- | []]]]; discriminate.
  - exists album, db1, db2, row. repeat split; assumption.
Defined.

(** ** Moderation queue, gallery and statistics *)

Lemma StronglySorted_map {A B} (f : A -> B) (R : A -> A -> Prop)
    (R' : B -> B -> Prop) (l : list A) :
  (forall a b, R a b -> R' (f a) (f b)) ->
  StronglySorted R l -> StronglySorted R' (map f l).
Proof.
  intros HR. induction 1 as [|a l Hl IH Ha]; cbn [map]; constructor.
  - exact IH.
  - rewrite Forall_forall in *. intros y Hy.
    apply in_map_iff in Hy as (x & <- & Hx). now apply HR, Ha.
Qed.

Lemma images_join_users_In (status : ImageStatus) (db : DB)
    (i : ImageRow.t) (u : UserRow.t) :
  In (i, u) (images_join_users status db) <->
  In i (images db) /\ ImageRow.status i = status /\
  In u (users db) /\ UserRow.id u = ImageRow.user_id i.
Proof.
  unfold images_join_users. rewrite in_flat_map. split.
  - intros (i0 & Hi0 & Hpair).
    apply filter_In in Hi0 as [Hi0 Hs]. apply ImageStatus_eqb_eq in Hs.
    apply in_map_iff in Hpair as (u0 & [= <- <-] & Hu0).
    apply filter_In in Hu0 as [Hu0 Hid]. apply Z.eqb_eq in Hid.
    repeat split; assumption.
  - intros (Hi & Hs & Hu & Hid). exists i. split.
    + apply filter_In. split; [exact Hi|]. now apply ImageStatus_eqb_eq.
    + apply in_map_iff. exists u. split; [reflexivity|].
      apply filter_In. split; [exact Hu|]. now apply Z.eqb_eq.
Qed.

Lemma pending_queue_In (db : DB) (x : ImageWithContact) :
  In x (map (fun iu =>
               {| ic_image := transformImage (fst iu);
                  ic_user_id := UserRow.id (snd iu);
                  ic_user_name := UserRow.name (snd iu);
                  ic_user_email := UserRow.email (snd iu) |})
            (order_by_desc (fun iu => ImageRow.created_at (fst iu))
               (images_join_users pending db))) <->
  exists i u,
    In i (images db) /\ ImageRow.status i = pending /\
    In u (users db) /\ UserRow.id u = ImageRow.user_id i /\
    x = {| ic_image := transformImage i; ic_user_id := UserRow.id u;
           ic_user_name := UserRow.name u; ic_user_email := UserRow.email u |}.
Proof.
  rewrite in_map_iff. split.
  - intros ([i u] & <- & Hin). apply order_by_desc_In in Hin.
    apply images_join_users_In in Hin as (Hi & Hs & Hu & Hid).
    exists i, u. repeat split; assumption.
  - intros (i & u & Hi & Hs & Hu & Hid & ->). exists (i, u).
    split; [reflexivity|]. apply order_by_desc_In.
    now apply images_join_users_In.
Qed.

Lemma approved_gallery_In (db : DB) (x : ImageWithUser) :
  In x (map (fun iu =>
               {| iu_image := transformImage (fst iu);
                  iu_user_id := UserRow.id (snd iu);
                  iu_user_name := UserRow.name (snd iu) |})
            (order_by_desc (fun iu => ImageRow.created_at (fst iu))
               (images_join_users approved db))) <->
  exists i u,
    In i (images db) /\ ImageRow.status i = approved /\
    In u (users db) /\ UserRow.id u = ImageRow.user_id i /\
    x = {| iu_image := transformImage i; iu_user_id := UserRow.id u;
           iu_user_name := UserRow.name u |}.
Proof.
  rewrite in_map_iff. split.
  - intros ([i u] & <- & Hin). apply order_by_desc_In in Hin.
    apply images_join_users_In in Hin as (Hi & Hs & Hu & Hid).
    exists i, u. repeat split; assumption.
  - intros (i & u & Hi & Hs & Hu & Hid & ->). exists (i, u).
    split; [reflexivity|]. apply order_by_desc_In.
    now apply images_join_users_In.
Qed.

(** X21. The moderation queue lists exactly the pending images whose owner
    exists, each with the owner's id, name and address, newest first by
    [created_at]; it reads the store without changing it. *)
Theorem getPendingImages_exact (db : DB) :
  exists queue,
    getPendingImages db = (Ok queue, db) /\
    (forall x, In x queue <->
       exists i u,
         In i (images db) /\ ImageRow.status i = pending /\
         In u (users db) /\ UserRow.id u = ImageRow.user_id i /\
         x = {| ic_image := transformImage i; ic_user_id := UserRow.id u;
                ic_user_name := UserRow.name u;
                ic_user_email := UserRow.email u |}) /\
    StronglySorted
      (fun a b => SQL.text_le (Image.createdAt (ic_image b))
                              (Image.createdAt (ic_image a)) = true) queue.
Proof.
  eexists. split; [reflexivity|]. split.
  - intros x. apply pending_queue_In.
  - eapply StronglySorted_map; [|apply order_by_desc_sorted].
    intros a b H. exact H.
Qed.

(** X22. The public gallery lists exactly the approved images whose owner
    exists, newest first by [created_at]. The visibility flag is not
    consulted: an approved image is listed whether [is_public] is set or
    not. *)
Theorem getApprovedImages_exact (db : DB) :
  exists gallery,
    getApprovedImages db = (Ok gallery, db) /\
    (forall x, In x gallery <->
       exists i u,
         In i (images db) /\ ImageRow.status i = approved /\
         In u (users db) /\ UserRow.id u = ImageRow.user_id i /\
         x = {| iu_image := transformImage i; iu_user_id := UserRow.id u;
                iu_user_name := UserRow.name u |}) /\
    StronglySorted
      (fun a b => SQL.text_le (Image.createdAt (iu_image b))
                              (Image.createdAt (iu_image a)) = true) gallery.
Proof.
  eexists. split; [reflexivity|]. split.
  - intros x. apply approved_gallery_In.
  - eapply StronglySorted_map; [|apply order_by_desc_sorted].
    intros a b H. exact H.
Qed.

(** X23. A decision moves the image out of the queue. After
    [updateImageStatus] by an existing moderator on an image id, no entry of
    the moderation queue has that id; and if the decision was an approval of
    an existing image whose owner exists, the gallery has an entry with that
    id. (The moderator has to exist: [reviewed_by] references
    [users(id)].) *)
Theorem decided_image_leaves_queue (now : string) (imageId : Z) (d : Decision)
    (moderatorId : Z) (reason : option string) (db : DB) :
  user_by_id moderatorId db <> None ->
  let db' := snd (updateImageStatus now imageId d moderatorId reason db) in
  (forall queue x,
     fst (getPendingImages db') = Ok queue -> In x queue ->
     Image.id (ic_image x) <> imageId) /\
  (forall row owner,
     d = approve ->
     image_by_id imageId db = Some row ->
     In owner (users db) -> UserRow.id owner = ImageRow.user_id row ->
     exists gallery x,
       fst (getApprovedImages db') = Ok gallery /\ In x gallery /\
       Image.id (iu_image x) = imageId /\
       Image.status (iu_image x) = approved).
Proof.
  intros Hmoderator db'.
  assert (Hdb' : images db'
                 = update_where (fun r => (ImageRow.id r =? imageId)%Z)
                     (set_status (status_of_decision d) moderatorId
                        (JS.or_null reason) now) (images db)
                 /\ users db' = users db).
  { unfold db'. rewrite updateImageStatus_store by exact Hmoderator.
    split; reflexivity. }
  destruct Hdb' as [Himages Husers].
  split.
  - intros queue x Hqueue Hx Hid.
    unfold getPendingImages, bind, query, ret in Hqueue. cbn [fst] in Hqueue.
    injection Hqueue as <-.
    apply pending_queue_In in Hx as (i & u & Hi & Hs & _ & _ & ->).
    cbn [ic_image transformImage Image.id] in Hid.
    rewrite Himages in Hi. apply in_update_where in Hi as (r & _ & ->).
    destruct (ImageRow.id r =? imageId)%Z eqn:E.
    + cbn in Hs. destruct d; discriminate.
    + apply Z.eqb_neq in E. contradiction.
  - intros row owner -> Hrow Howner Hid.
    set (row' := set_status approved moderatorId (JS.or_null reason) now row).
    eexists.
    exists {| iu_image := transformImage row'; iu_user_id := UserRow.id owner;
              iu_user_name := UserRow.name owner |}.
    split; [reflexivity|]. split; [|split].
    + apply approved_gallery_In. exists row', owner.
      pose proof (find_some _ _ Hrow) as [Hin Hp].
      repeat split; try reflexivity.
      * rewrite Himages. unfold update_where. apply in_map_iff.
        exists row. split; [|exact Hin]. cbv beta. now rewrite Hp.
      * now rewrite Husers.
      * exact Hid.
    + cbn. pose proof (find_some _ _ Hrow) as [_ Hp]. now apply Z.eqb_eq in Hp.
    + reflexivity.
Qed.

Lemma decided_image_leaves_queue_witness :
  exists gallery x,
    fst (getApprovedImages
           (snd (updateImageStatus "2024-05-02T10:00:00.000Z" 2 approve 3 None
                   Fixtures.gallery))) = Ok gallery /\
    In x gallery /\ Image.id (iu_image x) = 2%Z.
Proof.
  assert (Hmoderator : user_by_id 3 Fixtures.gallery <> None).
  { intros H. vm_compute in H. discriminate H. }
  destruct (proj2 (@decided_image_leaves_queue "2024-05-02T10:00:00.000Z" 2 approve 3
                     None Fixtures.gallery Hmoderator) Fixtures.harbour Fixtures.bob
              eq_refl eq_refl) as (gallery & x & H1 & H2 & H3 & _).
  - cbn. auto.
  - reflexivity.
  - exists gallery, x. split; [exact H1|]. split; [exact H2 | exact H3].
Defined.

(** X24. Deciding a pending image moves one unit of the statistics. On a
    store with unique image ids, when a pending image is decided by an
    existing moderator at a time not before today's midnight, the pending count drops by one, the
    approved-today count grows by one for an approval and the
    rejected-today count by one for a rejection, and the other count stays
    as it was. *)
Theorem stats_after_decision (today now : string) (imageId : Z) (d : Decision)
    (moderatorId : Z) (reason : option string) (db : DB) (row : ImageRow.t) :
  image_ids_unique db ->
  image_by_id imageId db = Some row ->
  user_by_id moderatorId db <> None ->
  ImageRow.status row = pending ->
  SQL.text_le (Some today) (Some now) = true ->
  let db' := snd (updateImageStatus now imageId d moderatorId reason db) in
  exists before after,
    getModerationStats today db = (Ok before, db) /\
    getModerationStats today db' = (Ok after, db') /\
    stats_pending before = S (stats_pending after) /\
    approvedToday after
    = (approvedToday before + match d with approve => 1 | reject => 0 end)%nat /\
    rejectedToday after
    = (rejectedToday before + match d with approve => 0 | reject => 1 end)%nat.
Proof.
  intros Hunique Hrow Hmoderator Hpending Htoday db'.
  destruct (update_where_unique ImageRow.id imageId
              (set_status (status_of_decision d) moderatorId (JS.or_null reason) now)
              (images db) Hunique Hrow)
    as (l1 & l2 & Hsplit & Hupdated).
  assert (Himages : images db'
                    = (l1 ++ set_status (status_of_decision d) moderatorId
                                 (JS.or_null reason) now row :: l2)%list).
  { unfold db'. rewrite updateImageStatus_store by exact Hmoderator.
    exact Hupdated. }
  eexists. eexists. split; [reflexivity|]. split; [reflexivity|].
  cbn [stats_pending approvedToday rejectedToday].
  rewrite Himages, Hsplit, !filter_app, !length_app.
  cbn [filter set_status ImageRow.status ImageRow.updated_at].
  rewrite Hpending, Htoday.
  destruct d; cbn [status_of_decision ImageStatus_eqb andb List.length]; lia.
Qed.

Lemma stats_after_decision_witness :
  exists before after,
    getModerationStats "2024-05-02T00:00:00.000Z" Fixtures.gallery
    = (Ok before, Fixtures.gallery) /\
    fst (getModerationStats "2024-05-02T00:00:00.000Z"
           (snd (updateImageStatus "2024-05-02T10:00:00.000Z" 2 reject 3 None
                   Fixtures.gallery))) = Ok after /\
    stats_pending before = 1%nat /\ stats_pending after = 0%nat /\
    rejectedToday after = S (rejectedToday before).
Proof.
  destruct (@stats_after_decision "2024-05-02T00:00:00.000Z"
              "2024-05-02T10:00:00.000Z" 2 reject 3 None Fixtures.gallery
              Fixtures.harbour)
    as (before & after & H1 & H2 & H3 & _ & H5); try reflexivity.
  - unfold image_ids_unique. cbn.
    repeat (constructor; [cbn; intuition discriminate|]). constructor.
  - intros H. vm_compute in H. discriminate H.
  - exists before, after. split; [exact H1|]. split; [now rewrite H2|].
    injection H1 as <-. injection H2 as <-. cbn in *.
    repeat split; lia.
Defined.

(** X25. An upload starts pending. For an existing uploader and a fresh
    key, [createImage] returns an image with that key that is pending,
    public, unreviewed and owned by the uploader, and the image is in the
    moderation queue afterwards; users, albums and memberships are
    untouched. For a missing uploader the INSERT fails and the store is
    unchanged. *)
Theorem createImage_starts_pending (key : Z) (sqlnow : string)
    (imageData : InsertImage.t) (db : DB) :
  (forall owner,
     user_by_id (InsertImage.userId imageData) db = Some owner ->
     (forall r, In r (images db) -> ImageRow.id r <> key) ->
     exists img db' queue entry,
       createImage key sqlnow imageData db = (Ok img, db') /\
       Image.id img = key /\
       Image.status img = pending /\
       Image.userId img = InsertImage.userId imageData /\
       Image.isPublic img = true /\
       Image.reviewedBy img = None /\
       Image.rejectionReason img = None /\
       getPendingImages db' = (Ok queue, db') /\
       In entry queue /\ ic_image entry = img /\
       users db' = users db /\ albums db' = albums db /\
       album_images db' = album_images db) /\
  (user_by_id (InsertImage.userId imageData) db = None ->
     createImage key sqlnow imageData db
     = (Throw "FOREIGN KEY constraint failed"%string, db)).
Proof.
  split.
  - intros owner Howner Hfresh.
    set (row := {| ImageRow.id := key;
                   ImageRow.title := InsertImage.title imageData;
                   ImageRow.description := JS.or_null (InsertImage.description imageData);
                   ImageRow.filename := InsertImage.filename imageData;
                   ImageRow.status := pending;
                   ImageRow.user_id := InsertImage.userId imageData;
                   ImageRow.reviewed_by := None;
                   ImageRow.rejection_reason := None;
                   ImageRow.is_public := 1%Z;
                   ImageRow.created_at := Some sqlnow;
                   ImageRow.updated_at := Some sqlnow |}).
    set (db' := with_images (fun rows => (rows ++ [row])%list) db).
    assert (Hrow : image_by_id key db' = Some row).
    { unfold image_by_id, db', with_images. cbn [images]. apply find_snoc.
      - intros r Hr. apply Z.eqb_neq. now apply Hfresh.
      - apply Z.eqb_refl. }
    pose proof (find_some _ _ Howner) as [Hin Hid]. apply Z.eqb_eq in Hid.
    exists (transformImage row), db'. eexists.
    exists {| ic_image := transformImage row; ic_user_id := UserRow.id owner;
              ic_user_name := UserRow.name owner;
              ic_user_email := UserRow.email owner |}.
    split.
    { unfold createImage, bind, query, ret, exec. rewrite Howner.
      fold row. fold db'. now rewrite Hrow. }
    repeat split.
    apply pending_queue_In. exists row, owner.
    repeat split; try assumption.
    unfold db', with_images. cbn [images]. apply in_or_app. right. now left.
  - intros Hnone. unfold createImage, bind, query, ret, throw. now rewrite Hnone.
Qed.

Lemma createImage_starts_pending_witness :
  (exists img db',
     createImage 5 "2024-05-11 08:00:00" Fixtures.lighthouse Fixtures.gallery
     = (Ok img, db') /\
     Image.status img = pending /\ Image.isPublic img = true).
Proof.
  destruct (proj1 (@createImage_starts_pending 5 "2024-05-11 08:00:00"
                     Fixtures.lighthouse Fixtures.gallery) Fixtures.bob eq_refl)
    as (img & db' & queue & entry & H1 & _ & H2 & _ & H3 & _).
  - intros r Hr. cbn in Hr.
    destruct Hr as [<- | [<- | [<- | [<- | []]]]]; discriminate.
  - exists img, db'. split; [exact H1|]. split; [exact H2 | exact H3].
Defined.

(** X26. Only a moderator changes an image through the status route:
    whenever [PATCH /api/images/:id/status] returns a store different from
    the one it was given, or answers 200, the request carried a user with
    the moderator flag, a numeric id of an existing image and a body that
    passed validation. Whatever the request, users, albums and memberships
    are untouched. *)
Theorem patchImageStatus_requires_moderator (now : string)
    (req_user : option User.t) (imageId : option Z)
    (body : option (Decision * option string)) (db db' : DB) (response : Response) :
  patchImageStatus now req_user imageId body db = (response, db') ->
  (db' <> db \/ status_of response = Some 200%Z ->
     exists actor id row,
       req_user = Some actor /\ User.isModerator actor = true /\
       imageId = Some id /\ image_by_id id db = Some row /\ body <> None) /\
  users db' = users db /\ albums db' = albums db /\
  album_images db' = album_images db.
Proof.
  unfold patchImageStatus.
  destruct req_user as [actor|];
    [|intros [= <- <-]; split;
        [intros [H | H]; [contradiction | discriminate] | repeat split]].
  destruct (User.isModerator actor) eqn:Hmod; cbn [negb];
    [|intros [= <- <-]; split;
        [intros [H | H]; [contradiction | discriminate] | repeat split]].
  destruct imageId as [id|];
    [|intros [= <- <-]; split;
        [intros [H | H]; [contradiction | discriminate] | repeat split]].
  destruct body as [[status reason]|];
    [|intros [= <- <-]; split;
        [intros [H | H]; [contradiction | discriminate] | repeat split]].
  unfold getImageById, bind, query, ret.
  destruct (image_by_id id db) as [row|] eqn:Hrow; cbn [option_map];
    [|intros [= <- <-]; split;
        [intros [H | H]; [contradiction | discriminate] | repeat split]].
  unfold updateImageStatus, bind, exec, query, throw. rewrite Hrow.
  destruct (user_by_id (User.id actor) db); cbv beta iota;
    [|intros [= <- <-]; split;
        [intros [H | H]; [contradiction | discriminate] | repeat split]].
  match goal with
  | |- context [image_by_id id ?d] => destruct (image_by_id id d)
  end; intros [= <- <-];
    (split; [|repeat split]); intros _; exists actor, id, row;
    repeat split; try assumption; discriminate.
Qed.

Lemma patchImageStatus_requires_moderator_witness :
  exists actor,
    Some (transformUser Fixtures.carol) = Some actor /\
    User.isModerator actor = true.
Proof.
  destruct (proj1 (@patchImageStatus_requires_moderator "2024-05-02T10:00:00.000Z"
                     (Some (transformUser Fixtures.carol)) (Some 2%Z)
                     (Some (approve, None)) Fixtures.gallery _ _ eq_refl))
    as (actor & id & row & Hactor & Hmod & _).
  - right. reflexivity.
  - exists actor. split; [exact Hactor | exact Hmod].
Defined.

(** ** More on the stored password form *)

Section StoredFormFacts.

Variable scrypt : string -> string -> nat -> Result (list byte).

Local Open Scope string_scope.

(** X27. Verification looks at the stored hash only through its hex
    decoding: for a stored form [hash.salt] with non-empty components, the
    supplied password is accepted exactly when the bytes that
    [Buffer.from(hash, 'hex')] decodes are the key derived under [salt]. So
    upper-case hex digits, or characters after the last valid digit pair, do
    not change the verdict. *)
Theorem comparePasswords_decodes_hash (supplied storedHash salt : string)
    (key : list byte) :
  JS.includes "." storedHash = false ->
  JS.includes "." salt = false ->
  JS.truthy storedHash = true ->
  JS.truthy salt = true ->
  scrypt supplied salt 64 = Ok key ->
  (comparePasswords scrypt supplied (storedHash ++ "." ++ salt) = Ok true <->
   Buffer.fromHex storedHash = key).
Proof.
  intros Hh Hs Th Ts Hkey.
  unfold comparePasswords, comparePasswords_try.
  change ("." ++ salt) with (String "." salt).
  rewrite truthy_append by reflexivity.
  rewrite includes_separator.
  rewrite split_at_first_separator by exact Hh.
  rewrite split_without_separator by exact Hs.
  cbn [negb orb nth_error]. rewrite Th, Ts. cbn [negb orb].
  rewrite Hkey. cbn [rbind]. unfold Buffer.timingSafeEqual.
  destruct (Nat.eqb (List.length key) (List.length (Buffer.fromHex storedHash)))
    eqn:Elen; cbn [rbind try_catch].
  - split.
    + intros [= Heq]. symmetry. now apply bytes_eqb_eq.
    + intros ->. now rewrite bytes_eqb_refl.
  - split; [discriminate|].
    intros Heq. rewrite Heq, Nat.eqb_refl in Elen. discriminate.
Qed.

End StoredFormFacts.

Lemma comparePasswords_decodes_hash_witness :
  comparePasswords Fixtures.toy_scrypt "password123"%string Fixtures.shouted_form
  = Ok true.
Proof.
  apply (proj2 (@comparePasswords_decodes_hash Fixtures.toy_scrypt "password123"%string
                  (String.concat ""%string (repeat "2B"%string 64))
                  (Buffer.toHex Fixtures.salt16)
                  (repeat x2b 64) eq_refl eq_refl eq_refl eq_refl eq_refl)).
  reflexivity.
Defined.

(** ** Album view and moderators *)

(** X28. The image list of an album shows exactly the members that are
    approved and whose owner exists: a member image that is not approved
    (any more) is not shown although its membership row is still there. *)
Theorem getAlbumImages_exact (id : Z) (db : DB) :
  exists shown,
    getAlbumImages id db = (Ok shown, db) /\
    (forall x, In x shown <->
       exists m i u,
         In m (album_images db) /\ AlbumImageRow.album_id m = id /\
         In i (images db) /\ ImageRow.id i = AlbumImageRow.image_id m /\
         ImageRow.status i = approved /\
         In u (users db) /\ UserRow.id u = ImageRow.user_id i /\
         x = {| iu_image := transformImage i; iu_user_id := UserRow.id u;
                iu_user_name := UserRow.name u |}).
Proof.
  eexists. split; [reflexivity|].
  intros x. rewrite in_map_iff. split.
  - intros ([[m i] u] & <- & Hin). apply order_by_desc_In in Hin.
    apply in_flat_map in Hin as (m0 & Hm0 & Hin).
    apply filter_In in Hm0 as [Hm0 Halbum]. apply Z.eqb_eq in Halbum.
    apply in_flat_map in Hin as (i0 & Hi0 & Hin).
    apply filter_In in Hi0 as [Hi0 Hcond].
    apply andb_true_iff in Hcond as [Hid Hs].
    apply Z.eqb_eq in Hid. apply ImageStatus_eqb_eq in Hs.
    apply in_map_iff in Hin as (u0 & [= <- <- <-] & Hu0).
    apply filter_In in Hu0 as [Hu0 Howner]. apply Z.eqb_eq in Howner.
    exists m0, i0, u0. repeat split; assumption.
  - intros (m & i & u & Hm & Halbum & Hi & Hid & Hs & Hu & Howner & ->).
    exists (m, i, u). split; [reflexivity|]. apply order_by_desc_In.
    apply in_flat_map. exists m. split.
    { apply filter_In. split; [exact Hm|]. now apply Z.eqb_eq. }
    apply in_flat_map. exists i. split.
    { apply filter_In. split; [exact Hi|]. apply andb_true_iff. split.
      - now apply Z.eqb_eq.
      - now apply ImageStatus_eqb_eq. }
    apply in_map_iff. exists u. split; [reflexivity|].
    apply filter_In. split; [exact Hu|]. now apply Z.eqb_eq.
Qed.

(** X29. [makeModerator] on an existing account puts it on the moderator
    list: afterwards [getModerators] returns an entry with that id and the
    moderator flag, every earlier moderator is still listed by id, and
    nothing but the moderator flag of that id changed in the users table. *)
Theorem makeModerator_then_getModerators (userId : Z) (db : DB) (row : UserRow.t) :
  In row (users db) ->
  UserRow.id row = userId ->
  exists db' moderators,
    makeModerator userId db = (Ok tt, db') /\
    getModerators db' = (Ok moderators, db') /\
    (exists u, In u moderators /\ User.id u = userId /\ User.isModerator u = true) /\
    (forall before old,
       getModerators db = (Ok before, db) -> In old before ->
       exists u, In u moderators /\ User.id u = User.id old) /\
    map (fun r => (UserRow.id r, UserRow.email r, UserRow.password r,
                   UserRow.is_admin r, UserRow.is_banned r)) (users db')
    = map (fun r => (UserRow.id r, UserRow.email r, UserRow.password r,
                     UserRow.is_admin r, UserRow.is_banned r)) (users db).
Proof.
  intros Hin Hid.
  set (p := fun r => (UserRow.id r =? userId)%Z).
  set (promote := set_roles (Some true) None).
  assert (Hmember : forall r, In r (users db) ->
            In (if p r then promote r else r) (update_where p promote (users db))).
  { intros r Hr. unfold update_where. apply in_map_iff. now exists r. }
  eexists. eexists. split; [reflexivity|]. split; [reflexivity|].
  unfold with_users. cbn [users]. fold p. fold promote.
  split; [|split].
  - exists (transformUser (promote row)). split; [|split; [exact Hid | reflexivity]].
    apply in_map. apply filter_In. split; [|reflexivity].
    specialize (Hmember row Hin).
    assert (Hp : p row = true) by (unfold p; now apply Z.eqb_eq).
    now rewrite Hp in Hmember.
  - intros before old Hbefore Hold.
    unfold getModerators, bind, query, ret in Hbefore. injection Hbefore as <-.
    apply in_map_iff in Hold as (r & <- & Hr).
    apply filter_In in Hr as [Hr Hflag].
    exists (transformUser (if p r then promote r else r)). split.
    + apply in_map. apply filter_In. split; [now apply Hmember|].
      destruct (p r); [reflexivity | exact Hflag].
    + destruct (p r); reflexivity.
  - unfold update_where. rewrite map_map. apply map_ext.
    intros r. destruct (p r); reflexivity.
Qed.

Lemma makeModerator_then_getModerators_witness :
  exists db' moderators u,
    makeModerator 2 Fixtures.gallery = (Ok tt, db') /\
    getModerators db' = (Ok moderators, db') /\
    In u moderators /\ User.id u = 2%Z.
Proof.
  destruct (@makeModerator_then_getModerators 2 Fixtures.gallery Fixtures.bob)
    as (db' & moderators & H1 & H2 & (u & Hu & Hid & _) & _).
  - cbn. auto.
  - reflexivity.
  - exists db', moderators, u. repeat split; assumption.
Defined.
